(** * DAGLayer: normalisation and execution of module graphs

    A shallow embedding of [ddsp/dags.py]: the helper predicates, the
    constructor of [DAGLayer], [format_dag] (both on values and on a store of
    Python sequence objects) and [run_dag], followed by the properties that
    the design document states about them.

    A layer has one namespace of attributes: the graph, the list of module
    names and the modules are attributes of the same object, beside what the
    class and its Keras base class define; [getattr] and [setattr] follow
    the order in which Python resolves them.

    Python dictionaries are kept as association lists in insertion order
    with unique keys; dictionaries that can be shared between the caller,
    the modules and the output namespace live in a heap and are named by
    their location, so that "the same dictionary" and "an equal dictionary"
    are different statements. *)

From Stdlib Require Import ZArith Ascii.
From stdpp Require Import base tactics option list strings.

#[local] Set Warnings "-register-all".

(** ** Python dictionaries *)

Module PyDict.

Section Defs.
Context {V : Type}.

(** [d.get(k)] *)
Fixpoint get (k : string) (d : list (string * V)) : option V :=
  match d with
  | [] => None
  | (k', v) :: r => if decide (k = k') then Some v else get k r
  end.

(** [d[k] = v]: an existing key keeps its position, a new one goes last. *)
Fixpoint set (k : string) (v : V) (d : list (string * V)) : list (string * V) :=
  match d with
  | [] => [(k, v)]
  | (k', v') :: r =>
      if decide (k = k') then (k, v) :: r else (k', v') :: set k v r
  end.

(** [d.pop(k)] on a dictionary that has [k] (the value is read with [get]). *)
Fixpoint remove (k : string) (d : list (string * V)) : list (string * V) :=
  match d with
  | [] => []
  | (k', v') :: r => if decide (k = k') then r else (k', v') :: remove k r
  end.

(** [d.update(items)] *)
Definition update (d items : list (string * V)) : list (string * V) :=
  fold_left (fun acc kv => set kv.1 kv.2 acc) items d.

(** [dict(items)] *)
Definition of_items (items : list (string * V)) : list (string * V) :=
  update [] items.

(** [list(d.keys())] *)
Definition keys (d : list (string * V)) : list string := d.*1.

End Defs.

End PyDict.

Abbreviation dict V := (list (string * V)).

(** ** Values, exceptions and the world a run acts on *)

Abbreviation loc := nat.

(** What a tensor dictionary and the results of modules are made of.  A
    tensor carries its shape, the only attribute [run_dag] reads from it.
    Strings and lists are what [format_dag] makes of such values when a node
    applies it to them. *)
Inductive value :=
| VNone
| VBool (b : bool)
| VTensor (shape : list nat) (data : list Z)
| VTuple (items : list value)
| VDict (l : loc)
| VStr (s : string)
| VList (items : list value).

Abbreviation heap := (list (dict value)).

Inductive exn :=
| AttributeError (attr : string)
| KeyError (key : string)
| IndexError
| TypeError (msg : string)
| ValueError (msg : string)
| UnboundLocalError (var : string)
| RecursionError.

Inductive result (A : Type) :=
| Ok (a : A)
| Err (e : exn).
Arguments Ok {A} a.
Arguments Err {A} e.

Definition is_ok {A} (r : result A) : bool :=
  match r with Ok _ => true | Err _ => false end.

#[global] Instance result_ret : MRet result := fun A a => Ok a.
#[global] Instance result_bind : MBind result := fun A B f r =>
  match r with
  | Ok a => f a
  | Err e => Err e
  end.

(** The structure handed to the logger: [tf.nest.map_structure] keeps the
    nesting and replaces every leaf by the list of its dimensions. *)
Inductive nest :=
| Leaf (dims : list nat)
| Seq (items : list nest)
| Map (items : list (string * nest)).

Inductive log_record :=
| InputRecord (module_key : string) (input_keys : list string) (shapes : nest)
| OutputRecord (module_key : string) (shapes : nest).

(** The three ways [run_dag] can invoke a module. *)
Inductive convention := Processor | Loss | Default.

(** The heap of dictionaries, what [logging.info] has received, and (as
    instrumentation that no code reads) which modules were invoked, by which
    convention, in order. *)
Record world := World {
  w_heap : heap;
  w_log : list log_record;
  w_calls : list (string * convention)
}.

(** Computations that read and write a state and may raise: an exception
    ends the computation and leaves the state as it was when raised. *)
Definition ST (S A : Type) : Type := S -> result A * S.

#[global] Instance ST_ret {S} : MRet (ST S) := fun A a s => (Ok a, s).
#[global] Instance ST_bind {S} : MBind (ST S) := fun A B f m s =>
  match m s with
  | (Ok a, s') => f a s'
  | (Err e, s') => (Err e, s')
  end.

Definition raise {S A} (e : exn) : ST S A := fun s => (Err e, s).

Definition lift {S A} (r : result A) : ST S A := fun s => (r, s).

(** [for x in xs: s = body(s, x)] *)
Fixpoint for_loop {S B A} (body : B -> A -> ST S B) (xs : list A) (b : B)
  : ST S B :=
  match xs with
  | [] => mret b
  | x :: r => b' ← body b x; for_loop body r b'
  end.

(** [[f(x) for x in xs]], left to right, stopping at the first exception. *)
Fixpoint for_each {S A B} (f : A -> ST S B) (xs : list A) : ST S (list B) :=
  match xs with
  | [] => mret []
  | x :: r => y ← f x; ys ← for_each f r; mret (y :: ys)
  end.

Abbreviation M := (ST world).

Definition get_heap : M heap := fun w => (Ok (w_heap w), w).

(** A new dictionary object. *)
Definition alloc (d : dict value) : M loc := fun w =>
  (Ok (length (w_heap w)),
   World (w_heap w ++ [d]) (w_log w) (w_calls w)).

(** [logging.info(...)] *)
Definition logging_info (r : log_record) : M unit := fun w =>
  (Ok tt, World (w_heap w) (w_log w ++ [r]) (w_calls w)).

Fixpoint for_each_result {A B} (f : A -> result B) (xs : list A)
  : result (list B) :=
  match xs with
  | [] => Ok []
  | x :: r =>
      match f x with
      | Err e => Err e
      | Ok y =>
          match for_each_result f r with
          | Err e => Err e
          | Ok ys => Ok (y :: ys)
          end
      end
  end.

(** ** Modules *)

Definition method : Type :=
  list value -> dict value -> heap -> result value * heap.

(** A [tf.Module] instance as [dags.py] sees it: its [name], whether it has
    the attributes [get_signal] and [get_controls], its [get_losses_dict]
    method if it has one, and what calling it does.  A call receives the
    positional arguments and the keyword arguments, may change the
    dictionaries of the heap, and returns or raises. *)
Record module := Module {
  name : string;
  get_signal : bool;
  get_controls : bool;
  get_losses_dict : option method;
  call : method
}.

(** Anything a caller can pass as a keyword argument of the constructor. *)
Inductive kwarg :=
| KwModule (m : module)
| KwValue (v : value).

(** [KeyOrModule = TypeVar('KeyOrModule', Text, tf.Module)] *)
Inductive KeyOrModule :=
| Key (s : string)
| Mod (m : module).

(** [Node = Tuple[KeyOrModule, Sequence[Text], Sequence[Text]]]; the third
    component is [None] for a node of length two. *)
Record Node := MkNode {
  node_0 : KeyOrModule;
  node_1 : list string;
  node_2 : option (list string)
}.

Abbreviation DAG := (list Node).

(** ** Helper functions for DAGs *)

Definition filter_by_value {V} (d : dict V) (cond : V -> bool) : dict V :=
  PyDict.of_items (filter (fun e => cond e.2) d).

(** [isinstance(v, tf.Module)], at the two types it is applied to. *)
Class IsModule (A : Type) := is_module : A -> bool.

#[global] Instance kwarg_is_module : IsModule kwarg := fun v =>
  match v with KwModule _ => true | KwValue _ => false end.

#[global] Instance ref_is_module : IsModule KeyOrModule := fun v =>
  match v with Mod _ => true | Key _ => false end.

Definition is_loss (v : module) : bool :=
  match get_losses_dict v with Some _ => true | None => false end.

Definition is_processor (v : module) : bool :=
  get_signal v && get_controls v.

Definition is_not_None (o : option kwarg) : bool :=
  match o with
  | None | Some (KwValue VNone) => false
  | Some _ => true
  end.

(** Strip keras specific kwargs. *)
Definition split_keras_kwargs (kwargs : dict kwarg) : dict kwarg * dict kwarg :=
  fold_left
    (fun '(keras_kwargs, kwargs) key =>
       if is_not_None (PyDict.get key kwargs) then
         match PyDict.get key kwargs with
         | Some v => (PyDict.set key v keras_kwargs, PyDict.remove key kwargs)
         | None => (keras_kwargs, kwargs)
         end
       else (keras_kwargs, kwargs))
    ["training"; "mask"; "name"]
    ([], kwargs).

(** ** DAGLayer *)

(** What [dags.py] takes from the Keras base class and from the builtins of
    the interpreter, as far as the code below depends on them. *)
Record Library := MkLibrary {
  (* The constructor of [tfkl.Layer] on the keras kwargs: the exception it
     raises, if it raises. *)
  layer_init : dict kwarg -> option exn;
  (* The names that an instance of [tfkl.Layer] refuses to assign to: its
     properties without a setter. *)
  read_only : string -> bool;
  (* The attributes that the base classes resolve for a name that neither
     the instance nor [DAGLayer] has, special names such as [__class__]
     included; each as [run_dag] sees an object, by its capabilities and by
     what calling it does. *)
  inherited : string -> option module;
  (* [list(v)] for a tensor [v]. *)
  iterate : value -> result (list value);
  (* [bool(v)] for a tensor [v]. *)
  truth : value -> result bool;
  (* The items that [d.update(v)] takes from a [v] that is no dictionary. *)
  pairs : heap -> value -> result (dict value)
}.

(** The methods that [DAGLayer] defines beside its constructor. *)
Inductive member := Call | RunDag | FormatDag.

(** What [getattr] finds on a layer: a module, the graph, the list of
    module names, the list that the property [modules] returns, a method of
    the class bound to the layer, or an attribute of the base classes. *)
Inductive attribute :=
| AModule (m : module)
| AGraph (d : DAG)
| ANames (names : list string)
| AList (items : list attribute)
| AMethod (f : member)
| AInherited (o : module).

(** The instance dictionary of a layer, by what [__init__] writes to it:
    [self.dag], [self.module_names] and then, by [setattr], the modules
    under their names.  These are attributes of one object: a module that is
    set under the name [dag] or [module_names] takes the place of the graph
    or of the list of names, which [getattr] renders by looking among the
    modules first. *)
Record DAGLayer := MkDAGLayer {
  dag : DAG;
  module_names : list string;
  attrs : dict module
}.

(** [setattr(self, attr, m)] for a module [m].  [modules] is a property of
    the class and has no setter; the base class has such properties of its
    own. *)
Definition setattr (lib : Library) (self : DAGLayer) (attr : string)
  (m : module) : result DAGLayer :=
  if decide (attr = "modules") then Err (AttributeError attr)
  else if read_only lib attr then Err (AttributeError attr)
  else Ok (MkDAGLayer (dag self) (module_names self)
             (PyDict.set attr m (attrs self))).

(** The lookup of a name that is not a property of the class: the instance
    dictionary, then the methods of the class, then the base classes. *)
Definition lookup_attribute (lib : Library) (self : DAGLayer) (attr : string)
  : result attribute :=
  match PyDict.get attr (attrs self) with
  | Some m => Ok (AModule m)
  | None =>
      if decide (attr = "dag") then Ok (AGraph (dag self))
      else if decide (attr = "module_names") then Ok (ANames (module_names self))
      else if decide (attr = "call") then Ok (AMethod Call)
      else if decide (attr = "run_dag") then Ok (AMethod RunDag)
      else if decide (attr = "format_dag") then Ok (AMethod FormatDag)
      else
        match inherited lib attr with
        | Some o => Ok (AInherited o)
        | None => Err (AttributeError attr)
        end
  end.

(** Module getter.  A module is no iterable ([tf.Module] defines no
    iteration), so that the getter raises when a module has taken the name
    [module_names]; and the name [modules] in the list would ask for the
    getter again, without end. *)
Definition modules (lib : Library) (self : DAGLayer) : result (list attribute) :=
  match lookup_attribute lib self "module_names" with
  | Ok (ANames names) =>
      for_each_result
        (fun name =>
           if decide (name = "modules") then Err RecursionError
           else lookup_attribute lib self name)
        names
  | Ok _ => Err (TypeError "object is not iterable")
  | Err e => Err e
  end.

(** [getattr(self, module_key)]: a property of the class comes before the
    instance dictionary. *)
Definition getattr (lib : Library) (self : DAGLayer) (module_key : string)
  : result attribute :=
  if decide (module_key = "modules") then
    match modules lib self with
    | Ok items => Ok (AList items)
    | Err e => Err e
    end
  else lookup_attribute lib self module_key.

(** [self.dag] as a loop reads it: the graph, unless a module has taken its
    name. *)
Definition self_dag (lib : Library) (self : DAGLayer) : result DAG :=
  match getattr lib self "dag" with
  | Ok (AGraph d) => Ok d
  | Ok _ => Err (TypeError "object is not iterable")
  | Err e => Err e
  end.

(** [enumerate(l)] *)
Definition enumerate {A} (l : list A) : list (nat * A) :=
  zip (seq 0 (length l)) l.

(** The body of the loop of [format_dag], on the copy [dag] of the graph and
    the dictionary [modules]. *)
Definition format_node (st : DAG * dict module) (i_node : nat * Node)
  : DAG * dict module :=
  let '(dag, modules) := st in
  let '(i, node) := i_node in
  let module := node_0 node in
  let '(node, modules) :=
    if is_module module then
      match module with
      | Mod m =>
          (MkNode (Key (name m)) (node_1 node) (node_2 node),
           PyDict.set (name m) m modules)
      | Key _ => (node, modules)
      end
    else (node, modules) in
  (<[i := node]> dag, modules).

(** Remove modules from dag, and replace with module names. *)
Definition format_dag (dag : DAG) : DAG * dict module :=
  fold_left format_node (enumerate dag) (dag, []).

(** The values of a dictionary that holds modules only. *)
Definition as_modules (d : dict kwarg) : dict module :=
  omap (fun e => match e.2 with
                 | KwModule m => Some (e.1, m)
                 | KwValue _ => None
                 end) d.

(** The keyword arguments of the constructor that end up as modules. *)
Definition external_modules (kwarg_modules : dict kwarg) : dict module :=
  as_modules (filter_by_value (split_keras_kwargs kwarg_modules).2 is_module).

(** [DAGLayer.__init__]: the constructor of the base class is called with
    the keras kwargs; [self.dag] and [self.module_names] are set and then
    every module of the registry, in its order, until a name is refused. *)
Definition DAGLayer_init (lib : Library) (dag : DAG) (kwarg_modules : dict kwarg)
  : result DAGLayer :=
  let '(keras_kwargs, kwarg_modules) := split_keras_kwargs kwarg_modules in
  match layer_init lib keras_kwargs with
  | Some e => Err e
  | None =>
      let modules := as_modules (filter_by_value kwarg_modules is_module) in
      let '(dag, dag_modules) := format_dag dag in
      let modules := PyDict.update modules dag_modules in
      let self := MkDAGLayer dag (PyDict.keys modules) [] in
      fold_left (fun self e => self ← self; setattr lib self e.1 e.2)
        modules (Ok self)
  end.

(** ** The collaborators of [ddsp.core] *)

(** [s.split(sep)] *)
Fixpoint split_on (sep : ascii) (s : string) : list string :=
  match s with
  | EmptyString => [""]
  | String c r =>
      if decide (c = sep) then "" :: split_on sep r
      else
        match split_on sep r with
        | [] => [String c ""]
        | seg :: segs => String c seg :: segs
        end
  end.

(** Follow the remaining segments of a path from the value [v]: each segment
    is a key of the mapping reached so far. *)
Fixpoint lookup_path (h : heap) (keys : list string) (v : value) : option value :=
  match keys with
  | [] => Some v
  | key :: keys =>
      match v with
      | VDict l => d ← h !! l; v' ← PyDict.get key d; lookup_path h keys v'
      | _ => None
      end
  end.

(** Modelled from the spec: [core.nested_lookup], which is not in this file.
    The key is a top-level key of the namespace or a path of keys separated
    by [/] through nested mappings; the addressed value is returned, and a
    segment that is absent is a lookup error. *)
Definition nested_lookup (nested_key : string) (nested_dict : dict value)
  (h : heap) : result value :=
  match split_on "/" nested_key with
  | [] => Err (KeyError nested_key)
  | key :: keys =>
      match v ← PyDict.get key nested_dict; lookup_path h keys v with
      | Some v => Ok v
      | None => Err (KeyError nested_key)
      end
  end.

(** [isinstance(v, dict)] *)
Definition is_dict (v : value) : bool :=
  match v with VDict _ => true | _ => false end.

(** [sys.getrecursionlimit()] *)
Definition recursion_limit : nat := 1000.

(** [tf.nest.map_structure(lambda x: list(x.shape), d)]: tuples and
    dictionaries are traversed, anything else is a leaf and must have a
    [shape]. *)
Fixpoint shape (depth : nat) (h : heap) (d : value) : result nest :=
  match depth with
  | 0 => Err RecursionError
  | S depth =>
      match d with
      | VTensor dims _ => Ok (Leaf dims)
      | VNone | VBool _ | VStr _ => Err (AttributeError "shape")
      | VTuple items | VList items =>
          match for_each_result (shape depth h) items with
          | Ok l => Ok (Seq l)
          | Err e => Err e
          end
      | VDict l =>
          match h !! l with
          | None => Err (TypeError "not a mapping")
          | Some items =>
              match for_each_result
                      (fun e => match shape depth h e.2 with
                                | Ok n => Ok (e.1, n)
                                | Err e => Err e
                                end) items with
              | Ok l => Ok (Map l)
              | Err e => Err e
              end
          end
      end
  end.

(** ** Running the graph *)

(** A call of a method of a module, recorded in [w_calls]. *)
Definition invoke (c : convention) (module_key : string) (f : method)
  (args : list value) (kwargs : dict value) : M value := fun w =>
  let '(r, h) := f args kwargs (w_heap w) in
  (r, World h (w_log w) (w_calls w ++ [(module_key, c)])).

(** The record of a call that is about to be made. *)
Definition record_call (c : convention) (module_key : string) : M unit := fun w =>
  (Ok tt, World (w_heap w) (w_log w) (w_calls w ++ [(module_key, c)])).

(** The dictionary a reference names. *)
Definition deref (l : loc) : M (dict value) := fun w =>
  match w_heap w !! l with
  | Some d => (Ok d, w)
  | None => (Err (TypeError "not a mapping"), w)
  end.

(** The exception of a call whose arguments do not fit the parameters. *)
Definition bad_arguments : exn := TypeError "arguments do not fit the signature".

(** The arguments of a call bound to the parameters [(inputs, **kwargs)]. *)
Definition bind_inputs (args : list value) (kwargs : dict value)
  : result (value * dict value) :=
  match args, PyDict.get "inputs" kwargs with
  | [v], None => Ok (v, kwargs)
  | [], Some v => Ok (v, PyDict.remove "inputs" kwargs)
  | _, _ => Err bad_arguments
  end.

(** The arguments of a call bound to the parameters
    [(inputs, verbose=True, **kwargs)]; [None] for a [verbose] that is left
    to its default. *)
Definition bind_run_dag (args : list value) (kwargs : dict value)
  : result (value * option value * dict value) :=
  match args with
  | [] | [_] =>
      '(inputs, kwargs) ← bind_inputs args kwargs;
      Ok (inputs, PyDict.get "verbose" kwargs, PyDict.remove "verbose" kwargs)
  | [inputs; verbose] =>
      '(inputs, kwargs) ← bind_inputs [inputs] kwargs;
      match PyDict.get "verbose" kwargs with
      | None => Ok (inputs, Some verbose, kwargs)
      | Some _ => Err bad_arguments
      end
  | _ => Err bad_arguments
  end.

(** The arguments of a call bound to the parameter [(dag)]. *)
Definition bind_dag (args : list value) (kwargs : dict value) : result value :=
  match args, kwargs with
  | [v], [] => Ok v
  | [], [(key, v)] => if decide (key = "dag") then Ok v else Err bad_arguments
  | _, _ => Err bad_arguments
  end.

Section Executor.

Variable lib : Library.

(** The labels [core.to_dict] uses when it is given no output keys, by
    position. *)
Variable default_label : nat -> string.

(** The value that the configuration binds to [run_dag.verbose], if any
    ([gin.configurable(allowlist=['verbose'])]). *)
Variable gin_verbose : option bool.

(** Modelled from the spec: [core.to_dict], which is not in this file.  A
    result that is not a mapping, a single value or a tuple, becomes a new
    mapping with the output keys as labels in order; without output keys the
    labels are the default ones by position; a number of labels other than
    the number of values is an error. *)
Definition to_dict (x : value) (keys : option (list string)) : M value :=
  let xs := match x with VTuple items => items | _ => [x] end in
  let keys :=
    match keys with
    | Some keys => keys
    | None => default_label <$> seq 0 (length xs)
    end in
  if decide (length keys = length xs) then
    l ← alloc (PyDict.of_items (zip keys xs)); mret (VDict l)
  else raise (ValueError "number of keys and of values differ").

(** The value of [verbose] that the body of [run_dag] sees. *)
Definition verbose_or_default (verbose : option bool) : bool :=
  match verbose with
  | Some b => b
  | None => match gin_verbose with Some b => b | None => true end
  end.

(** [bool(v)], as [if verbose:] takes it. *)
Definition truthy (h : heap) (v : value) : result bool :=
  match v with
  | VNone => Ok false
  | VBool b => Ok b
  | VTensor _ _ => truth lib v
  | VTuple items | VList items =>
      Ok (match items with [] => false | _ => true end)
  | VStr s => Ok (match s with EmptyString => false | _ => true end)
  | VDict l =>
      match h !! l with
      | Some d => Ok (match d with [] => false | _ => true end)
      | None => Err (TypeError "not a mapping")
      end
  end.

(** [list(v)] *)
Definition list_of (h : heap) (v : value) : result (list value) :=
  match v with
  | VTuple items | VList items => Ok items
  | VStr s => Ok ((fun c => VStr (String c "")) <$> String.list_ascii_of_string s)
  | VDict l =>
      match h !! l with
      | Some d => Ok (VStr <$> PyDict.keys d)
      | None => Err (TypeError "not a mapping")
      end
  | VTensor _ _ => iterate lib v
  | VNone | VBool _ => Err (TypeError "object is not iterable")
  end.

(** [format_dag] as a node calls it when its key is [format_dag]: on a
    value of the namespace.  No item of such a value is a module, so that
    the nodes are copied as they are and the dictionary of modules stays
    empty. *)
Definition format_dag_call : method := fun args kwargs h =>
  match bind_dag args kwargs with
  | Err e => (Err e, h)
  | Ok dag =>
      let modules := length h in
      let copy :=
        dag ← list_of h dag;
        for_each_result
          (fun node =>
             node ← list_of h node;
             match node with
             | [] => Err IndexError
             | _ => Ok (VList node)
             end)
          dag in
      match copy with
      | Ok dag => (Ok (VTuple [VList dag; VDict modules]), h ++ [[]])
      | Err e => (Err e, h ++ [[]])
      end
  end.

(** Duck typing to avoid dealing with multiple inheritance of Group
    modules: the call of the module of a node. *)
Definition dispatch (module_key : string) (module : module)
  (inputs : list value) (kwargs : dict value) : M value :=
  if is_processor module then
    (* Processor modules. *)
    match PyDict.get "return_outputs_dict" kwargs with
    | Some _ => raise (TypeError "multiple values for keyword argument")
    | None =>
        invoke Processor module_key (call module) inputs
          (("return_outputs_dict", VBool true) :: kwargs)
    end
  else if is_loss module then
    (* Loss modules. *)
    match get_losses_dict module with
    | Some f => invoke Loss module_key f inputs kwargs
    | None => raise (AttributeError "get_losses_dict")
    end
  else
    (* Network modules. *)
    invoke Default module_key (call module) inputs kwargs.

(** Initialize the outputs with inputs to the dag. *)
Definition init_outputs (inputs : loc) : M (dict value) :=
  let outputs := [("inputs", VDict inputs)] in
  items ← deref inputs;
  mret (PyDict.update outputs items).

(** The same when [inputs] is any value, as in a run that a node starts. *)
Definition init_outputs_of (inputs : value) : M (dict value) :=
  match inputs with
  | VDict l => init_outputs l
  | _ =>
      h ← get_heap;
      items ← lift (pairs lib h inputs);
      mret (PyDict.update [("inputs", inputs)] items)
  end.

(** Alias final module output as dag output. *)
Definition alias_out (st : dict value * option value) : M (dict value) :=
  let '(outputs, module_outputs) := st in
  match module_outputs with
  | None => raise (UnboundLocalError "module_outputs")
  | Some module_outputs => mret (PyDict.set "out" module_outputs outputs)
  end.

(** [if verbose: m] *)
Definition when (verbose : value) (m : M unit) : M unit := fun w =>
  match truthy (w_heap w) verbose with
  | Ok true => m w
  | Ok false => (Ok tt, w)
  | Err e => (Err e, w)
  end.

Section Node.

(** A run of the graph that a node starts, on the inputs, the verbosity and
    the keyword arguments it passes. *)
Variable run : value -> value -> dict value -> M (dict value).

Variable self : DAGLayer.

(** The method [run_dag] called by a node: a run of the graph from within a
    run;
    the namespace it returns is a dictionary as any other.  A [verbose]
    that is not passed is the configured one. *)
Definition run_dag_method (module_key : string) (args : list value)
  (kwargs : dict value) : M value :=
  '(inputs, verbose, kwargs) ← lift (bind_run_dag args kwargs);
  let verbose :=
    match verbose with
    | Some verbose => verbose
    | None => VBool (verbose_or_default None)
    end in
  _ ← record_call Default module_key;
  outputs ← run inputs verbose kwargs;
  l ← alloc outputs;
  mret (VDict l).

(** Run dag for an input dictionary, as a node calls it.  The
    [run_dag] it calls is the attribute of that name, a module if one has
    been set under it. *)
Definition call_method (module_key : string) (args : list value)
  (kwargs : dict value) : M value :=
  '(inputs, kwargs) ← lift (bind_inputs args kwargs);
  run_dag ← lift (getattr lib self "run_dag");
  match run_dag with
  | AMethod RunDag => run_dag_method module_key [inputs] kwargs
  | AModule m | AInherited m => invoke Default module_key (call m) [inputs] kwargs
  | _ => raise (TypeError "object is not callable")
  end.

(** Lines 171 to 180 for whatever [getattr] has found.  A list and a method
    have none of the attributes that the duck typing asks for and are
    called as they are, which a list does not allow. *)
Definition call_attribute (module_key : string) (module : attribute)
  (inputs : list value) (kwargs : dict value) : M value :=
  match module with
  | AModule m | AInherited m => dispatch module_key m inputs kwargs
  | AGraph _ | ANames _ | AList _ =>
      raise (TypeError "'list' object is not callable")
  | AMethod Call => call_method module_key inputs kwargs
  | AMethod RunDag => run_dag_method module_key inputs kwargs
  | AMethod FormatDag => invoke Default module_key format_dag_call inputs kwargs
  end.

(** The body of the loop of [run_dag], on the locals [outputs] and
    [module_outputs] (unbound before the first node). *)
Definition run_node_with (verbose : value) (kwargs : dict value)
  (st : dict value * option value) (node : Node)
  : M (dict value * option value) :=
  let '(outputs, _) := st in
  match node_0 node with
  | Mod _ => raise (TypeError "attribute name must be string")
  | Key module_key =>
      let input_keys := node_1 node in
      module ← lift (getattr lib self module_key);
      let output_keys := node_2 node in
      inputs ← for_each
                 (fun key => h ← get_heap; lift (nested_lookup key outputs h))
                 input_keys;
      _ ← when verbose
            (h ← get_heap;
             shapes ← lift (shape recursion_limit h (VTuple inputs));
             logging_info (InputRecord module_key input_keys shapes));
      module_outputs ← call_attribute module_key module inputs kwargs;
      module_outputs ←
        (if negb (is_dict module_outputs) then to_dict module_outputs output_keys
         else mret module_outputs);
      _ ← when verbose
            (h ← get_heap;
             shapes ← lift (shape recursion_limit h module_outputs);
             logging_info (OutputRecord module_key shapes));
      mret (PyDict.set module_key module_outputs outputs, Some module_outputs)
  end.

End Node.

(** Connects and runs submodules of dag, with room for [depth] runs within
    one another before the interpreter raises [RecursionError]. *)
Fixpoint run_dag_at (depth : nat) (self : DAGLayer) (inputs : value)
  (verbose : value) (kwargs : dict value) : M (dict value) :=
  match depth with
  | 0 => raise RecursionError
  | S depth =>
      outputs ← init_outputs_of inputs;
      nodes ← lift (self_dag lib self);
      st ← for_loop (run_node_with (run_dag_at depth self) self verbose kwargs)
             nodes (outputs, None);
      alias_out st
  end.

(** [run_dag] as a caller calls it, on a tensor dictionary. *)
Definition run_dag (self : DAGLayer) (inputs : loc) (verbose : option bool)
  (kwargs : dict value) : M (dict value) :=
  run_dag_at recursion_limit self (VDict inputs)
    (VBool (verbose_or_default verbose)) kwargs.

(** The body of its loop. *)
Definition run_node (self : DAGLayer) (verbose : bool) (kwargs : dict value)
  : dict value * option value -> Node -> M (dict value * option value) :=
  run_node_with (run_dag_at (pred recursion_limit) self) self (VBool verbose)
    kwargs.

End Executor.

(** ** [format_dag] on Python objects

    To say what [format_dag] leaves alone, the graph is here a Python object:
    a list or a tuple (or a string) whose items are again such objects, in a
    store where lists can be assigned to and tuples and strings cannot. *)

Module Objects.

Abbreviation ref := nat.

(** An item of a sequence: a string, or a reference to an object. *)
Inductive elem :=
| EStr (s : string)
| ERef (r : ref).

Inductive obj :=
| OModule (m : module)
| OList (items : list elem)
| OTuple (items : list elem).

Abbreviation store := (list obj).

(** The items that iterating over [x] gives. *)
Definition iter (x : elem) : ST store (list elem) := fun σ =>
  match x with
  | EStr s => (Ok ((fun c => EStr (String c "")) <$> String.list_ascii_of_string s), σ)
  | ERef r =>
      match σ !! r with
      | Some (OList items) | Some (OTuple items) => (Ok items, σ)
      | _ => (Err (TypeError "object is not iterable"), σ)
      end
  end.

(** A new list object. *)
Definition new_list (items : list elem) : ST store ref := fun σ =>
  (Ok (length σ), σ ++ [OList items]).

(** [list(x)]: a new list with the items of [x]. *)
Definition list_ (x : elem) : ST store ref :=
  items ← iter x; new_list items.

(** [len(x)] of a list made by [list_]. *)
Definition len (x : ref) : ST store nat := fun σ =>
  match σ !! x with
  | Some (OList items) => (Ok (length items), σ)
  | _ => (Err (TypeError "not a list"), σ)
  end.

(** [x[i]] *)
Definition getitem (x : ref) (i : nat) : ST store elem := fun σ =>
  match σ !! x with
  | Some (OList items) | Some (OTuple items) =>
      match items !! i with
      | Some e => (Ok e, σ)
      | None => (Err IndexError, σ)
      end
  | _ => (Err (TypeError "object is not subscriptable"), σ)
  end.

(** The exception raised on assigning to an item of a tuple. *)
Definition immutable : exn :=
  TypeError "object does not support item assignment".

(** [x[i] = v] *)
Definition setitem (x : ref) (i : nat) (v : elem) : ST store unit := fun σ =>
  match σ !! x with
  | Some (OList items) =>
      if decide (i < length items) then
        (Ok tt, <[x := OList (<[i := v]> items)]> σ)
      else (Err IndexError, σ)
  | _ => (Err immutable, σ)
  end.

(** [is_module(v)], with the instance when it is one. *)
Definition as_module (v : elem) : ST store (option module) := fun σ =>
  match v with
  | ERef r =>
      match σ !! r with
      | Some (OModule m) => (Ok (Some m), σ)
      | _ => (Ok None, σ)
      end
  | EStr _ => (Ok None, σ)
  end.

(** The body of the loop of [format_dag]: [dag] is the copy of the graph,
    [modules] the dictionary of the references to the modules found. *)
Definition format_node (dag : ref) (modules : dict elem) (i : nat)
  : ST store (dict elem) :=
  node ← getitem dag i;
  node ← list_ node;
  module ← getitem node 0;
  is_mod ← as_module module;
  modules ←
    match is_mod with
    | Some m =>
        _ ← setitem node 0 (EStr (name m));
        mret (PyDict.set (name m) module modules)
    | None => mret modules
    end;
  _ ← setitem dag i (ERef node);
  mret modules.

(** Remove modules from dag, and replace with module names. *)
Definition format_dag (dag : elem) : ST store (ref * dict elem) :=
  let modules := [] in
  dag ← list_ dag;
  n ← len dag;
  modules ← for_loop (format_node dag) (seq 0 n) modules;
  mret (dag, modules).

(** [r] names a list of the store. *)
Definition is_list (σ : store) (r : ref) : Prop :=
  exists items, σ !! r = Some (OList items).

(** An item that refers to a list that [σ0] did not have. *)
Definition fresh_list (σ0 σ : store) (e : elem) : Prop :=
  exists r, e = ERef r /\ length σ0 <= r /\ is_list σ r.

(** A binding of the dictionary of modules that refers to an instance of
    [σ0] under the name of that instance. *)
Definition names_instance (σ0 : store) (km : string * elem) : Prop :=
  exists r m, km.2 = ERef r /\ σ0 !! r = Some (OModule m) /\ km.1 = name m.

(** Reading an object of the store as a node, and as a graph, of the
    value-level model. *)
Definition read_keys (σ : store) (e : elem) : option (list string) :=
  match e with
  | ERef r =>
      match σ !! r with
      | Some (OList items) | Some (OTuple items) =>
          mapM (fun e => match e with EStr s => Some s | ERef _ => None end) items
      | _ => None
      end
  | EStr _ => None
  end.

Definition read_ref (σ : store) (e : elem) : option KeyOrModule :=
  match e with
  | EStr s => Some (Key s)
  | ERef r =>
      match σ !! r with
      | Some (OModule m) => Some (Mod m)
      | _ => None
      end
  end.

Definition read_items (σ : store) (items : list elem) : option Node :=
  match items with
  | [m; ins] =>
      m ← read_ref σ m; ins ← read_keys σ ins;
      Some (MkNode m ins None)
  | [m; ins; outs] =>
      m ← read_ref σ m; ins ← read_keys σ ins; outs ← read_keys σ outs;
      Some (MkNode m ins (Some outs))
  | _ => None
  end.

Definition read_node (σ : store) (e : elem) : option Node :=
  match e with
  | ERef r =>
      match σ !! r with
      | Some (OList items) | Some (OTuple items) => read_items σ items
      | _ => None
      end
  | EStr _ => None
  end.

Definition read_dag (σ : store) (e : elem) : option DAG :=
  match e with
  | ERef r =>
      match σ !! r with
      | Some (OList items) | Some (OTuple items) => mapM (read_node σ) items
      | _ => None
      end
  | EStr _ => None
  end.

Definition read_modules (σ : store) (d : dict elem) : option (dict module) :=
  mapM (fun e => match read_ref σ e.2 with
                 | Some (Mod m) => Some (e.1, m)
                 | _ => None
                 end) d.

(** A graph given as a tuple of tuples, [(("enc", ("inputs/x",), ("z",)),
    (dec, ("enc/z",)))], with [dec] an instance named ["dec"] in the
    store. *)
Definition tuple_store (dec : module) : store :=
  [ OTuple [EStr "inputs/x"];
    OTuple [EStr "z"];
    OTuple [EStr "enc"; ERef 0; ERef 1];
    OModule dec;
    OTuple [EStr "enc/z"];
    OTuple [ERef 3; ERef 4];
    OTuple [ERef 2; ERef 5] ].

End Objects.

(** ** The scenario of the design document *)

(** A network module: one tensor in, the tensor with every entry doubled
    out (a bare value, not a mapping). *)
Definition double_call : method := fun args kwargs h =>
  match args with
  | [VTensor dims data] => (Ok (VTensor dims (Z.mul 2 <$> data)), h)
  | _ => (Err (TypeError "double takes one tensor"), h)
  end.

Definition double : module := Module "double" false false None double_call.

Definition scalar (z : Z) : value := VTensor [] [z].

Definition scenario_dag : DAG := [MkNode (Key "double") ["inputs/x"] (Some ["y"])].

(** A base class that takes every keyword argument, lets every name be
    assigned and has no attribute of its own, and builtins that take no
    tensor. *)
Definition plain : Library :=
  MkLibrary (fun _ => None) (fun _ => false) (fun _ => None)
    (fun _ => Err (TypeError "object is not iterable"))
    (fun _ => Err (ValueError "truth value of a tensor"))
    (fun _ _ => Err (TypeError "object is not iterable")).

(** The layer that a call of the constructor has returned. *)
Definition constructed (r : result DAGLayer) : DAGLayer :=
  match r with
  | Ok self => self
  | Err _ => MkDAGLayer [] [] []
  end.

Definition scenario_layer : DAGLayer :=
  constructed (DAGLayer_init plain scenario_dag [("double", KwModule double)]).

(** The caller's input dictionary [{"x": 3}] is the only object of the heap. *)
Definition scenario_world : world := World [[("x", scalar 3)]] [] [].

(** A value with every reference replaced by the dictionary it names. *)
Inductive tree :=
| TNone
| TBool (b : bool)
| TTensor (shape : list nat) (data : list Z)
| TTuple (items : list tree)
| TDict (items : list (string * tree))
| TStr (s : string)
| TList (items : list tree).

Fixpoint snapshot (depth : nat) (h : heap) (v : value) : option tree :=
  match depth with
  | 0 => None
  | S depth =>
      match v with
      | VNone => Some TNone
      | VBool b => Some (TBool b)
      | VTensor dims data => Some (TTensor dims data)
      | VTuple items => TTuple <$> mapM (snapshot depth h) items
      | VList items => TList <$> mapM (snapshot depth h) items
      | VStr s => Some (TStr s)
      | VDict l =>
          d ← h !! l;
          TDict <$> mapM (fun e => pair e.1 <$> snapshot depth h e.2) d
      end
  end.

Definition snapshot_dict (depth : nat) (h : heap) (d : dict value)
  : option (list (string * tree)) :=
  mapM (fun e => pair e.1 <$> snapshot depth h e.2) d.

(** ** Two instances with one identity name *)

Definition enc_a : module := Module "enc" false false None double_call.

Definition enc_b : module := Module "enc" true true None double_call.

Definition twins_dag : DAG :=
  [ MkNode (Mod enc_a) ["inputs/x"] (Some ["z"]);
    MkNode (Mod enc_b) ["enc/z"] (Some ["z"]) ].

(** ** A node named [inputs] *)

Definition seven_call : method := fun args kwargs h => (Ok (scalar 7), h).

Definition seven : module := Module "seven" false false None seven_call.

Definition shadow_dag : DAG :=
  [ MkNode (Key "inputs") [] (Some ["x"]);
    MkNode (Key "double") ["inputs/x"] (Some ["y"]) ].

Definition shadow_layer : DAGLayer :=
  constructed (DAGLayer_init plain shadow_dag
                 [("inputs", KwModule seven); ("double", KwModule double)]).

(** The caller's input dictionary is [{"inputs": {"x": 3}}]. *)
Definition shadow_world : world :=
  World [[("inputs", VDict 1)]; [("x", scalar 3)]] [] [].

(** ** An input without a shape *)

(** The module [seven] applied to the input [x], which here is [None]. *)
Definition seven_dag : DAG := [MkNode (Key "seven") ["inputs/x"] (Some ["y"])].

Definition seven_layer : DAGLayer :=
  constructed (DAGLayer_init plain seven_dag [("seven", KwModule seven)]).

Definition none_world : world := World [[("x", VNone)]] [] [].

(** Labels by position for runs that need some: ["0"], ["1"], ... *)
Definition digit_label (i : nat) : string :=
  String (Ascii.ascii_of_nat (48 + i)) "".

(** ** A key that nothing has produced *)

(** The second node reads [double/z], and the first has stored [double/y]
    only. *)
Definition broken_dag : DAG :=
  [ MkNode (Key "double") ["inputs/x"] (Some ["y"]);
    MkNode (Key "double") ["double/z"] (Some ["y"]);
    MkNode (Key "seven") [] (Some ["s"]) ].

Definition broken_layer : DAGLayer :=
  constructed (DAGLayer_init plain broken_dag
                 [("double", KwModule double); ("seven", KwModule seven)]).

(** ** What a computation sends to the logger *)

(** [m] sends [n] records to the logger when it returns. *)
Definition logs (n : nat) {A} (m : M A) : Prop :=
  forall w a w', m w = (Ok a, w') -> length (w_log w') = length (w_log w) + n.

(** [m] sends nothing to the logger, whether it returns or raises. *)
Definition quiet {A} (m : M A) : Prop :=
  forall w, w_log (m w).2 = w_log w.

(** ** What the design document calls things *)

(** The name by which a node refers to its module. *)
Definition ref_name (r : KeyOrModule) : string :=
  match r with
  | Key s => s
  | Mod m => name m
  end.

(** A node with its module reference replaced by that name. *)
Definition pure_node (node : Node) : Node :=
  MkNode (Key (ref_name (node_0 node))) (node_1 node) (node_2 node).

(** The instances embedded in a graph, each with its identity name, in the
    order of the nodes. *)
Definition inline_modules (dag : DAG) : list (string * module) :=
  omap (fun node => match node_0 node with
                    | Mod m => Some (name m, m)
                    | Key _ => None
                    end) dag.

Definition is_key (r : KeyOrModule) : bool :=
  match r with Key _ => true | Mod _ => false end.

(** The convention that the capabilities of a module select. *)
Definition selected (m : module) : convention :=
  match get_signal m, get_controls m, get_losses_dict m with
  | true, true, _ => Processor
  | _, _, Some _ => Loss
  | _, _, None => Default
  end.

(** The errors that the design document calls lookup errors: an unknown
    module name ([getattr] fails) and an unresolved nested key. *)
Definition is_lookup_error (e : exn) : bool :=
  match e with
  | KeyError _ | AttributeError _ => true
  | _ => false
  end.

(** ** Further modules, graphs and notions for the properties of the code *)

(** The world [w] with the log [l]. *)
Definition with_log (l : list log_record) (w : world) : world :=
  World (w_heap w) l (w_calls w).

(** [m] neither reads nor writes the log. *)
Definition log_blind {A} (m : M A) : Prop :=
  forall w l, m (with_log l w) = ((m w).1, with_log l (m w).2).

(** [m] changes no dictionary of the heap: it can only add some. *)
Definition appends {A} (m : M A) : Prop :=
  forall w, w_heap w `prefix_of` w_heap (m w).2.

(** A module whose methods leave the dictionaries of the heap as they
    are. *)
Definition heap_preserving (m : module) : Prop :=
  (forall args kwargs h, (call m args kwargs h).2 = h)
  /\ (forall f args kwargs h,
        get_losses_dict m = Some f -> (f args kwargs h).2 = h).

(** A module that raises. *)
Definition failing_call : method := fun args kwargs h =>
  (Err (ValueError "failing"), h).

Definition failing : module := Module "failing" false false None failing_call.

(** A module that returns the value it is given, a dictionary included. *)
Definition identity_call : method := fun args kwargs h =>
  match args with
  | [v] => (Ok v, h)
  | _ => (Err (TypeError "identity takes one argument"), h)
  end.

Definition identity : module := Module "identity" false false None identity_call.

(** The scenario with the instance embedded in the graph. *)
Definition inline_dag : DAG := [MkNode (Mod double) ["inputs/x"] (Some ["y"])].

(** Keyword arguments of a constructor: a module, a keras kwarg, a keras
    kwarg that is [None], and a value that is no module. *)
Definition sample_kwargs : dict kwarg :=
  [ ("double", KwModule double); ("name", KwValue (VBool true));
    ("training", KwValue VNone); ("rate", KwValue (scalar 16000)) ].

(** The node [seven] and then the node [failing], which raises. *)
Definition failing_dag : DAG :=
  [ MkNode (Key "seven") [] (Some ["s"]);
    MkNode (Key "failing") ["seven/s"] (Some ["y"]);
    MkNode (Key "double") ["seven/s"] (Some ["y"]) ].

Definition failing_layer : DAGLayer :=
  constructed (DAGLayer_init plain failing_dag
      [ ("seven", KwModule seven); ("failing", KwModule failing);
        ("double", KwModule double) ]).

(** A node whose module is not registered. *)
Definition unknown_dag : DAG :=
  [ MkNode (Key "double") ["inputs/x"] (Some ["y"]);
    MkNode (Key "missing") ["inputs/x"] (Some ["y"]);
    MkNode (Key "seven") [] (Some ["s"]) ].

Definition unknown_layer : DAGLayer :=
  constructed (DAGLayer_init plain unknown_dag
                 [("double", KwModule double); ("seven", KwModule seven)]).

(** The node [identity] applied to the input dictionary itself. *)
Definition identity_dag : DAG :=
  [MkNode (Key "identity") ["inputs"] (Some ["a"; "b"])].

Definition identity_layer : DAGLayer :=
  constructed (DAGLayer_init plain identity_dag [("identity", KwModule identity)]).

(** ** The call that a node makes *)

(** The convention by which [run_dag] calls what [getattr] has found: the
    one its capabilities select for a module or an object of the base
    classes, and the plain call for a method of the layer. *)
Definition convention_of (a : attribute) : convention :=
  match a with
  | AModule m | AInherited m => selected m
  | _ => Default
  end.

(** The record of the call of a node. *)
Definition node_call (lib : Library) (self : DAGLayer) (node : Node)
  : string * convention :=
  let key := ref_name (node_0 node) in
  (key, match getattr lib self key with
        | Ok a => convention_of a
        | Err _ => Default
        end).

(** The entry point of a module that the convention selected for it names,
    and the keyword arguments it is given. *)
Definition entry (m : module) : method :=
  match selected m, get_losses_dict m with
  | Loss, Some f => f
  | _, _ => call m
  end.

Definition entry_kwargs (m : module) (kwargs : dict value) : dict value :=
  match selected m with
  | Processor => ("return_outputs_dict", VBool true) :: kwargs
  | _ => kwargs
  end.

(** A processor that also has [get_losses_dict]: called with
    [return_outputs_dict=True] it returns a tensor, and it raises when it is
    called in another way. *)
Definition synth_call : method := fun args kwargs h =>
  match PyDict.get "return_outputs_dict" kwargs with
  | Some (VBool true) => (Ok (VTensor [] [1%Z]), h)
  | _ => (Err (ValueError "synth was not called as a processor"), h)
  end.

Definition synth : module :=
  Module "synth" true true
    (Some (fun _ _ h => (Err (ValueError "synth has no losses"), h))) synth_call.

(** A loss: [get_losses_dict] returns the tensor it is given, doubled, and
    the call of the module raises. *)
Definition loss : module :=
  Module "loss" false true (Some double_call)
    (fun _ _ h => (Err (ValueError "loss was called"), h)).

(** A processor, a loss and a network in one graph. *)
Definition mixed_dag : DAG :=
  [ MkNode (Key "synth") [] (Some ["s"]);
    MkNode (Key "loss") ["synth/s"] (Some ["l"]);
    MkNode (Key "double") ["inputs/x"] (Some ["y"]) ].

Definition mixed_layer : DAGLayer :=
  constructed
    (DAGLayer_init plain mixed_dag
       [ ("synth", KwModule synth); ("loss", KwModule loss);
         ("double", KwModule double) ]).

(** A graph whose second node names the method [call] of the layer. *)
Definition loop_dag : DAG :=
  [ MkNode (Key "double") ["inputs/x"] (Some ["y"]);
    MkNode (Key "call") ["inputs"] None ].

Definition loop_layer : DAGLayer :=
  constructed (DAGLayer_init plain loop_dag [("double", KwModule double)]).

(** ** Runs within runs *)

(** No room for a run within the run: [run_dag_at 0]. *)
Definition no_run : value -> value -> dict value -> M (dict value) :=
  fun _ _ _ => raise RecursionError.

(** An attribute that, called by a node, runs the graph again: the method
    [run_dag], and the method [call] as long as the [run_dag] it calls is
    that method. *)
Definition reenters (lib : Library) (self : DAGLayer) (a : attribute) : bool :=
  match a with
  | AMethod RunDag => true
  | AMethod Call =>
      match getattr lib self "run_dag" with
      | Ok (AMethod RunDag) => true
      | _ => false
      end
  | _ => false
  end.

(** A node whose key names such an attribute. *)
Definition reentrant (lib : Library) (self : DAGLayer) (node : Node) : bool :=
  match node_0 node with
  | Key key =>
      match getattr lib self key with
      | Ok a => reenters lib self a
      | Err _ => false
      end
  | Mod _ => false
  end.

(** [m] raises, whatever the world. *)
Definition raises {A} (m : M A) : Prop :=
  forall w, is_ok (m w).1 = false.

(** ** Properties of dictionaries *)

Module PyDictFacts.
Import PyDict.

Section Facts.
Context {V : Type}.
Implicit Types (d items : list (string * V)) (k : string) (v : V).

Lemma get_set k k' v d :
  get k' (set k v d) = if decide (k = k') then Some v else get k' d.
Proof.
  induction d as [|[k0 v0] d IH]; simpl.
  - repeat case_decide; congruence.
  - repeat (case_decide; simpl; subst); congruence.
Qed.

Lemma get_set_eq k v d : get k (set k v d) = Some v.
Proof. rewrite get_set. by case_decide. Qed.

Lemma get_set_ne k k' v d : k ≠ k' -> get k' (set k v d) = get k' d.
Proof. intros. rewrite get_set. by case_decide. Qed.

Lemma get_Some_keys k d : is_Some (get k d) <-> k ∈ keys d.
Proof.
  unfold keys. induction d as [|[k0 v0] d IH]; simpl.
  - split; [intros [? ?]; discriminate | intros H; inversion H].
  - case_decide; subst.
    + split; [intros; left | eauto].
    + rewrite IH. split; [by right | intros H'; inversion H'; by subst].
Qed.

Lemma get_None_keys k d : get k d = None <-> k ∉ keys d.
Proof.
  rewrite <- get_Some_keys. split.
  - intros E [x Hx]. congruence.
  - intros H. destruct (get k d) eqn:E; [destruct H; eauto | done].
Qed.

Lemma keys_set k v d :
  keys (set k v d) = if decide (k ∈ keys d) then keys d else keys d ++ [k].
Proof.
  unfold keys. induction d as [|[k0 v0] d IH]; [done |].
  cbn [set]. destruct (decide (k = k0)) as [->|Hne]; cbn [fmap list_fmap fst].
  - rewrite decide_True; [done | left].
  - rewrite IH. destruct (decide (k ∈ d.*1)) as [Hin|Hin].
    + rewrite decide_True; [done | by right].
    + rewrite decide_False; [done |]. intros H. inversion H; by subst.
Qed.

Lemma NoDup_keys_set k v d : NoDup (keys d) -> NoDup (keys (set k v d)).
Proof.
  intros Hd. rewrite keys_set. case_decide; [done |].
  apply NoDup_app. split_and!; [done | | apply NoDup_singleton].
  intros x Hx Hx'. apply list_elem_of_singleton in Hx'. by subst.
Qed.

Lemma NoDup_keys_update d items : NoDup (keys d) -> NoDup (keys (update d items)).
Proof.
  unfold update. revert d.
  induction items as [|[k v] items IH]; intros d Hd; simpl; [done |].
  apply IH. by apply NoDup_keys_set.
Qed.

(** The last item with a key wins, and a key that [items] does not have
    keeps the value it had. *)
Lemma get_update k d items :
  get k (update d items) = from_option Some (get k d) (get k (reverse items)).
Proof.
  unfold update. revert d.
  induction items as [|[k0 v0] items IH]; intros d; simpl; [done |].
  rewrite IH, reverse_cons. clear IH.
  induction (reverse items) as [|[k1 v1] r IHr]; simpl.
  - rewrite get_set. repeat case_decide; try done; congruence.
  - case_decide; [done | apply IHr].
Qed.

Lemma set_fresh k v d : k ∉ keys d -> set k v d = d ++ [(k, v)].
Proof.
  unfold keys. induction d as [|[k0 v0] d IH]; simpl; intros Hk; [done |].
  case_decide; subst.
  - destruct Hk. left.
  - rewrite IH; [done |]. intros ?. apply Hk. by right.
Qed.

Lemma update_NoDup d items :
  NoDup (keys (d ++ items)) -> update d items = d ++ items.
Proof.
  unfold update. revert d.
  induction items as [|[k v] items IH]; intros d Hd; simpl.
  - by rewrite app_nil_r.
  - replace (d ++ (k, v) :: items) with ((d ++ [(k, v)]) ++ items) in *
      by (by rewrite <- app_assoc).
    rewrite set_fresh.
    + by apply IH.
    + unfold keys in *. rewrite !fmap_app in Hd. simpl in Hd.
      apply NoDup_app in Hd as [Hd _]. apply NoDup_app in Hd as (_ & Hd & _).
      intros Hk. apply (Hd k Hk). left.
Qed.

(** [dict(d.items())] is [d]. *)
Lemma of_items_NoDup items : NoDup (keys items) -> of_items items = items.
Proof. intros. unfold of_items. by rewrite update_NoDup. Qed.

Lemma NoDup_keys_of_items items : NoDup (keys (of_items items)).
Proof. apply NoDup_keys_update. constructor. Qed.

Lemma get_app k d1 d2 :
  get k (d1 ++ d2) =
  match get k d1 with Some v => Some v | None => get k d2 end.
Proof.
  induction d1 as [|[k0 v0] d1 IH]; simpl; [done |]. by case_decide.
Qed.

(** With unique keys the order of the items does not matter to [get]. *)
Lemma get_reverse_NoDup k d : NoDup (keys d) -> get k (reverse d) = get k d.
Proof.
  unfold keys. induction d as [|[k0 v0] d IH]; [done |].
  intros Hd. inversion Hd as [|? ? Hk Hd']; subst.
  rewrite reverse_cons, get_app, IH by done. simpl.
  case_decide; subst.
  - apply get_None_keys in Hk. by rewrite Hk.
  - by destruct (get k d).
Qed.

(** Updating with [dict(items)] or with [items] gives the same bindings. *)
Lemma get_update_of_items k d items :
  get k (update d (of_items items)) = get k (update d items).
Proof.
  rewrite !get_update, get_reverse_NoDup by apply NoDup_keys_of_items.
  unfold of_items. rewrite get_update. simpl.
  by destruct (get k (reverse items)).
Qed.

End Facts.

End PyDictFacts.

(** ** Properties of the normaliser *)

Section Normalizer.
Import PyDict PyDictFacts.

Lemma pure_node_key node s : node_0 node = Key s -> pure_node node = node.
Proof. destruct node as [r ins outs]; simpl. intros ->. reflexivity. Qed.

(** One turn of the loop writes the node with its name at index [i] and
    records the instance, if the node has one. *)
Lemma format_node_step done node rest mods :
  format_node (done ++ node :: rest, mods) (length done, node) =
  ((done ++ [pure_node node]) ++ rest,
   update mods (inline_modules [node])).
Proof.
  assert (forall x : Node,
    <[length done := x]> (done ++ node :: rest) = (done ++ [x]) ++ rest) as Hins.
  { intros x. replace (length done) with (length done + 0) by lia.
    by rewrite insert_app_r, <- app_assoc. }
  unfold format_node, inline_modules, update.
  destruct node as [[s|m] ins outs]; simpl; by rewrite Hins.
Qed.

Lemma format_loop rest : forall done mods,
  fold_left format_node (zip (seq (length done) (length rest)) rest)
    (done ++ rest, mods) =
  (done ++ (pure_node <$> rest), update mods (inline_modules rest)).
Proof.
  induction rest as [|node rest IH]; intros done mods; [reflexivity |].
  cbn [length seq zip zip_with fold_left].
  rewrite format_node_step.
  replace (S (length done)) with (length (done ++ [pure_node node]))
    by (rewrite length_app; simpl; lia).
  rewrite IH, <- app_assoc. f_equal.
  unfold update, inline_modules. simpl.
  destruct (node_0 node); reflexivity.
Qed.

(** [format_dag] names every node and collects the inline instances. *)
Lemma format_dag_eq dag :
  format_dag dag = (pure_node <$> dag, of_items (inline_modules dag)).
Proof. apply (format_loop dag [] []). Qed.

Lemma inline_modules_pure dag :
  Forall (fun node => is_key (node_0 node) = true) dag ->
  pure_node <$> dag = dag /\ inline_modules dag = [].
Proof.
  induction 1 as [|node dag Hk _ [IH1 IH2]]; [done |].
  unfold inline_modules in *. cbn [fmap list_fmap omap list_omap].
  destruct node as [[s|m] ins outs]; [| discriminate]. simpl in *.
  fold (pure_node <$> dag). by rewrite IH1, IH2.
Qed.

Lemma inline_modules_elem k m dag :
  (k, m) ∈ inline_modules dag <->
  k = name m /\ exists node, node ∈ dag /\ node_0 node = Mod m.
Proof.
  unfold inline_modules. rewrite list_elem_of_omap. split.
  - intros (node & Hin & Hn). destruct (node_0 node) eqn:E; [done |].
    inversion Hn; subst. eauto.
  - intros (-> & node & Hin & Hn). exists node. by rewrite Hn.
Qed.

Lemma get_elem {V} k (v : V) (d : list (string * V)) :
  get k d = Some v -> (k, v) ∈ d.
Proof.
  induction d as [|[k0 v0] d IH]; simpl; [done |].
  case_decide; subst.
  - intros [= ->]. left.
  - intros. right. auto.
Qed.

End Normalizer.

(** ** The modules supplied by keyword *)

Section External.
Import PyDict PyDictFacts.

Lemma keys_remove_subseteq {V} k k' (d : list (string * V)) :
  k' ∈ keys (remove k d) -> k' ∈ keys d.
Proof.
  unfold keys. induction d as [|[k0 v0] d IH]; simpl; [done |].
  case_decide; subst; intros Hk.
  - by right.
  - inversion Hk; subst; [left | right; auto].
Qed.

Lemma NoDup_keys_remove {V} k (d : list (string * V)) :
  NoDup (keys d) -> NoDup (keys (remove k d)).
Proof.
  unfold keys. induction d as [|[k0 v0] d IH]; simpl; [done |].
  intros Hd. inversion Hd; subst. case_decide; [done |].
  simpl. constructor; [| auto]. intros Hk. by apply keys_remove_subseteq in Hk.
Qed.

Lemma get_remove {V} k k' (d : list (string * V)) :
  NoDup (keys d) ->
  get k' (remove k d) = if decide (k = k') then None else get k' d.
Proof.
  unfold keys. induction d as [|[k0 v0] d IH]; simpl; intros Hd.
  - by case_decide.
  - inversion Hd as [|? ? Hk0 Hd']; subst.
    destruct (decide (k = k0)) as [->|Hne]; simpl.
    + destruct (decide (k0 = k')) as [->|Hne'].
      * by apply get_None_keys.
      * by rewrite decide_False by done.
    + rewrite IH by done.
      destruct (decide (k' = k0)) as [->|Hne']; [| done].
      by rewrite decide_False.
Qed.

Lemma keys_filter_subseteq {V} (P : V -> bool) k (d : list (string * V)) :
  k ∈ keys (filter (fun e => P e.2) d) -> k ∈ keys d.
Proof.
  unfold keys. intros (e & -> & He)%list_elem_of_fmap.
  apply list_elem_of_filter in He as [_ He].
  apply list_elem_of_fmap. eauto.
Qed.

Lemma NoDup_keys_filter {V} (P : V -> bool) (d : list (string * V)) :
  NoDup (keys d) -> NoDup (keys (filter (fun e => P e.2) d)).
Proof.
  induction d as [|[k0 v0] d IH]; [done |].
  intros Hd. inversion Hd as [|? ? Hk0 Hd']; subst.
  rewrite filter_cons. case_decide; [| by apply IH].
  unfold keys in *. simpl. constructor; [| by apply IH].
  intros Hk. by apply keys_filter_subseteq in Hk.
Qed.

Lemma get_filter {V} (P : V -> bool) k (d : list (string * V)) :
  NoDup (keys d) ->
  get k (filter (fun e => P e.2) d) =
  match get k d with
  | Some v => if P v then Some v else None
  | None => None
  end.
Proof.
  induction d as [|[k0 v0] d IH]; [done |].
  intros Hd. inversion Hd as [|? ? Hk0 Hd']; subst.
  rewrite filter_cons. cbn [snd get].
  destruct (decide (P v0)) as [HP|HP]; cbn [get].
  - destruct (decide (k = k0)) as [->|Hne]; [| by apply IH].
    by destruct (P v0).
  - rewrite IH by done.
    destruct (decide (k = k0)) as [->|Hne]; [| done].
    apply get_None_keys in Hk0. rewrite Hk0. by destruct (P v0).
Qed.

Lemma get_as_modules k (d : list (string * kwarg)) :
  NoDup (keys d) ->
  get k (as_modules d) =
  match get k d with
  | Some (KwModule m) => Some m
  | _ => None
  end.
Proof.
  induction d as [|[k0 v0] d IH]; [done |].
  intros Hd. inversion Hd as [|? ? Hk0 Hd']; subst.
  specialize (IH Hd'). apply get_None_keys in Hk0.
  destruct v0 as [m|v].
  - change (as_modules ((k0, KwModule m) :: d)) with ((k0, m) :: as_modules d).
    cbn [get]. by case_decide.
  - change (as_modules ((k0, KwValue v) :: d)) with (as_modules d).
    cbn [get]. rewrite IH. case_decide; [subst; by rewrite Hk0 | done].
Qed.

(** What [split_keras_kwargs] leaves in [kwargs]: everything but the keras
    kwargs that are not [None]. *)
Lemma split_keras_kwargs_rest (kwargs : list (string * kwarg)) :
  NoDup (keys kwargs) ->
  NoDup (keys (split_keras_kwargs kwargs).2)
  /\ forall k,
       get k (split_keras_kwargs kwargs).2 =
       if bool_decide (k ∈ ["training"; "mask"; "name"])
          && is_not_None (get k kwargs)
       then None else get k kwargs.
Proof.
  intros Hd. unfold split_keras_kwargs.
  match goal with |- context [fold_left ?f _ _] => set (step := f) end.
  cbn [fold_left].
  assert (forall st key, NoDup (keys st.2) ->
    NoDup (keys (step st key).2)
    /\ forall k, get k (step st key).2 =
         if decide (k = key) then
           (if is_not_None (get key st.2) then None else get k st.2)
         else get k st.2) as Hstep.
  { intros [kk kw] key Hkw. unfold step. cbn [snd] in *.
    destruct (is_not_None (get key kw)) eqn:En.
    - destruct (get key kw) as [v|] eqn:Ek; [| done]. cbn [snd].
      split; [by apply NoDup_keys_remove |]. intros k.
      rewrite get_remove by done.
      destruct (decide (key = k)) as [->|]; [by rewrite decide_True |].
      by rewrite decide_False.
    - split; [done |]. intros k. case_decide; by subst. }
  destruct (Hstep ([], kwargs) "training" Hd) as [N1 G1].
  destruct (Hstep _ "mask" N1) as [N2 G2].
  destruct (Hstep _ "name" N2) as [N3 G3].
  split; [done |]. intros k.
  repeat (rewrite G3 || rewrite G2 || rewrite G1). cbn [snd].
  destruct (decide (k = "training")) as [->|H1];
    [| destruct (decide (k = "mask")) as [->|H2];
       [| destruct (decide (k = "name")) as [->|H3]]].
  - cbn. by destruct (is_not_None _).
  - cbn. by destruct (is_not_None _).
  - cbn. by destruct (is_not_None _).
  - rewrite bool_decide_eq_false_2; [done |].
    rewrite !elem_of_cons, elem_of_nil. tauto.
Qed.

(** The external modules are the keyword arguments that are modules, those
    passed as [training], [mask] or [name] apart. *)
Lemma external_modules_get (kwargs : list (string * kwarg)) k :
  NoDup (keys kwargs) ->
  get k (external_modules kwargs) =
  match get k kwargs with
  | Some (KwModule m) =>
      if bool_decide (k ∈ ["training"; "mask"; "name"]) then None else Some m
  | _ => None
  end.
Proof.
  intros Hd. destruct (split_keras_kwargs_rest kwargs Hd) as [Hn Hg].
  unfold external_modules, filter_by_value.
  rewrite of_items_NoDup by (by apply NoDup_keys_filter).
  rewrite get_as_modules by (by apply NoDup_keys_filter).
  rewrite get_filter, Hg by done.
  destruct (get k kwargs) as [[m|v]|]; simpl.
  - by destruct (bool_decide _).
  - by destruct (bool_decide _ && _).
  - by rewrite andb_false_r.
Qed.

End External.

(** ** Properties of the constructor *)

Section Constructor.
Import PyDict PyDictFacts.

Variable lib : Library.

(** The names that [setattr] refuses. *)
#[local] Abbreviation refused :=
  (fun k : string => bool_decide (k = "modules") || read_only lib k).

Lemma setattr_refused self k m :
  setattr lib self k m =
  if refused k then Err (AttributeError k)
  else Ok (MkDAGLayer (dag self) (module_names self) (set k m (attrs self))).
Proof.
  unfold setattr. case_decide as Hk.
  - by rewrite bool_decide_eq_true_2.
  - rewrite bool_decide_eq_false_2 by done. simpl. by destruct (read_only lib k).
Qed.

Lemma setattr_loop_err (l : list (string * module)) e :
  fold_left (fun self e => self ← self; setattr lib self e.1 e.2) l (Err e)
  = Err e.
Proof. induction l as [|[k m] l IH]; [done | apply IH]. Qed.

Lemma setattr_loop (l : list (string * module)) : forall self,
  fold_left (fun self e => self ← self; setattr lib self e.1 e.2) l (Ok self) =
  match find (fun k => refused k) (keys l) with
  | Some k => Err (AttributeError k)
  | None =>
      Ok (MkDAGLayer (dag self) (module_names self) (update (attrs self) l))
  end.
Proof.
  induction l as [|[k m] l IH]; intros [d ns a]; [reflexivity |].
  cbn [fold_left keys fmap list_fmap fst snd find].
  change (Ok (MkDAGLayer d ns a) ≫= _)
    with (setattr lib (MkDAGLayer d ns a) k m).
  rewrite setattr_refused. cbn [dag module_names attrs].
  destruct (decide (refused k)) as [Hk|Hk].
  - rewrite (Is_true_true_1 _ Hk). apply setattr_loop_err.
  - rewrite (Is_true_false_1 _ Hk). apply IH.
Qed.

Lemma keys_as_modules k (d : list (string * kwarg)) :
  k ∈ keys (as_modules d) -> k ∈ keys d.
Proof.
  unfold keys, as_modules. induction d as [|[k0 [m|v]] d IH]; simpl; [done | |].
  - intros H. inversion H; subst; [left | right; auto].
  - intros H. right. auto.
Qed.

Lemma NoDup_keys_as_modules (d : list (string * kwarg)) :
  NoDup (keys d) -> NoDup (keys (as_modules d)).
Proof.
  induction d as [|[k0 [m|v]] d IH]; intros Hd.
  - constructor.
  - inversion Hd; subst. unfold keys, as_modules in *. simpl. constructor; [| auto].
    intros Hk. by apply keys_as_modules in Hk.
  - inversion Hd; subst. unfold keys, as_modules in *. simpl. auto.
Qed.

Lemma NoDup_external_modules kwarg_modules :
  NoDup (keys (external_modules kwarg_modules)).
Proof. apply NoDup_keys_as_modules, NoDup_keys_of_items. Qed.

(** What the constructor returns: it raises what the constructor of the
    base class raises, or an [AttributeError] for the first name of the
    registry that cannot be assigned to, and otherwise returns the layer
    with the registry as its modules. *)
Lemma DAGLayer_init_eq graph kwarg_modules :
  let modules :=
    update (external_modules kwarg_modules) (format_dag graph).2 in
  DAGLayer_init lib graph kwarg_modules =
  match layer_init lib (split_keras_kwargs kwarg_modules).1 with
  | Some e => Err e
  | None =>
      match find (fun k => refused k) (keys modules) with
      | Some k => Err (AttributeError k)
      | None => Ok (MkDAGLayer (format_dag graph).1 (keys modules) modules)
      end
  end.
Proof.
  unfold DAGLayer_init, external_modules.
  destruct (split_keras_kwargs kwarg_modules) as [keras_kwargs kwargs].
  cbn [fst snd]. destruct (layer_init lib keras_kwargs); [done |].
  destruct (format_dag graph) as [dag' dag_modules]. cbn [fst snd].
  rewrite setattr_loop. cbn [dag module_names attrs].
  destruct (find _ _); [done |]. do 2 f_equal. simpl.
  apply of_items_NoDup, NoDup_keys_update.
  apply NoDup_keys_as_modules, NoDup_keys_of_items.
Qed.

Lemma find_refused_None (l : list string) k :
  find (fun k => refused k) l = None -> k ∈ l ->
  k <> "modules" /\ read_only lib k = false.
Proof.
  induction l as [|k0 l IH]; [by intros _ ?%elem_of_nil |].
  cbn [find]. destruct (decide (refused k0)) as [H0|H0].
  - by rewrite (Is_true_true_1 _ H0).
  - rewrite (Is_true_false_1 _ H0). intros Hf [->|Hk]%elem_of_cons; [| by apply IH].
    apply Is_true_false_1, orb_false_iff in H0 as [H1 H2].
    split; [by apply bool_decide_eq_false_1 in H1 | done].
Qed.

(** The modules of a layer resolve under their names, but for the name
    [modules]. *)
Lemma getattr_module self k m :
  k <> "modules" -> get k (attrs self) = Some m ->
  getattr lib self k = Ok (AModule m).
Proof.
  intros Hk Hm. unfold getattr, lookup_attribute.
  rewrite decide_False by done. by rewrite Hm.
Qed.


End Constructor.

(** ** What normalisation returns *)

Section NormalizerSpec.
Import PyDict PyDictFacts.

(** C3, as amended: the pure graph has the nodes of the input in the same
    number and order, every node refers to its module by a string, the name
    of the instance where there was one and the unchanged node where there
    was a name; the extracted mapping binds each identity name of an inline
    instance to the last instance embedded under that name, has nothing
    else, and is exactly the list of inline instances when their names are
    distinct; a graph of names only is returned as it is, with an empty
    mapping. *)
Theorem format_dag_normalizes (dag : DAG) :
  let pure_graph := (format_dag dag).1 in
  let extracted := (format_dag dag).2 in
  length pure_graph = length dag
  /\ (forall i node, dag !! i = Some node ->
        exists node', pure_graph !! i = Some node'
          /\ node_0 node' = Key (ref_name (node_0 node))
          /\ node_1 node' = node_1 node
          /\ node_2 node' = node_2 node
          /\ (is_key (node_0 node) = true -> node' = node))
  /\ (forall k, get k extracted = get k (reverse (inline_modules dag)))
  /\ (forall k m, get k extracted = Some m ->
        k = name m /\ exists node, node ∈ dag /\ node_0 node = Mod m)
  /\ (forall node m, node ∈ dag -> node_0 node = Mod m ->
        is_Some (get (name m) extracted))
  /\ (NoDup (inline_modules dag).*1 -> extracted = inline_modules dag)
  /\ (Forall (fun node => is_key (node_0 node) = true) dag ->
        format_dag dag = (dag, [])).
Proof.
  intros pure_graph extracted. subst pure_graph extracted.
  rewrite format_dag_eq. cbn [fst snd].
  assert (forall k, get k (of_items (inline_modules dag)) =
                    get k (reverse (inline_modules dag))) as Hget.
  { intros k. unfold of_items. rewrite get_update. simpl.
    by destruct (get k (reverse (inline_modules dag))). }
  split_and!.
  - by rewrite length_fmap.
  - intros i node Hi. exists (pure_node node).
    rewrite list_lookup_fmap, Hi. split_and!; try done.
    destruct (node_0 node) eqn:E; [| done]. intros _. by eapply pure_node_key.
  - done.
  - intros k m. rewrite Hget. intros H%get_elem.
    rewrite elem_of_reverse in H. by apply inline_modules_elem in H.
  - intros node m Hin Hm. apply get_Some_keys.
    assert ((name m, m) ∈ inline_modules dag) as H
      by (apply inline_modules_elem; eauto).
    apply get_Some_keys. destruct (get (name m) (of_items (inline_modules dag)))
        eqn:E; [eauto |].
    rewrite Hget in E. apply get_None_keys in E. destruct E.
    unfold keys. rewrite fmap_reverse, elem_of_reverse.
    apply list_elem_of_fmap. by exists (name m, m).
  - apply of_items_NoDup.
  - intros [-> ->]%inline_modules_pure. reflexivity.
Qed.

(** C3, as stated, fails: two instances embedded under one identity name
    leave only the second in the extracted mapping. *)
Lemma format_dag_twins :
  node_0 <$> twins_dag = [Mod enc_a; Mod enc_b]
  /\ (format_dag twins_dag).2 = [("enc", enc_b)]
  /\ get_signal <$> [enc_a; enc_b] = [false; true].
Proof. split_and!; reflexivity. Qed.

End NormalizerSpec.

(** ** Reasoning about computations *)

Section Computations.
Context {S : Type}.

Lemma bind_unfold {A B} (m : ST S A) (f : A -> ST S B) s :
  (m ≫= f) s =
  match m s with
  | (Ok a, s') => f a s'
  | (Err e, s') => (Err e, s')
  end.
Proof. reflexivity. Qed.

Lemma bind_ok_inv {A B} (m : ST S A) (f : A -> ST S B) s b s' :
  (m ≫= f) s = (Ok b, s') ->
  exists a s1, m s = (Ok a, s1) /\ f a s1 = (Ok b, s').
Proof.
  rewrite bind_unfold. destruct (m s) as [[a|e] s1]; [eauto | discriminate].
Qed.

Lemma bind_ok_l {A B} (m : ST S A) (f : A -> ST S B) s a s1 :
  m s = (Ok a, s1) -> (m ≫= f) s = f a s1.
Proof. rewrite bind_unfold. by intros ->. Qed.

Lemma bind_err_l {A B} (m : ST S A) (f : A -> ST S B) s e s1 :
  m s = (Err e, s1) -> (m ≫= f) s = (Err e, s1).
Proof. rewrite bind_unfold. by intros ->. Qed.

(** A loop over [xs ++ ys] is the loop over [xs] followed, unless it
    raised, by the loop over [ys]. *)
Lemma for_loop_app {A B} (body : B -> A -> ST S B) xs ys : forall b s,
  for_loop body (xs ++ ys) b s =
  match for_loop body xs b s with
  | (Ok b', s') => for_loop body ys b' s'
  | (Err e, s') => (Err e, s')
  end.
Proof.
  induction xs as [|x xs IH]; intros b s; [reflexivity |].
  cbn [app for_loop]. rewrite !bind_unfold.
  destruct (body b x s) as [[b'|e] s1]; [apply IH | reflexivity].
Qed.

End Computations.

Ltac inv_bind H :=
  let a := fresh "a" in
  let w := fresh "w" in
  let E := fresh "E" in
  apply bind_ok_inv in H; destruct H as (a & w & E & H).

(** ** Properties of the executor *)

Section ExecutorFacts.
Import PyDict PyDictFacts.
Variable lib : Library.
Variable default_label : nat -> string.
Variable gin_verbose : option bool.

#[local] Abbreviation run_node_with := (run_node_with lib default_label gin_verbose).
#[local] Abbreviation run_dag_at := (run_dag_at lib default_label gin_verbose).
#[local] Abbreviation run_node := (run_node lib default_label gin_verbose).
#[local] Abbreviation run_dag := (run_dag lib default_label gin_verbose).
#[local] Abbreviation call_attribute := (call_attribute lib gin_verbose).

(** Resolving the input keys reads the world and changes nothing. *)
Lemma lookups_pure outputs keys w :
  for_each (fun key => h ← get_heap; lift (nested_lookup key outputs h)) keys w =
  (for_each_result (fun key => nested_lookup key outputs (w_heap w)) keys, w).
Proof.
  induction keys as [|key keys IH]; [reflexivity |].
  cbn [for_each for_each_result]. rewrite bind_unfold.
  change ((h ← get_heap; lift (nested_lookup key outputs h)) w)
    with (nested_lookup key outputs (w_heap w), w).
  destruct (nested_lookup key outputs (w_heap w)) as [v|e]; [| reflexivity].
  rewrite bind_unfold, IH.
  by destruct (for_each_result _ keys).
Qed.

Lemma nested_lookup_err key outputs h e :
  nested_lookup key outputs h = Err e -> e = KeyError key.
Proof.
  unfold nested_lookup. destruct (split_on "/" key) as [|k ks]; [congruence |].
  destruct (_ ≫= _); congruence.
Qed.

(** A key that does not resolve makes the whole list of lookups fail, with
    the first such key. *)
Lemma lookups_missing outputs h keys k e :
  k ∈ keys -> nested_lookup k outputs h = Err e ->
  exists k', k' ∈ keys /\
    for_each_result (fun key => nested_lookup key outputs h) keys
    = Err (KeyError k').
Proof.
  induction keys as [|key keys IH]; intros Hin Hk; [inversion Hin |].
  cbn [for_each_result].
  destruct (nested_lookup key outputs h) as [v|e'] eqn:E.
  - inversion Hin; subst; [congruence |].
    destruct IH as (k' & Hk' & ->); [done.. |]. exists k'. split; [by right | done].
  - apply nested_lookup_err in E as ->. exists key. split; [left | done].
Qed.

Lemma to_dict_ok x keys w v w' :
  to_dict default_label x keys w = (Ok v, w') -> exists l, v = VDict l.
Proof.
  unfold to_dict. case_decide; [| discriminate].
  intros Hr. inv_bind Hr. inversion Hr. eauto.
Qed.

(** [if verbose:] for a [verbose] that is a bool. *)
Lemma when_bool (b : bool) (m : M unit) w :
  when lib (VBool b) m w = (if b then m else mret tt) w.
Proof. by destruct b. Qed.

(** The run and its loop, unfolded once. *)
Lemma run_dag_at_S depth self inputs verbose kwargs :
  run_dag_at (S depth) self inputs verbose kwargs =
  (outputs ← init_outputs_of lib inputs;
   nodes ← lift (self_dag lib self);
   st ← for_loop (run_node_with (run_dag_at depth self) self verbose kwargs)
          nodes (outputs, None);
   alias_out st).
Proof. reflexivity. Qed.

Lemma run_dag_eq self inputs verbose kwargs :
  run_dag self inputs verbose kwargs =
  (outputs ← init_outputs inputs;
   nodes ← lift (self_dag lib self);
   st ← for_loop (run_node self (verbose_or_default gin_verbose verbose) kwargs)
          nodes (outputs, None);
   alias_out st).
Proof. reflexivity. Qed.

(** A node that completes has stored a dictionary under its name, the same
    one that [module_outputs] is bound to. *)
Lemma run_node_with_ok run self verbose kwargs outputs mo node st w w' :
  run_node_with run self verbose kwargs (outputs, mo) node w = (Ok st, w') ->
  exists key l,
    node_0 node = Key key /\
    st = (set key (VDict l) outputs, Some (VDict l)).
Proof.
  unfold run_node_with.
  destruct (node_0 node) as [key|m]; [| discriminate].
  intros H. exists key.
  do 3 inv_bind H. inv_bind H. inv_bind H. inv_bind H.
  inversion H; subst; clear H.
  assert (exists l, a3 = VDict l) as [l ->]; [| eauto].
  destruct (is_dict a2) eqn:Hd; simpl in E3.
  - inversion E3; subst. destruct a3; try discriminate. eauto.
  - by apply to_dict_ok in E3.
Qed.

Lemma run_node_ok self verbose kwargs outputs mo node st w w' :
  run_node self verbose kwargs (outputs, mo) node w = (Ok st, w') ->
  exists key l,
    node_0 node = Key key /\
    st = (set key (VDict l) outputs, Some (VDict l)).
Proof. apply run_node_with_ok. Qed.

End ExecutorFacts.
(** ** Runs within runs never return *)

Section Congruence.
Context {S : Type}.

Lemma bind_ext {A B} (m : ST S A) (f g : A -> ST S B) s :
  (forall a s', f a s' = g a s') -> (m ≫= f) s = (m ≫= g) s.
Proof. intros H. rewrite !bind_unfold. destruct (m s) as [[a|e] s']; auto. Qed.

(** A loop that returns has run its body, and the body has returned, on
    every item. *)
Lemma for_loop_ok_elem {A B} (body : B -> A -> ST S B) xs x : forall b s b' s',
  for_loop body xs b s = (Ok b', s') -> x ∈ xs ->
  exists b1 s1 b2 s2, body b1 x s1 = (Ok b2, s2).
Proof.
  induction xs as [|x0 xs IH]; intros b s b' s' H Hx; [by apply elem_of_nil in Hx |].
  cbn [for_loop] in H. apply bind_ok_inv in H as (b1 & s1 & Hb & H).
  apply elem_of_cons in Hx as [->|Hx]; [eauto 6 | eauto].
Qed.

(** Two bodies that agree on the items of a list give the same loop. *)
Lemma for_loop_ext {A B} (body body' : B -> A -> ST S B) xs : forall b s,
  (forall x b s, x ∈ xs -> body b x s = body' b x s) ->
  for_loop body xs b s = for_loop body' xs b s.
Proof.
  induction xs as [|x xs IH]; intros b s H; [reflexivity |].
  cbn [for_loop]. rewrite !bind_unfold, H by left.
  destruct (body' b x s) as [[b1|e] s1]; [| reflexivity].
  apply IH. intros. apply H. by right.
Qed.

End Congruence.

Section Reentry.
Import PyDict PyDictFacts.
Variable lib : Library.
Variable default_label : nat -> string.
Variable gin_verbose : option bool.

#[local] Abbreviation run_node_with := (run_node_with lib default_label gin_verbose).
#[local] Abbreviation run_dag_at := (run_dag_at lib default_label gin_verbose).
#[local] Abbreviation run_node := (run_node lib default_label gin_verbose).
#[local] Abbreviation run_dag := (run_dag lib default_label gin_verbose).
#[local] Abbreviation call_attribute := (call_attribute lib gin_verbose).
#[local] Abbreviation call_method := (call_method lib gin_verbose).
#[local] Abbreviation run_dag_method := (run_dag_method gin_verbose).

Lemma raises_err {A} (m : M A) w :
  raises m -> exists e w', m w = (Err e, w').
Proof.
  intros H. specialize (H w). destruct (m w) as [[a|e] w']; [done | eauto].
Qed.

Lemma run_dag_method_raises run key args kwargs :
  (forall inputs verbose kwargs, raises (run inputs verbose kwargs)) ->
  raises (run_dag_method run key args kwargs).
Proof.
  intros Hrun w. unfold run_dag_method. rewrite bind_unfold. unfold lift at 1.
  destruct (bind_run_dag args kwargs) as [[[inputs verbose] kwargs']|e]; [| done].
  rewrite bind_unfold. unfold record_call at 1. rewrite bind_unfold.
  match goal with |- context [run ?i ?v ?k ?w0] =>
    destruct (raises_err (run i v k) w0 (Hrun i v k)) as (e & w' & ->) end.
  done.
Qed.

(** An attribute that runs the graph again raises if that run does. *)
Lemma call_reentrant_raises run self key a inputs kwargs :
  reenters lib self a = true ->
  (forall inputs verbose kwargs, raises (run inputs verbose kwargs)) ->
  raises (call_attribute run self key a inputs kwargs).
Proof.
  intros Ha Hrun. destruct a as [m|d|names|items|[]|o]; try discriminate.
  - cbn [reenters] in Ha. intros w. unfold call_attribute, call_method.
    rewrite bind_unfold. unfold lift at 1.
    destruct (bind_inputs inputs kwargs) as [[i k]|e]; [| done].
    rewrite bind_unfold. unfold lift at 1.
    destruct (getattr lib self "run_dag") as [[m|d|names|items|[]|o]|e];
      try discriminate.
    by apply run_dag_method_raises.
  - by apply run_dag_method_raises.
Qed.

(** For an attribute that does not run the graph again, the call is the
    same whatever such a run would do. *)
Lemma call_attribute_indep run run' self key a inputs kwargs w :
  reenters lib self a = false ->
  call_attribute run self key a inputs kwargs w
  = call_attribute run' self key a inputs kwargs w.
Proof.
  intros Ha. destruct a as [m|d|names|items|[]|o]; try done.
  cbn [reenters] in Ha. unfold call_attribute, call_method.
  rewrite !(bind_unfold (lift (bind_inputs inputs kwargs))). unfold lift at 1 3.
  destruct (bind_inputs inputs kwargs) as [[i k]|e]; [| done].
  rewrite !(bind_unfold (lift (getattr lib self "run_dag"))). unfold lift at 1 2.
  by destruct (getattr lib self "run_dag") as [[m|d|names|items|[]|o]|e].
Qed.

Lemma run_node_indep run run' self verbose kwargs st node w :
  reentrant lib self node = false ->
  run_node_with run self verbose kwargs st node w
  = run_node_with run' self verbose kwargs st node w.
Proof.
  intros Hn. unfold run_node_with. destruct st as [outputs mo].
  unfold reentrant in Hn. destruct (node_0 node) as [key|m]; [| done].
  rewrite !(bind_unfold (lift (getattr lib self key))). unfold lift at 1 4.
  destruct (getattr lib self key) as [a|e]; [| done].
  apply bind_ext. intros ins w1. apply bind_ext. intros [] w2.
  rewrite !(bind_unfold (call_attribute _ _ _ _ _ _)).
  by rewrite (call_attribute_indep run run').
Qed.

Lemma run_node_reentrant_raises run self verbose kwargs st node :
  reentrant lib self node = true ->
  (forall inputs verbose kwargs, raises (run inputs verbose kwargs)) ->
  raises (run_node_with run self verbose kwargs st node).
Proof.
  intros Hn Hrun w. unfold run_node_with. destruct st as [outputs mo].
  unfold reentrant in Hn. destruct (node_0 node) as [key|m]; [| done].
  rewrite bind_unfold. unfold lift at 1.
  destruct (getattr lib self key) as [a|e]; [| done].
  rewrite bind_unfold.
  destruct (for_each _ _ w) as [[ins|e] w1]; [| done].
  rewrite bind_unfold.
  destruct (when _ _ _ w1) as [[[]|e] w2]; [| done].
  rewrite bind_unfold.
  destruct (raises_err _ w2 (call_reentrant_raises run self key a ins kwargs Hn Hrun))
    as (e & w3 & ->).
  done.
Qed.

(** A run of a graph with a node that runs the graph again never returns:
    it ends when an exception is raised or no room is left. *)
Lemma never_returns self d node :
  self_dag lib self = Ok d -> node ∈ d -> reentrant lib self node = true ->
  forall depth inputs verbose kwargs,
    raises (run_dag_at depth self inputs verbose kwargs).
Proof.
  intros Hd Hnode Hre. induction depth as [|depth IH]; intros inputs verbose kwargs w;
    [done |].
  rewrite run_dag_at_S, bind_unfold.
  destruct (init_outputs_of lib inputs w) as [[outputs|e] w1]; [| done].
  rewrite bind_unfold, Hd. unfold lift at 1. rewrite bind_unfold.
  destruct (for_loop _ d _ w1) as [[st|e] w2] eqn:Hloop; [| done].
  destruct (for_loop_ok_elem _ _ _ _ _ _ _ Hloop Hnode) as (b1 & s1 & b2 & s2 & Hb).
  pose proof (run_node_reentrant_raises _ self verbose kwargs b1 node Hre IH s1) as Hr.
  by rewrite Hb in Hr.
Qed.

(** What a node does when it returns does not depend on the runs it could
    start, as long as those raise. *)
Lemma returned_node_indep run run' self verbose kwargs st node w st' w' :
  (reentrant lib self node = true ->
   forall inputs verbose kwargs, raises (run inputs verbose kwargs)) ->
  run_node_with run self verbose kwargs st node w = (Ok st', w') ->
  run_node_with run' self verbose kwargs st node w = (Ok st', w').
Proof.
  intros Hrun H. destruct (reentrant lib self node) eqn:Hn.
  - pose proof (run_node_reentrant_raises run self verbose kwargs st node Hn
                  (Hrun eq_refl) w) as Hr.
    by rewrite H in Hr.
  - by rewrite <- (run_node_indep run run').
Qed.

Lemma returned_loop_indep run run' self verbose kwargs nodes :
  (forall node, node ∈ nodes -> reentrant lib self node = true ->
   forall inputs verbose kwargs, raises (run inputs verbose kwargs)) ->
  forall st w st' w',
    for_loop (run_node_with run self verbose kwargs) nodes st w = (Ok st', w') ->
    for_loop (run_node_with run' self verbose kwargs) nodes st w = (Ok st', w').
Proof.
  induction nodes as [|node nodes IH]; intros Hrun st w st' w' H; [done |].
  cbn [for_loop] in *. apply bind_ok_inv in H as (st1 & w1 & Hnode & H).
  erewrite bind_ok_l.
  - apply IH; [| done]. intros n Hin. apply Hrun. by right.
  - eapply returned_node_indep; [| done]. apply Hrun. left.
Qed.

(** The nodes of the layer's own graph, run at any depth: what they return
    they return at every depth. *)
Lemma returned_loop_depth self d depth depth' verbose kwargs nodes st w st' w' :
  self_dag lib self = Ok d -> nodes ⊆ d ->
  for_loop (run_node_with (run_dag_at depth self) self verbose kwargs) nodes st w
    = (Ok st', w') ->
  for_loop (run_node_with (run_dag_at depth' self) self verbose kwargs) nodes st w
    = (Ok st', w').
Proof.
  intros Hd Hsub. apply returned_loop_indep.
  intros node Hin Hre. by apply (never_returns self d node); [| apply Hsub |].
Qed.

(** A run that returns returns the same at every depth that leaves room
    for it. *)
Lemma returned_run_depth self depth depth' inputs verbose kwargs w outputs w' :
  run_dag_at (S depth) self inputs verbose kwargs w = (Ok outputs, w') ->
  run_dag_at (S depth') self inputs verbose kwargs w = (Ok outputs, w').
Proof.
  rewrite !run_dag_at_S. intros H.
  apply bind_ok_inv in H as (o & w1 & Hinit & H).
  rewrite (bind_ok_l _ _ _ _ _ Hinit).
  rewrite bind_unfold in H |- *. unfold lift at 1 in H. unfold lift at 1.
  destruct (self_dag lib self) as [d|e] eqn:Hd; [| done].
  apply bind_ok_inv in H as (st & w2 & Hloop & H).
  by rewrite (bind_ok_l _ _ _ _ _
                (returned_loop_depth self d depth depth' _ _ d _ _ _ _ Hd
                   (reflexivity _) Hloop)).
Qed.

End Reentry.
(** ** The scenario of the design document, run *)

Section Scenario.
Variable lib : Library.
Variable default_label : nat -> string.
Variable gin_verbose : option bool.

(** C1: on the graph [[("double", ["inputs/x"], ["y"])]], with the module
    [double] registered under that name and the input [{"x": 3}], [run_dag]
    returns, whatever the verbosity and the extra keyword arguments, the
    namespace [{"inputs": {"x": 3}, "x": 3, "double": {"y": 6},
    "out": {"y": 6}}]; [inputs] is the caller's dictionary and [double] and
    [out] are one new dictionary. *)
Theorem scenario_run (verbose : option bool) (kwargs : dict value) :
  exists outputs w',
    run_dag lib default_label gin_verbose scenario_layer 0 verbose kwargs
      scenario_world = (Ok outputs, w')
    /\ snapshot_dict 2 (w_heap w') outputs =
       Some [ ("inputs", TDict [("x", TTensor [] [3%Z])]);
              ("x", TTensor [] [3%Z]);
              ("double", TDict [("y", TTensor [] [6%Z])]);
              ("out", TDict [("y", TTensor [] [6%Z])]) ]
    /\ outputs = [ ("inputs", VDict 0); ("x", scalar 3);
                   ("double", VDict 1); ("out", VDict 1) ]
    /\ w_heap w' = [ [("x", scalar 3)]; [("y", scalar 6)] ]
    /\ w_calls w' = [("double", Default)].
Proof.
  destruct verbose as [[]|]; destruct gin_verbose as [[]|];
    eexists _, _; (split; [reflexivity |]); split_and!; reflexivity.
Qed.

End Scenario.
(** ** What reaches the logger *)

Section Logging.
Variable lib : Library.
Variable default_label : nat -> string.
Variable gin_verbose : option bool.

#[local] Abbreviation run_node_with := (run_node_with lib default_label gin_verbose).
#[local] Abbreviation run_dag_at := (run_dag_at lib default_label gin_verbose).
#[local] Abbreviation run_dag := (run_dag lib default_label gin_verbose).
#[local] Abbreviation call_attribute := (call_attribute lib gin_verbose).

Lemma quiet_bind {A B} (m : M A) (f : A -> M B) :
  quiet m -> (forall a, quiet (f a)) -> quiet (m ≫= f).
Proof.
  intros Hm Hf w. rewrite bind_unfold. specialize (Hm w).
  destruct (m w) as [[a|e] w1]; simpl in Hm; [| done].
  by rewrite Hf.
Qed.

Lemma quiet_logs {A} (m : M A) : quiet m -> logs 0 m.
Proof.
  intros Hm w a w' E. specialize (Hm w). rewrite E in Hm. simpl in Hm.
  rewrite Hm. lia.
Qed.

Lemma logs_bind {A B} n k (m : M A) (f : A -> M B) :
  logs n m -> (forall a, logs k (f a)) -> logs (n + k) (m ≫= f).
Proof.
  intros Hm Hf w b w' E. apply bind_ok_inv in E as (a & w1 & E1 & E2).
  rewrite (Hf _ _ _ _ E2), (Hm _ _ _ E1). lia.
Qed.

Lemma quiet_lift {A} (r : result A) : quiet (lift r).
Proof. done. Qed.

Lemma quiet_ret {A} (a : A) : quiet (mret a).
Proof. done. Qed.

Lemma quiet_raise {A} e : quiet (raise e : M A).
Proof. done. Qed.

Lemma logs_raise {A} n e : logs n (raise e : M A).
Proof. intros w a w' E. discriminate. Qed.

Lemma quiet_invoke c key f args kwargs : quiet (invoke c key f args kwargs).
Proof. intros w. unfold invoke. by destruct (f _ _ _). Qed.

Lemma quiet_dispatch key m inputs kwargs : quiet (dispatch key m inputs kwargs).
Proof.
  unfold dispatch.
  destruct (is_processor m); [| destruct (is_loss m)].
  - destruct (PyDict.get _ _); [apply quiet_raise | apply quiet_invoke].
  - destruct (get_losses_dict m); [apply quiet_invoke | apply quiet_raise].
  - apply quiet_invoke.
Qed.

(** With no room for a run within the run, the call of an attribute sends
    nothing to the logger. *)
Lemma quiet_call_attribute self key a inputs kwargs :
  quiet (call_attribute no_run self key a inputs kwargs).
Proof.
  assert (forall key args kwargs,
            quiet (run_dag_method gin_verbose no_run key args kwargs)) as Hrun.
  { intros k args kw. unfold run_dag_method.
    apply quiet_bind; [apply quiet_lift | intros [[i v] kw']].
    apply quiet_bind; [done | intros _].
    apply quiet_bind; [apply quiet_raise | done]. }
  destruct a as [m|d|names|items|[]|o]; unfold call_attribute;
    try apply quiet_dispatch; try apply quiet_raise; try apply Hrun;
    try apply quiet_invoke.
  unfold call_method.
  apply quiet_bind; [apply quiet_lift | intros [i kw]].
  apply quiet_bind; [apply quiet_lift | intros a].
  destruct a as [m|d|names|items|[]|o];
    try apply quiet_raise; try apply Hrun; apply quiet_invoke.
Qed.

Lemma quiet_to_dict x keys : quiet (to_dict default_label x keys).
Proof. unfold to_dict. by case_decide. Qed.

Lemma quiet_lookups outputs keys :
  quiet (for_each (fun key => h ← get_heap; lift (nested_lookup key outputs h)) keys).
Proof. intros w. by rewrite lookups_pure. Qed.

Lemma logs_record (r : result nest) (f : nest -> log_record) :
  logs 1 (shapes ← lift r; logging_info (f shapes)).
Proof.
  intros w a w' E. apply bind_ok_inv in E as (n & w1 & E1 & E2).
  unfold lift in E1. destruct r as [n'|e]; [| discriminate].
  injection E1 as -> <-. unfold logging_info in E2.
  injection E2 as _ <-. simpl. by rewrite length_app.
Qed.

(** A diagnostic that returns has sent one record when [verbose] is on, and
    with [verbose] off it sends nothing. *)
Lemma logs_when (verbose : bool) (v : heap -> value) (f : nest -> log_record) :
  logs (if verbose then 1 else 0)
    (when lib (VBool verbose)
       (h ← get_heap; shapes ← lift (shape recursion_limit h (v h));
        logging_info (f shapes))).
Proof.
  intros w a w' E. rewrite when_bool in E. destruct verbose.
  - apply bind_ok_inv in E as (h & w1 & [= <- <-] & E).
    by apply logs_record in E.
  - injection E as _ <-. lia.
Qed.

Lemma quiet_when_off (m : M unit) : quiet (when lib (VBool false) m).
Proof. done. Qed.

(** A node that returns has sent two records to the logger when [verbose]
    is on; with [verbose] off a node sends nothing. *)
Lemma run_node_logs self (verbose : bool) kwargs st node :
  logs (if verbose then 2 else 0)
    (run_node_with no_run self (VBool verbose) kwargs st node)
  /\ (verbose = false ->
      quiet (run_node_with no_run self (VBool verbose) kwargs st node)).
Proof.
  unfold run_node_with. destruct st as [outputs mo].
  destruct (node_0 node) as [key|m].
  2:{ split; [apply logs_raise |]; intros; apply quiet_raise. }
  split.
  - replace (if verbose then 2 else 0)
      with (0 + (0 + ((if verbose then 1 else 0)
                      + (0 + (0 + ((if verbose then 1 else 0) + 0))))))
      by (by destruct verbose).
    apply logs_bind; [apply quiet_logs, quiet_lift | intros m].
    apply logs_bind; [apply quiet_logs, quiet_lookups | intros inputs].
    apply logs_bind; [apply (logs_when verbose (fun _ => VTuple inputs)) | intros _].
    apply logs_bind; [apply quiet_logs, quiet_call_attribute | intros mo1].
    apply logs_bind; [apply quiet_logs | intros mo2].
    { destruct (negb _); [apply quiet_to_dict | apply quiet_ret]. }
    apply logs_bind; [| intros _; apply quiet_logs, quiet_ret].
    apply (logs_when verbose (fun _ => mo2)).
  - intros ->.
    apply quiet_bind; [apply quiet_lift | intros m].
    apply quiet_bind; [apply quiet_lookups | intros inputs].
    apply quiet_bind; [apply quiet_when_off | intros _].
    apply quiet_bind; [apply quiet_call_attribute | intros mo1].
    apply quiet_bind; [| intros mo2].
    { destruct (negb _); [apply quiet_to_dict | apply quiet_ret]. }
    apply quiet_bind; [apply quiet_when_off | intros _; apply quiet_ret].
Qed.

Lemma for_loop_logs self (verbose : bool) kwargs nodes : forall st,
  logs ((if verbose then 2 else 0) * length nodes)
    (for_loop (run_node_with no_run self (VBool verbose) kwargs) nodes st)
  /\ (verbose = false ->
      quiet (for_loop (run_node_with no_run self (VBool verbose) kwargs) nodes st)).
Proof.
  induction nodes as [|node nodes IH]; intros st.
  - split; [rewrite Nat.mul_0_r; apply quiet_logs |]; intros; apply quiet_ret.
  - cbn [for_loop length]. split.
    + replace ((if verbose then 2 else 0) * S (length nodes))
        with ((if verbose then 2 else 0) + (if verbose then 2 else 0) * length nodes)
        by lia.
      apply logs_bind; [apply run_node_logs | intros st'; apply IH].
    + intros Hv. apply quiet_bind; [by apply run_node_logs | intros st'; by apply IH].
Qed.

Lemma quiet_init_outputs inputs : quiet (init_outputs inputs).
Proof.
  intros w. unfold init_outputs, deref. rewrite bind_unfold.
  by destruct (w_heap w !! inputs).
Qed.

Lemma quiet_alias_out st : quiet (alias_out st).
Proof. destruct st as [outputs [mo|]]; [apply quiet_ret | apply quiet_raise]. Qed.

(** [self.dag] is the graph when it is read as one. *)
Lemma self_dag_ok self d :
  self_dag lib self = Ok d -> d = dag self /\ PyDict.get "dag" (attrs self) = None.
Proof.
  unfold self_dag, getattr, lookup_attribute. rewrite decide_False by done.
  destruct (PyDict.get "dag" (attrs self)); [done |].
  rewrite decide_True by done. by intros [= <-].
Qed.

Lemma flat_run_logs self inputs (verbose : bool) kwargs :
  logs ((if verbose then 2 else 0) * length (dag self))
    (run_dag_at 1 self (VDict inputs) (VBool verbose) kwargs)
  /\ (verbose = false ->
      quiet (run_dag_at 1 self (VDict inputs) (VBool verbose) kwargs)).
Proof.
  rewrite run_dag_at_S.
  change (run_dag_at 0 self) with no_run.
  change (init_outputs_of lib (VDict inputs)) with (init_outputs inputs).
  split.
  - intros w a w' E. apply bind_ok_inv in E as (o & w1 & E1 & E).
    pose proof (quiet_init_outputs inputs w) as Q1. rewrite E1 in Q1.
    rewrite bind_unfold in E. unfold lift at 1 in E.
    destruct (self_dag lib self) as [d|e] eqn:Hd; [| done].
    apply self_dag_ok in Hd as [-> _].
    apply bind_ok_inv in E as (st & w2 & E2 & E3).
    apply for_loop_logs in E2.
    pose proof (quiet_alias_out st w2) as Q3. rewrite E3 in Q3.
    simpl in Q1, Q3. rewrite Q3, E2, Q1. lia.
  - intros Hv.
    apply quiet_bind; [apply quiet_init_outputs | intros outputs].
    apply quiet_bind; [apply quiet_lift | intros nodes].
    apply quiet_bind; [by apply for_loop_logs | intros st].
    apply quiet_alias_out.
Qed.

(** A graph none of whose nodes runs the graph again is run in the same
    way at every depth that leaves room for it. *)
Lemma run_depth_indep self depth depth' inputs verbose kwargs w :
  (forall node, node ∈ dag self -> reentrant lib self node = false) ->
  run_dag_at (S depth) self inputs verbose kwargs w
  = run_dag_at (S depth') self inputs verbose kwargs w.
Proof.
  intros Hn. rewrite !run_dag_at_S.
  apply bind_ext. intros o w1. rewrite !bind_unfold. unfold lift.
  destruct (self_dag lib self) as [d|e] eqn:Hd; [| done].
  apply self_dag_ok in Hd as [-> _]. rewrite !bind_unfold.
  rewrite (for_loop_ext _ (run_node_with (run_dag_at depth' self) self verbose kwargs));
    [done |].
  intros node st w2 Hin. by apply run_node_indep, Hn.
Qed.

End Logging.

Section Configuration.
Variable lib : Library.
Variable default_label : nat -> string.

(** With no room for a run within the run, the configured verbosity is
    never read. *)
Lemma flat_node_configuration gin gin' self verbose kwargs st node w :
  run_node_with lib default_label gin no_run self verbose kwargs st node w
  = run_node_with lib default_label gin' no_run self verbose kwargs st node w.
Proof.
  assert (forall key args kw w,
            run_dag_method gin no_run key args kw w
            = run_dag_method gin' no_run key args kw w) as Hrun.
  { intros key args kw w0. unfold run_dag_method. rewrite !bind_unfold.
    unfold lift. by destruct (bind_run_dag args kw) as [[[i v] k]|e]. }
  unfold run_node_with. destruct st as [outputs mo].
  destruct (node_0 node) as [key|m]; [| done].
  apply bind_ext. intros a w1. apply bind_ext. intros ins w2.
  apply bind_ext. intros [] w3.
  rewrite !(bind_unfold (call_attribute _ _ _ _ _ _ _ _)).
  replace (call_attribute lib gin no_run self key a ins kwargs w3)
    with (call_attribute lib gin' no_run self key a ins kwargs w3); [done |].
  by destruct a as [m|d|names|items|[]|o].
Qed.

Lemma flat_run_configuration gin gin' self inputs verbose kwargs w :
  run_dag_at lib default_label gin 1 self inputs verbose kwargs w
  = run_dag_at lib default_label gin' 1 self inputs verbose kwargs w.
Proof.
  rewrite !run_dag_at_S. apply bind_ext. intros o w1. apply bind_ext.
  intros nodes w2. rewrite !bind_unfold.
  rewrite (for_loop_ext _
             (run_node_with lib default_label gin' no_run self verbose kwargs));
    [done |].
  intros node st w3 _. apply flat_node_configuration.
Qed.

End Configuration.

Section Records.
Variable lib : Library.
Variable default_label : nat -> string.
Variable gin_verbose : option bool.

#[local] Abbreviation run_dag := (run_dag lib default_label gin_verbose).

(** The records of a run that returns, two for every node when [verbose]
    is on; and the silence of a run with [verbose] off, when it returns
    and, whether it returns or not, when no node runs the graph again. *)
Lemma run_dag_logs self inputs verbose kwargs :
  logs ((if verbose_or_default gin_verbose verbose then 2 else 0) * length (dag self))
    (run_dag self inputs verbose kwargs)
  /\ (verbose_or_default gin_verbose verbose = false ->
      (forall node, node ∈ dag self -> reentrant lib self node = false) ->
      quiet (run_dag self inputs verbose kwargs))
  /\ (verbose_or_default gin_verbose verbose = false ->
      forall w outputs w',
        run_dag self inputs verbose kwargs w = (Ok outputs, w') ->
        w_log w' = w_log w).
Proof.
  unfold run_dag. change recursion_limit with (S (pred recursion_limit)).
  split_and!.
  - intros w a w' E.
    apply (returned_run_depth lib default_label gin_verbose self _ 0) in E.
    by apply (flat_run_logs lib default_label gin_verbose) in E.
  - intros Hv Hn w. rewrite (run_depth_indep lib default_label gin_verbose self
      (pred recursion_limit) 0)
      by done.
    by apply (flat_run_logs lib default_label gin_verbose).
  - intros Hv w a w' E.
    apply (returned_run_depth lib default_label gin_verbose self _ 0) in E.
    destruct (flat_run_logs lib default_label gin_verbose self inputs
        (verbose_or_default gin_verbose verbose) kwargs)
      as [_ Hq].
    specialize (Hq Hv w). by rewrite E in Hq.
Qed.

End Records.

(** ** Verbosity *)

Section Verbosity.
Variable lib : Library.
Variable default_label : nat -> string.


End Verbosity.

(** ** What a node does, in order *)

Section NodeStages.
Import PyDict PyDictFacts.
Variable lib : Library.
Variable default_label : nat -> string.
Variable gin_verbose : option bool.

#[local] Abbreviation run_node_with := (run_node_with lib default_label gin_verbose).
#[local] Abbreviation call_attribute := (call_attribute lib gin_verbose).

Lemma with_log_with_log l l' w : with_log l (with_log l' w) = with_log l w.
Proof. reflexivity. Qed.

Lemma with_log_own w : with_log (w_log w) w = w.
Proof. by destruct w. Qed.

(** The diagnostic of a node changes the log only. *)
Lemma diagnostic_log (verbose : bool) (v : value) (f : nest -> log_record) w a w' :
  when lib (VBool verbose)
    (h ← get_heap;
     shapes ← lift (shape recursion_limit h v);
     logging_info (f shapes)) w = (Ok a, w') ->
  forall l, with_log l w' = with_log l w.
Proof.
  rewrite when_bool. destruct verbose; [| by intros [= _ <-]].
  intros E l. apply bind_ok_inv in E as (h & w1 & [= _ <-] & E).
  apply bind_ok_inv in E as (s & w2 & E1 & E2).
  unfold lift in E1. destruct (shape _ _ _) as [s'|]; [| discriminate].
  injection E1 as _ <-. unfold logging_info in E2. by injection E2 as _ <-.
Qed.

(** What a node that returns has done, in order. *)
Lemma run_node_stages run self (verbose : bool) kwargs outputs mo node st w w' :
  run_node_with run self (VBool verbose) kwargs (outputs, mo) node w = (Ok st, w') ->
  exists key a inputs r r' w2 w3 w4,
    node_0 node = Key key
    /\ getattr lib self key = Ok a
    /\ for_each_result (fun k => nested_lookup k outputs (w_heap w)) (node_1 node)
       = Ok inputs
    /\ (forall l, with_log l w2 = with_log l w)
    /\ call_attribute run self key a inputs kwargs w2 = (Ok r, w3)
    /\ (if negb (is_dict r) then to_dict default_label r (node_2 node) else mret r) w3
       = (Ok r', w4)
    /\ (forall l, with_log l w' = with_log l w4)
    /\ st = (set key r' outputs, Some r').
Proof.
  unfold run_node_with. destruct (node_0 node) as [key|m0]; [| discriminate].
  intros H. apply bind_ok_inv in H as (m & w0 & E0 & H).
  unfold lift in E0. injection E0 as E0 <-.
  apply bind_ok_inv in H as (inputs & w1 & E1 & H).
  rewrite lookups_pure in E1. injection E1 as E1 <-.
  apply bind_ok_inv in H as ([] & w2 & E2 & H).
  apply bind_ok_inv in H as (r & w3 & E3 & H).
  apply bind_ok_inv in H as (r' & w4 & E4 & H).
  apply bind_ok_inv in H as ([] & w5 & E5 & H).
  injection H as <- <-.
  exists key, m, inputs, r, r', w2, w3, w4. split_and!; try done.
  - by eapply diagnostic_log.
  - by eapply diagnostic_log.
Qed.

(** The converse: the stages, put together. *)
Lemma run_node_of_stages run self kwargs outputs mo node key a inputs r r' w w3 w4 :
  node_0 node = Key key ->
  getattr lib self key = Ok a ->
  for_each_result (fun k => nested_lookup k outputs (w_heap w)) (node_1 node)
    = Ok inputs ->
  call_attribute run self key a inputs kwargs w = (Ok r, w3) ->
  (if negb (is_dict r) then to_dict default_label r (node_2 node) else mret r) w3
    = (Ok r', w4) ->
  run_node_with run self (VBool false) kwargs (outputs, mo) node w
  = (Ok (set key r' outputs, Some r'), w4).
Proof.
  intros Hkey Ha Hin Hr Hr'. unfold run_node_with. rewrite Hkey.
  erewrite bind_ok_l by (unfold lift; rewrite Ha; reflexivity).
  erewrite bind_ok_l by (rewrite lookups_pure, Hin; reflexivity).
  erewrite bind_ok_l by reflexivity.
  erewrite bind_ok_l by done.
  erewrite bind_ok_l by done.
  erewrite bind_ok_l by reflexivity.
  reflexivity.
Qed.

End NodeStages.

(** ** The calls of a run *)

Section Calls.
Import PyDict PyDictFacts.
Variable lib : Library.
Variable default_label : nat -> string.
Variable gin_verbose : option bool.

#[local] Abbreviation run_node_with := (run_node_with lib default_label gin_verbose).
#[local] Abbreviation run_dag_at := (run_dag_at lib default_label gin_verbose).
#[local] Abbreviation run_dag := (run_dag lib default_label gin_verbose).
#[local] Abbreviation run_node := (run_node lib default_label gin_verbose).
#[local] Abbreviation call_attribute := (call_attribute lib gin_verbose).

(** The call of a module, by the capabilities of the module. *)
Lemma dispatch_eq module_key m inputs kwargs w :
  dispatch module_key m inputs kwargs w =
    match get_signal m && get_controls m, get_losses_dict m with
    | true, _ =>
        match get "return_outputs_dict" kwargs with
        | Some _ => (Err (TypeError "multiple values for keyword argument"), w)
        | None =>
            invoke Processor module_key (call m) inputs
              (("return_outputs_dict", VBool true) :: kwargs) w
        end
    | false, Some f => invoke Loss module_key f inputs kwargs w
    | false, None => invoke Default module_key (call m) inputs kwargs w
    end.
Proof.
  unfold dispatch, is_processor, is_loss.
  by destruct (get_signal m), (get_controls m), (get_losses_dict m) as [f|],
    (get "return_outputs_dict" kwargs).
Qed.

Lemma selected_eq m :
  selected m =
  (if get_signal m && get_controls m then Processor
   else if is_loss m then Loss else Default).
Proof.
  unfold selected, is_loss.
  by destruct (get_signal m), (get_controls m), (get_losses_dict m).
Qed.

(** A call of a module that returns is the call of its entry point, and is
    recorded with the convention selected. *)
Lemma dispatch_ok key m inputs kwargs w r w' :
  dispatch key m inputs kwargs w = (Ok r, w') ->
  exists h,
    entry m inputs (entry_kwargs m kwargs) (w_heap w) = (Ok r, h)
    /\ w' = World h (w_log w) (w_calls w ++ [(key, selected m)])
    /\ (selected m = Processor -> get "return_outputs_dict" kwargs = None).
Proof.
  rewrite dispatch_eq. unfold entry, entry_kwargs, selected, invoke.
  destruct (get_signal m), (get_controls m), (get_losses_dict m) as [f|];
    cbn [andb]; try destruct (get "return_outputs_dict" kwargs); try discriminate;
    repeat match goal with
           | |- context [let '(_, _) := ?x in _] => destruct x as [r0 h0]
           end; intros [= -> <-]; eexists; split_and!; done.
Qed.

Lemma invoke_ok c key f args kwargs w r w' :
  invoke c key f args kwargs w = (Ok r, w') ->
  w_calls w' = w_calls w ++ [(key, c)].
Proof. unfold invoke. destruct (f _ _ _). by intros [= _ <-]. Qed.

(** With no room for a run within the run, a call that returns is one call,
    recorded with the convention of what was called. *)
Lemma call_attribute_ok_calls self key a inputs kwargs w r w' :
  call_attribute no_run self key a inputs kwargs w = (Ok r, w') ->
  w_calls w' = w_calls w ++ [(key, convention_of a)].
Proof.
  destruct a as [m|d|names|items|[]|o]; unfold call_attribute; cbn [convention_of];
    try discriminate.
  - intros (h & _ & -> & _)%dispatch_ok. done.
  - unfold call_method. intros H.
    apply bind_ok_inv in H as ([i k] & w1 & E1 & H).
    unfold lift in E1. injection E1 as _ <-.
    apply bind_ok_inv in H as (a & w2 & E2 & H).
    unfold lift in E2. injection E2 as _ <-.
    destruct a as [m|d|names|items|[]|o]; try discriminate;
      try (by apply invoke_ok in H).
    unfold run_dag_method in H. rewrite bind_unfold in H. unfold lift at 1 in H.
    by destruct (bind_run_dag _ _) as [[[? ?] ?]|].
  - unfold run_dag_method. rewrite bind_unfold. unfold lift at 1.
    by destruct (bind_run_dag _ _) as [[[? ?] ?]|].
  - apply invoke_ok.
  - intros (h & _ & -> & _)%dispatch_ok. done.
Qed.

Lemma to_dict_alloc x keys w v w' :
  to_dict default_label x keys w = (Ok v, w') ->
  v = VDict (length (w_heap w))
  /\ w_log w' = w_log w /\ w_calls w' = w_calls w.
Proof.
  unfold to_dict. case_decide; [| discriminate].
  intros Hd. apply bind_ok_inv in Hd as (l & w1 & E & Hd).
  injection E as <- <-. by injection Hd as <- <-.
Qed.

Lemma shaping_calls (r : value) ks w r' w' :
  (if negb (is_dict r) then to_dict default_label r ks else mret r) w = (Ok r', w') ->
  w_calls w' = w_calls w.
Proof.
  destruct (negb _); [| by intros [= _ <-]].
  by intros (_ & _ & ?)%to_dict_alloc.
Qed.

Lemma run_node_calls self (verbose : bool) kwargs st node st' w w' :
  run_node_with no_run self (VBool verbose) kwargs st node w = (Ok st', w') ->
  w_calls w' = w_calls w ++ [node_call lib self node].
Proof.
  destruct st as [outputs mo]. intros H.
  apply run_node_stages in H
    as (key & m & inputs & r & r' & w2 & w3 & w4
        & Hkey & Hm & Hin & Hw2 & Hr & Hr' & Hw' & ->).
  apply call_attribute_ok_calls in Hr. apply shaping_calls in Hr'.
  pose proof (f_equal w_calls (Hw2 [])) as E2.
  pose proof (f_equal w_calls (Hw' [])) as E'. cbn [w_calls with_log] in E2, E'.
  rewrite E', Hr', Hr, E2. unfold node_call. rewrite Hkey. cbn [ref_name].
  by rewrite Hm.
Qed.

Lemma for_loop_calls self (verbose : bool) kwargs nodes : forall st st' w w',
  for_loop (run_node_with no_run self (VBool verbose) kwargs) nodes st w
    = (Ok st', w') ->
  w_calls w' = w_calls w ++ (node_call lib self <$> nodes).
Proof.
  induction nodes as [|node nodes IH]; intros st st' w w' H.
  - injection H as _ <-. by rewrite app_nil_r.
  - cbn [for_loop] in H. apply bind_ok_inv in H as (st1 & w1 & E & H).
    rewrite (IH _ _ _ _ H), (run_node_calls _ _ _ _ _ _ _ _ E), <- app_assoc.
    reflexivity.
Qed.

Lemma init_outputs_world inputs w r w' :
  init_outputs inputs w = (r, w') -> w' = w.
Proof.
  unfold init_outputs, deref. rewrite bind_unfold.
  destruct (w_heap w !! inputs); intros [= _ <-]; reflexivity.
Qed.

(** What a run that returns is made of: the inputs in place, the nodes of
    the graph run in order with no run within the run, and the alias. *)
Lemma run_dag_returned self inputs verbose kwargs w outputs w' :
  run_dag self inputs verbose kwargs w = (Ok outputs, w') ->
  exists o0 st,
    init_outputs inputs w = (Ok o0, w)
    /\ self_dag lib self = Ok (dag self)
    /\ for_loop (run_node_with no_run self
                   (VBool (verbose_or_default gin_verbose verbose)) kwargs)
         (dag self) (o0, None) w = (Ok st, w')
    /\ alias_out st w' = (Ok outputs, w').
Proof.
  unfold run_dag. change recursion_limit with (S (pred recursion_limit)).
  intros H. apply (returned_run_depth _ _ _ _ _ 0) in H.
  rewrite run_dag_at_S in H.
  apply bind_ok_inv in H as (o0 & w0 & E0 & H).
  change (init_outputs_of lib (VDict inputs)) with (init_outputs inputs) in E0.
  pose proof (init_outputs_world _ _ _ _ E0) as ->.
  rewrite bind_unfold in H. unfold lift at 1 in H.
  destruct (self_dag lib self) as [d|e] eqn:Hd; [| done].
  pose proof (self_dag_ok _ _ _ Hd) as [-> _].
  apply bind_ok_inv in H as (st & w1 & E1 & H).
  assert (w1 = w') as ->.
  { destruct st as [o [mo|]]; [| done]. by injection H as _ <-. }
  exists o0, st. split_and!; [done | done | exact E1 | done].
Qed.

(** The calls of a run that returns: one for every node, in the order of
    the graph, by the convention of what the node names. *)
Lemma run_dag_calls self inputs verbose kwargs w outputs w' :
  run_dag self inputs verbose kwargs w = (Ok outputs, w') ->
  w_calls w' = w_calls w ++ (node_call lib self <$> dag self).
Proof.
  intros (o0 & st & _ & _ & Hloop & _)%run_dag_returned.
  by apply for_loop_calls in Hloop.
Qed.

End Calls.
(** ** Dispatch *)

Section Dispatch.
Import PyDict PyDictFacts.
Variable lib : Library.
Variable default_label : nat -> string.
Variable gin_verbose : option bool.

#[local] Abbreviation run_node_with := (run_node_with lib default_label gin_verbose).
#[local] Abbreviation run_dag_at := (run_dag_at lib default_label gin_verbose).
#[local] Abbreviation run_dag := (run_dag lib default_label gin_verbose).
#[local] Abbreviation run_node := (run_node lib default_label gin_verbose).

(** What has returned with no room for a run within the run returns with
    room for one. *)
Lemma flat_loop_returned run self verbose kwargs nodes st w st' w' :
  for_loop (run_node_with no_run self verbose kwargs) nodes st w = (Ok st', w') ->
  for_loop (run_node_with run self verbose kwargs) nodes st w = (Ok st', w').
Proof. apply returned_loop_indep. by intros. Qed.

Lemma flat_node_returned run self verbose kwargs node st w st' w' :
  run_node_with no_run self verbose kwargs st node w = (Ok st', w') ->
  run_node_with run self verbose kwargs st node w = (Ok st', w').
Proof. apply returned_node_indep. by intros. Qed.

(** C4: in a run that returns, every node has made one call, by the
    convention that the capabilities of what it names select, processor
    before loss before default; and a node that names a module has called
    the entry point of that convention on the inputs it has looked up: the
    module itself with [return_outputs_dict=True] when it has [get_signal]
    and [get_controls], whether or not it has [get_losses_dict]; otherwise
    its [get_losses_dict] when it has one; otherwise the module itself.
    What that call returned is what the node has stored, through
    [core.to_dict] when it is no dictionary. *)
Theorem dispatch_precedence (self : DAGLayer) (inputs : loc)
  (verbose : option bool) (kwargs : dict value) (w w' : world)
  (outputs : dict value) :
  run_dag self inputs verbose kwargs w = (Ok outputs, w') ->
  w_calls w' = w_calls w ++ (node_call lib self <$> dag self)
  /\ (forall before node after key m,
        dag self = before ++ node :: after ->
        node_0 node = Key key ->
        getattr lib self key = Ok (AModule m) ->
        exists o1 mo1 w1 ins r h w2,
          (o ← init_outputs inputs;
           for_loop (run_node self (verbose_or_default gin_verbose verbose) kwargs)
             before (o, None)) w = (Ok (o1, mo1), w1)
          /\ for_each_result (fun k => nested_lookup k o1 (w_heap w1)) (node_1 node)
             = Ok ins
          /\ entry m ins (entry_kwargs m kwargs) (w_heap w1) = (Ok r, h)
          /\ (selected m = Processor -> get "return_outputs_dict" kwargs = None)
          /\ (let v := if is_dict r then r else VDict (length h) in
              run_node self (verbose_or_default gin_verbose verbose) kwargs
                (o1, mo1) node w1 = (Ok (set key v o1, Some v), w2))
          /\ w_calls w2 = w_calls w1 ++ [(key, selected m)])
  /\ (forall m,
        selected m =
        (if get_signal m && get_controls m then Processor
         else if is_loss m then Loss else Default)
        /\ entry m = (match selected m, get_losses_dict m with
                      | Loss, Some f => f
                      | _, _ => call m
                      end)
        /\ entry_kwargs m kwargs =
             (if get_signal m && get_controls m
              then ("return_outputs_dict", VBool true) :: kwargs else kwargs)).
Proof.
  intros Hrun. split_and!.
  - by apply (run_dag_calls lib default_label gin_verbose) in Hrun.
  - intros before node after key m Hdag Hkey Hm.
    apply run_dag_returned in Hrun as (o0 & st & Hinit & _ & Hloop & _).
    rewrite Hdag, for_loop_app in Hloop.
    destruct (for_loop _ before _ w) as [[[o1 mo1]|e] w1] eqn:Hbefore; [| done].
    cbn [for_loop] in Hloop. apply bind_ok_inv in Hloop as (st2 & w2 & Hnode & _).
    pose proof (run_node_calls lib default_label gin_verbose _ _ _ _ _ _ _ _ Hnode)
      as Hcalls.
    pose proof Hnode as Hflat.
    apply run_node_stages in Hnode
      as (key' & a & ins & r & r' & wa & wb & wc
          & Hkey' & Ha & Hin & Hwa & Hr & Hr' & Hw2 & ->).
    assert (key' = key) as -> by congruence.
    assert (a = AModule m) as -> by congruence.
    apply dispatch_ok in Hr as (h & Hentry & -> & Hflag).
    pose proof (f_equal w_heap (Hwa [])) as Eh. cbn [w_heap with_log] in Eh.
    rewrite Eh in Hentry.
    assert (r' = if is_dict r then r else VDict (length h)) as ->.
    { destruct (is_dict r); cbn [negb] in Hr'; [by injection Hr' as <- _ |].
      by apply to_dict_alloc in Hr' as (-> & _). }
    exists o1, mo1, w1, ins, r, h, w2. split_and!; try done.
    + rewrite (bind_ok_l _ _ _ _ _ Hinit). by apply flat_loop_returned.
    + by apply flat_node_returned.
    + rewrite Hcalls. unfold node_call. rewrite Hkey. cbn [ref_name].
      by rewrite Hm.
  - intros m. split_and!; [apply selected_eq | done |].
    unfold entry_kwargs, selected.
    by destruct (get_signal m), (get_controls m), (get_losses_dict m).
Qed.

End Dispatch.
(** ** The run as a whole *)

Section Run.
Import PyDict PyDictFacts.
Variable lib : Library.
Variable default_label : nat -> string.
Variable gin_verbose : option bool.

#[local] Abbreviation run_node_with := (run_node_with lib default_label gin_verbose).
#[local] Abbreviation run_dag := (run_dag lib default_label gin_verbose).
#[local] Abbreviation run_node := (run_node lib default_label gin_verbose).

(** C6: when a run completes, the graph has a last node, and the returned
    namespace binds [out] and the name of that node to one and the same
    dictionary. *)
Theorem out_aliases_last (self : DAGLayer) (inputs : loc)
  (verbose : option bool) (kwargs : dict value) (w w' : world)
  (outputs : dict value) :
  run_dag self inputs verbose kwargs w = (Ok outputs, w') ->
  exists node key l,
    last (dag self) = Some node
    /\ node_0 node = Key key
    /\ get "out" outputs = Some (VDict l)
    /\ get key outputs = Some (VDict l).
Proof.
  intros (o0 & st & _ & _ & E0 & H)%run_dag_returned.
  destruct (dag self) as [|n0 ns] using rev_ind.
  { inversion E0; subst. discriminate. }
  clear IHns. rewrite for_loop_app in E0.
  destruct (for_loop _ ns _ w) as [[[o1 mo1]|e] w2]; [| discriminate].
  cbn [for_loop] in E0. inv_bind E0. inversion E0; subst; clear E0.
  apply run_node_with_ok in E as (key & l & Hkey & ->).
  simpl in H. inversion H; subst; clear H.
  exists n0, key, l. rewrite last_snoc, get_set_eq. split_and!; try done.
  rewrite get_set. case_decide; [done | apply get_set_eq].
Qed.

(** C9: on a graph without nodes [run_dag] raises, and returns no
    namespace: once the inputs are in place, the alias [out] refers to
    [module_outputs], which no node has bound.  (A layer whose attribute
    [dag] is a module raises before that, as a module is not iterable.) *)
Theorem empty_graph_raises (names : list string) (registry : dict module)
  (inputs : loc) (verbose : option bool) (kwargs : dict value) (w : world) :
  run_dag (MkDAGLayer [] names registry) inputs verbose kwargs w
  = (Err (match w_heap w !! inputs, get "dag" registry with
          | Some _, None => UnboundLocalError "module_outputs"
          | Some _, Some _ => TypeError "object is not iterable"
          | None, _ => TypeError "not a mapping"
          end), w).
Proof.
  rewrite run_dag_eq. unfold init_outputs, deref, self_dag, getattr, lookup_attribute.
  rewrite !bind_unfold. cbn [attrs dag].
  rewrite decide_False by done.
  destruct (w_heap w !! inputs); [| done].
  by destruct (get "dag" registry).
Qed.

(** A node whose input key does not resolve raises before anything is
    logged or called. *)
Lemma run_node_missing run self verbose kwargs outputs mo node key k e w :
  node_0 node = Key key ->
  k ∈ node_1 node ->
  nested_lookup k outputs (w_heap w) = Err e ->
  exists e',
    run_node_with run self verbose kwargs (outputs, mo) node w = (Err e', w)
    /\ (is_lookup_error e' = true
        \/ key = "modules" /\ getattr lib self key = Err e')
    /\ (is_ok (getattr lib self key) = true ->
        exists k', k' ∈ node_1 node /\ e' = KeyError k').
Proof.
  intros Hkey Hk He. unfold run_node_with. rewrite Hkey.
  destruct (getattr lib self key) as [m|e0] eqn:Hm.
  - destruct (lookups_missing _ _ _ _ _ Hk He) as (k' & Hk' & Hf).
    exists (KeyError k'). split_and!; [| by left | eauto].
    rewrite bind_unfold. unfold lift at 1. rewrite bind_unfold, lookups_pure, Hf.
    reflexivity.
  - exists e0. split_and!; [reflexivity | | done].
    unfold getattr in Hm. case_decide as Hmod; [by right |]. left.
    unfold lookup_attribute in Hm. destruct (get key (attrs self)); [done |].
    repeat case_decide; try done.
    destruct (inherited lib key); [done |]. by injection Hm as <-.
Qed.


End Run.

(** ** An input named [inputs] *)

Section InputsKey.
Import PyDict PyDictFacts.
Variable lib : Library.
Variable default_label : nat -> string.
Variable gin_verbose : option bool.

#[local] Abbreviation run_node := (run_node lib default_label gin_verbose).

Lemma split_on_inputs p :
  split_on "/" ("inputs/" +:+ p) = "inputs" :: split_on "/" p.
Proof. reflexivity. Qed.

(** The binding of a name survives the nodes that are not called by it. *)
Lemma for_loop_keeps self verbose kwargs name nodes : forall outputs mo w st w',
  Forall (fun node => node_0 node <> Key name) nodes ->
  for_loop (run_node self verbose kwargs) nodes (outputs, mo) w = (Ok st, w') ->
  get name st.1 = get name outputs.
Proof.
  induction nodes as [|node nodes IH]; intros outputs mo w st w' Hn H.
  - by inversion H.
  - inversion Hn as [|? ? Hnode Hnodes]; subst.
    cbn [for_loop] in H. inv_bind H.
    apply run_node_ok in E as (key & l & Hkey & ->).
    rewrite (IH _ _ _ _ _ Hnodes H). apply get_set_ne. congruence.
Qed.

(** C10, as amended: when the input dictionary has a key [inputs], the
    namespace binds [inputs] to the value of that key and not to the input
    dictionary, and it does so for as long as the nodes that have run are
    not named [inputs]; every lookup of a path [inputs/...] in that
    namespace is therefore a lookup of the rest of the path in that
    value. *)
Theorem inputs_key_overrides (self : DAGLayer) (verbose : bool)
  (kwargs : dict value) (inputs : loc) (d : dict value) (v : value)
  (nodes : DAG) (w w' : world) (outputs : dict value) (mo : option value) :
  w_heap w !! inputs = Some d ->
  NoDup (keys d) ->
  get "inputs" d = Some v ->
  Forall (fun node => node_0 node <> Key "inputs") nodes ->
  (o ← init_outputs inputs;
   for_loop (run_node self verbose kwargs) nodes (o, None)) w
    = (Ok (outputs, mo), w') ->
  get "inputs" outputs = Some v
  /\ forall p h,
       nested_lookup ("inputs/" +:+ p) outputs h =
       match lookup_path h (split_on "/" p) v with
       | Some x => Ok x
       | None => Err (KeyError ("inputs/" +:+ p))
       end.
Proof.
  intros Hd Hnd Hv Hnodes H. inv_bind H.
  assert (get "inputs" outputs = Some v) as Hget.
  { pose proof (for_loop_keeps _ _ _ _ _ _ _ _ _ _ Hnodes H) as Hk.
    simpl in Hk. rewrite Hk.
    unfold init_outputs, deref in E. rewrite bind_unfold, Hd in E.
    inversion E; subst.
    by rewrite get_update, get_reverse_NoDup, Hv. }
  split; [done |]. intros p h. unfold nested_lookup.
  rewrite split_on_inputs, Hget. simpl. by destruct (lookup_path _ _ _).
Qed.

End InputsKey.

(** C10, as stated, fails for the lookups that follow a node named
    [inputs]: the caller's [inputs] value is [{"x": 3}], the node [inputs]
    stores [{"x": 7}], and the node [double] then reads [inputs/x] as 7. *)
Lemma shadowed_inputs :
  run_dag plain digit_label None shadow_layer 0 (Some false) [] shadow_world
  = (Ok [("inputs", VDict 2); ("double", VDict 3); ("out", VDict 3)],
     World [ [("inputs", VDict 1)]; [("x", scalar 3)];
             [("x", scalar 7)]; [("y", scalar 14)] ]
           [] [("inputs", Default); ("double", Default)]).
Proof. reflexivity. Qed.

(** ** What normalisation leaves alone *)

Section Frame.
Import Objects.

Lemma lookup_alloc (σ : store) (o : obj) : (σ ++ [o]) !! length σ = Some o.
Proof. by rewrite list_lookup_middle. Qed.

Lemma insert_alloc (σ : store) (o o' : obj) :
  <[length σ := o']> (σ ++ [o]) = σ ++ [o'].
Proof.
  replace (length σ) with (length σ + 0) by lia. by rewrite insert_app_r.
Qed.

Lemma getitem_list x i (σ : store) items e :
  σ !! x = Some (OList items) -> items !! i = Some e ->
  getitem x i σ = (Ok e, σ).
Proof. unfold getitem. by intros -> ->. Qed.

Lemma getitem_list_empty x (σ : store) :
  σ !! x = Some (OList []) -> getitem x 0 σ = (Err IndexError, σ).
Proof. unfold getitem. by intros ->. Qed.

Lemma setitem_list x i v (σ : store) items :
  σ !! x = Some (OList items) -> i < length items ->
  setitem x i v σ = (Ok tt, <[x := OList (<[i := v]> items)]> σ).
Proof. unfold setitem. intros -> ?. by rewrite decide_True. Qed.

Lemma len_list x (σ : store) items :
  σ !! x = Some (OList items) -> len x σ = (Ok (length items), σ).
Proof. unfold len. by intros ->. Qed.

Lemma iter_store e (σ : store) : (iter e σ).2 = σ.
Proof.
  unfold iter. destruct e as [s|r]; [done |]. by destruct (σ !! r) as [[]|].
Qed.

Lemma as_module_store e (σ : store) :
  exists om, as_module e σ = (Ok om, σ).
Proof.
  unfold as_module. destruct e as [s|r]; [by eexists |].
  destruct (σ !! r) as [[]|]; by eexists.
Qed.

(** One turn of the loop, spelled out: the node is copied into a new list,
    the name is written into the copy, and the copy into the copy of the
    graph. *)
Lemma format_node_run dag modules i (σ : store) items e :
  σ !! dag = Some (OList items) ->
  items !! i = Some e ->
  format_node dag modules i σ =
    match iter e σ with
    | (Err err, _) => (Err err, σ)
    | (Ok its, _) =>
        match its !! 0 with
        | None => (Err IndexError, σ ++ [OList its])
        | Some module =>
            match (as_module module (σ ++ [OList its])).1 with
            | Ok (Some m) =>
                (Ok (PyDict.set (name m) module modules),
                 <[dag := OList (<[i := ERef (length σ)]> items)]>
                   (σ ++ [OList (<[0 := EStr (name m)]> its)]))
            | _ =>
                (Ok modules,
                 <[dag := OList (<[i := ERef (length σ)]> items)]>
                   (σ ++ [OList its]))
            end
        end
    end.
Proof.
  intros Hdag He.
  assert (dag < length σ) as Hlt by (by eapply lookup_lt_Some).
  assert (i < length items) as Hi by (by eapply lookup_lt_Some).
  unfold format_node.
  rewrite (bind_ok_l _ _ _ _ _ (getitem_list _ _ _ _ _ Hdag He)).
  unfold list_. rewrite (bind_unfold (iter e ≫= new_list)), (bind_unfold (iter e)).
  pose proof (iter_store e σ) as Hiter.
  destruct (iter e σ) as [[its|err] σ_]; simpl in Hiter; subst σ_; [| done].
  change (new_list its σ) with (Ok (length σ), σ ++ [OList its]). cbn iota.
  destruct (its !! 0) as [module|] eqn:E0.
  2:{ apply bind_err_l. destruct its; [| done].
      apply getitem_list_empty, lookup_alloc. }
  rewrite (bind_ok_l _ _ _ _ _ (getitem_list _ _ _ _ _ (lookup_alloc _ _) E0)).
  destruct (as_module_store module (σ ++ [OList its])) as [om Hom].
  rewrite (bind_ok_l _ _ _ _ _ Hom), Hom. cbn [fst].
  assert (0 < length its) as H0 by (by eapply lookup_lt_Some).
  destruct om as [m|].
  - rewrite bind_unfold.
    rewrite (bind_ok_l _ _ _ _ _ (setitem_list _ _ _ _ _ (lookup_alloc _ _) H0)).
    rewrite insert_alloc.
    change ((mret (PyDict.set (name m) module modules) : ST store _)
              (σ ++ [OList (<[0:=EStr (name m)]> its)]))
      with (Ok (PyDict.set (name m) module modules),
            σ ++ [OList (<[0:=EStr (name m)]> its)]).
    cbn iota.
    erewrite bind_ok_l; [reflexivity |].
    apply setitem_list; [| done]. by rewrite lookup_app_l.
  - rewrite bind_unfold.
    change ((mret modules : ST store _) (σ ++ [OList its]))
      with (Ok modules, σ ++ [OList its]).
    cbn iota.
    erewrite bind_ok_l; [reflexivity |].
    apply setitem_list; [| done]. by rewrite lookup_app_l.
Qed.

Lemma iter_err e (σ σ' : store) err :
  iter e σ = (Err err, σ') -> err = TypeError "object is not iterable".
Proof.
  unfold iter. destruct e as [s|r]; [done |].
  destruct (σ !! r) as [[]|]; congruence.
Qed.

Lemma is_list_step (σ : store) x l o r :
  is_list σ r -> is_list (<[x := OList l]> (σ ++ [o])) r.
Proof.
  intros [items Hr]. unfold is_list.
  assert (r < length σ) by (by eapply lookup_lt_Some).
  destruct (decide (x = r)) as [->|Hne].
  - rewrite list_lookup_insert_eq by (rewrite length_app; lia). eauto.
  - rewrite list_lookup_insert_ne, lookup_app_l by done. eauto.
Qed.

Lemma is_list_new (σ : store) x l l' :
  x < length σ -> is_list (<[x := OList l]> (σ ++ [OList l'])) (length σ).
Proof.
  intros Hx. unfold is_list.
  rewrite list_lookup_insert_ne, lookup_alloc by lia. eauto.
Qed.

Lemma prefix_step (σ0 σ : store) x o o' :
  σ0 `prefix_of` σ -> length σ0 <= x ->
  σ0 `prefix_of` <[x := o']> (σ ++ [o]).
Proof.
  intros [k ->] Hx. rewrite <- app_assoc.
  rewrite insert_app_r_alt by done. by apply prefix_app_r.
Qed.

Lemma Forall_set {V} (P : string * V -> Prop) k v (d : list (string * V)) :
  P (k, v) -> Forall P d -> Forall P (PyDict.set k v d).
Proof.
  intros Hkv. induction 1 as [|[k0 v0] d H0 Hd IH]; simpl.
  - by constructor.
  - case_decide; constructor; auto.
Qed.

(** The loop writes to the lists it has made and to nothing else, it never
    assigns to a tuple, and on completion every node of the copy of the
    graph is a new list and every module recorded is an instance that was
    there before. *)
Lemma format_loop_frame (σ0 : store) dag : forall k i modules (σ : store) items,
  σ0 `prefix_of` σ ->
  length σ0 <= dag ->
  (forall r, length σ0 <= r -> r < length σ -> is_list σ r) ->
  σ !! dag = Some (OList items) ->
  i + k = length items ->
  (forall j e, j < i -> items !! j = Some e -> fresh_list σ0 σ e) ->
  Forall (names_instance σ0) modules ->
  σ0 `prefix_of` (for_loop (format_node dag) (seq i k) modules σ).2
  /\ (for_loop (format_node dag) (seq i k) modules σ).1 <> Err immutable
  /\ forall modules',
       (for_loop (format_node dag) (seq i k) modules σ).1 = Ok modules' ->
       (exists items',
          (for_loop (format_node dag) (seq i k) modules σ).2 !! dag
            = Some (OList items')
          /\ Forall
               (fresh_list σ0 (for_loop (format_node dag) (seq i k) modules σ).2)
               items')
       /\ Forall (names_instance σ0) modules'.
Proof.
  induction k as [|k IH]; intros i modules σ items Hpre Hdag Hnew Hlook Hlen Hdone
      Hmods.
  { simpl. split_and!; [done.. |]. intros ? [= <-]. split; [| done].
    exists items. split; [done |]. apply Forall_lookup. intros j e Hj.
    apply (Hdone j e); [| done]. apply lookup_lt_Some in Hj. lia. }
  cbn [seq for_loop]. rewrite bind_unfold.
  destruct (lookup_lt_is_Some_2 items i) as [e He]; [lia |].
  assert (dag < length σ) as Hlt by (by eapply lookup_lt_Some).
  assert (length σ0 <= length σ) as Hle by (by apply prefix_length).
  rewrite (format_node_run _ _ _ _ _ _ Hlook He).
  destruct (iter e σ) as [[its|err] σ_] eqn:Eit.
  2:{ apply iter_err in Eit as ->. simpl. split_and!; done. }
  destruct (its !! 0) as [module|] eqn:E0.
  2:{ simpl. split_and!; [by apply prefix_app_r | done | done]. }
  assert (forall modules1 its1,
    Forall (names_instance σ0) modules1 ->
    let σ1 := <[dag := OList (<[i := ERef (length σ)]> items)]> (σ ++ [OList its1]) in
    σ0 `prefix_of` (for_loop (format_node dag) (seq (S i) k) modules1 σ1).2
    /\ (for_loop (format_node dag) (seq (S i) k) modules1 σ1).1 <> Err immutable
    /\ forall modules',
         (for_loop (format_node dag) (seq (S i) k) modules1 σ1).1 = Ok modules' ->
         (exists items',
            (for_loop (format_node dag) (seq (S i) k) modules1 σ1).2 !! dag
              = Some (OList items')
            /\ Forall
                 (fresh_list σ0
                    (for_loop (format_node dag) (seq (S i) k) modules1 σ1).2)
                 items')
         /\ Forall (names_instance σ0) modules') as Hstep.
  { intros modules1 its1 Hmods1 σ1. subst σ1.
    apply (IH (S i) modules1 _ (<[i := ERef (length σ)]> items)).
    - by apply prefix_step.
    - done.
    - intros r Hr1 Hr2. rewrite length_insert, length_app in Hr2. simpl in Hr2.
      destruct (decide (r = length σ)) as [->|Hne].
      + by apply is_list_new.
      + apply is_list_step. apply Hnew; [done | lia].
    - rewrite list_lookup_insert_eq; [done |]. rewrite length_app. lia.
    - rewrite length_insert. lia.
    - intros j e' Hj He'. destruct (decide (j = i)) as [->|Hne].
      + rewrite list_lookup_insert_eq in He' by lia. inversion He'; subst.
        exists (length σ). split_and!; [done | done |]. by apply is_list_new.
      + rewrite list_lookup_insert_ne in He' by done.
        destruct (Hdone j e') as (r & -> & Hr & Hl); [lia | done |].
        exists r. split_and!; [done..|]. by apply is_list_step.
    - done. }
  destruct (as_module module (σ ++ [OList its])) as [[[m|]|?] ?] eqn:Eas;
    cbn [fst]; cbn iota; try (by apply Hstep).
  apply Hstep. apply Forall_set; [| done].
  unfold as_module in Eas. destruct module as [s|r]; [done |].
  destruct ((σ ++ [OList its]) !! r) as [[m'| |]|] eqn:Er; try done.
  inversion Eas; subst m'. exists r, m. split_and!; try done. cbn [snd].
  assert (r < length (σ ++ [OList its])) as Hr by (by eapply lookup_lt_Some).
  rewrite length_app in Hr. simpl in Hr.
  destruct (decide (r = length σ)) as [->|Hne].
  { rewrite lookup_alloc in Er. done. }
  rewrite lookup_app_l in Er by lia.
  destruct (decide (length σ0 <= r)) as [Hge|Hlt0].
  { destruct (Hnew r Hge) as [? Hl]; [lia |]. congruence. }
  destruct Hpre as [k' ->]. rewrite lookup_app_l in Er by lia. done.
Qed.

(** [format_dag] changes no object that exists when it is called: the store
    it leaves begins with the store it was given.  It never assigns to an
    item of a tuple; the graph it returns is a new list whose nodes are new
    lists, and the modules it returns are instances of the caller, under
    their names. *)
Lemma format_dag_only_appends (dag : elem) (σ : store) :
  σ `prefix_of` (Objects.format_dag dag σ).2
  /\ (Objects.format_dag dag σ).1 <> Err immutable
  /\ forall dag' modules,
       (Objects.format_dag dag σ).1 = Ok (dag', modules) ->
       length σ <= dag'
       /\ (exists nodes,
             (Objects.format_dag dag σ).2 !! dag' = Some (OList nodes)
             /\ Forall (fresh_list σ (Objects.format_dag dag σ).2) nodes)
       /\ Forall (names_instance σ) modules.
Proof.
  unfold Objects.format_dag, list_.
  rewrite (bind_unfold (iter dag ≫= new_list)), (bind_unfold (iter dag)).
  pose proof (iter_store dag σ) as Hiter.
  destruct (iter dag σ) as [[its|err] σ_] eqn:Eit; simpl in Hiter; subst σ_.
  2:{ apply iter_err in Eit as ->. simpl. split_and!; done. }
  change (new_list its σ) with (Ok (length σ), σ ++ [OList its]). cbn iota.
  rewrite (bind_ok_l _ _ _ _ _ (len_list _ _ _ (lookup_alloc _ _))).
  rewrite bind_unfold.
  destruct (format_loop_frame σ (length σ) (length its) 0 [] (σ ++ [OList its]) its)
    as (Hpre & Himm & Hok).
  - by apply prefix_app_r.
  - done.
  - intros r Hr1 Hr2. rewrite length_app in Hr2. simpl in Hr2.
    replace r with (length σ) by lia. exists its. apply lookup_alloc.
  - apply lookup_alloc.
  - done.
  - intros j e Hj. lia.
  - constructor.
  - destruct (for_loop _ _ _ _) as [[modules|err] σ'] eqn:Eloop;
      cbn [fst snd] in *; cbn iota;
      unfold mret, ST_ret; cbn [fst snd].
    + split_and!.
      * exact Hpre.
      * discriminate.
      * intros dag' modules' [= <- <-].
        destruct (Hok modules eq_refl) as [? ?]. done.
    + split_and!.
      * exact Hpre.
      * intros [= ->]. by apply Himm.
      * discriminate.
Qed.

End Frame.

(** ** The two models of [format_dag] agree *)

Section Refinement.
#[local] Abbreviation format_values := format_dag.
Import Objects.

Lemma read_ref_mono (σ0 σ : store) e r :
  σ0 `prefix_of` σ -> read_ref σ0 e = Some r -> read_ref σ e = Some r.
Proof.
  intros Hpre. destruct e as [s|l]; simpl; [done |].
  destruct (σ0 !! l) eqn:E; [| done].
  by rewrite (prefix_lookup_Some _ _ _ _ E Hpre).
Qed.

Lemma read_keys_mono (σ0 σ : store) e ks :
  σ0 `prefix_of` σ -> read_keys σ0 e = Some ks -> read_keys σ e = Some ks.
Proof.
  intros Hpre. destruct e as [s|l]; simpl; [done |].
  destruct (σ0 !! l) eqn:E; [| done].
  by rewrite (prefix_lookup_Some _ _ _ _ E Hpre).
Qed.

Lemma read_items_mono (σ0 σ : store) its n :
  σ0 `prefix_of` σ -> read_items σ0 its = Some n -> read_items σ its = Some n.
Proof.
  intros Hpre. unfold read_items.
  destruct its as [|m [|ins [|outs [|]]]]; try done.
  - destruct (read_ref σ0 m) as [m'|] eqn:Em; [| done].
    destruct (read_keys σ0 ins) as [ins'|] eqn:Ei; [| done].
    by rewrite (read_ref_mono _ _ _ _ Hpre Em), (read_keys_mono _ _ _ _ Hpre Ei).
  - destruct (read_ref σ0 m) as [m'|] eqn:Em; [| done].
    destruct (read_keys σ0 ins) as [ins'|] eqn:Ei; [| done].
    destruct (read_keys σ0 outs) as [outs'|] eqn:Eo; [| done].
    by rewrite (read_ref_mono _ _ _ _ Hpre Em), (read_keys_mono _ _ _ _ Hpre Ei),
      (read_keys_mono _ _ _ _ Hpre Eo).
Qed.

Lemma read_modules_mono (σ0 σ : store) ms mods :
  σ0 `prefix_of` σ -> read_modules σ0 ms = Some mods ->
  read_modules σ ms = Some mods.
Proof.
  intros Hpre. unfold read_modules. rewrite !mapM_Some.
  intros H. eapply Forall2_impl; [exact H |]. intros [k e] km. cbn [fst snd].
  destruct (read_ref σ0 e) as [r|] eqn:E; [| done].
  by rewrite (read_ref_mono _ _ _ _ Hpre E).
Qed.

(** The first item of a node is its module reference, and the node read
    with another first item differs in that reference only. *)
Lemma read_items_inv (σ : store) its n :
  read_items σ its = Some n ->
  exists m tl,
    its = m :: tl
    /\ read_ref σ m = Some (node_0 n)
    /\ forall m' r, read_ref σ m' = Some r ->
         read_items σ (m' :: tl) = Some (MkNode r (node_1 n) (node_2 n)).
Proof.
  unfold read_items.
  destruct its as [|m [|ins [|outs [|]]]]; try done.
  - destruct (read_ref σ m) as [m1|] eqn:Em; [| done].
    destruct (read_keys σ ins) as [ins'|] eqn:Ei; [| done].
    intros [= <-]. exists m, [ins]. split_and!; [done.. |].
    intros m' r ->. simpl. by rewrite Ei.
  - destruct (read_ref σ m) as [m1|] eqn:Em; [| done].
    destruct (read_keys σ ins) as [ins'|] eqn:Ei; [| done].
    destruct (read_keys σ outs) as [outs'|] eqn:Eo; [| done].
    intros [= <-]. exists m, [ins; outs]. split_and!; [done.. |].
    intros m' r ->. simpl. by rewrite Ei, Eo.
Qed.

Lemma read_node_inv (σ : store) e n :
  read_node σ e = Some n ->
  exists r its,
    e = ERef r /\ read_items σ its = Some n
    /\ forall σ' : store, σ `prefix_of` σ' -> iter e σ' = (Ok its, σ').
Proof.
  destruct e as [s|r]; simpl; [done |].
  destruct (σ !! r) as [[m|its|its]|] eqn:E; try done; intros Hn;
    exists r, its; (split_and!; [done.. |]); intros σ' Hpre;
    by rewrite (prefix_lookup_Some _ _ _ _ E Hpre).
Qed.

Lemma read_modules_set (σ : store) ms mods k e m :
  read_modules σ ms = Some mods ->
  read_ref σ e = Some (Mod m) ->
  read_modules σ (PyDict.set k e ms) = Some (PyDict.set k m mods).
Proof.
  unfold read_modules. intros Hms He. revert mods Hms.
  induction ms as [|[k0 e0] ms IH]; intros mods Hms.
  - inversion Hms; subst. simpl. by rewrite He.
  - cbn [mapM] in Hms. cbn [fst snd] in Hms.
    destruct (read_ref σ e0) as [[s|m0]|] eqn:E0; try done.
    simpl in Hms. destruct (mapM _ ms) as [mods0|] eqn:Em; [| done].
    inversion Hms; subst; clear Hms. simpl. case_decide; subst.
    + cbn [mapM fst snd]. rewrite He. simpl. by rewrite Em.
    + cbn [mapM fst snd]. rewrite E0. simpl. by rewrite (IH mods0).
Qed.

Lemma update_cons {V} (d : list (string * V)) k v items :
  PyDict.update d ((k, v) :: items) = PyDict.update (PyDict.set k v d) items.
Proof. reflexivity. Qed.

(** The loop on a graph that reads as [d]: it completes; every node of the
    copy of the graph is then a list that reads as the node of [d] with its
    name for a reference, and the modules recorded read as those of [d]. *)
Lemma format_loop_refines (σ0 : store) dag (items0 : list elem) (d : DAG) :
  Forall2 (fun e n => read_node σ0 e = Some n) items0 d ->
  forall k i modules (σ : store) items mods,
    σ0 `prefix_of` σ ->
    length σ0 <= dag ->
    σ !! dag = Some (OList items) ->
    length items = length items0 ->
    i + k = length items0 ->
    (forall j, i <= j -> items !! j = items0 !! j) ->
    (forall j n, j < i -> d !! j = Some n ->
       exists nd its,
         items !! j = Some (ERef nd) /\ nd <> dag
         /\ σ !! nd = Some (OList its)
         /\ read_items σ0 its = Some (pure_node n)) ->
    read_modules σ0 modules = Some mods ->
    exists modules' (σ' : store) items',
      for_loop (format_node dag) (seq i k) modules σ = (Ok modules', σ')
      /\ σ0 `prefix_of` σ'
      /\ σ' !! dag = Some (OList items')
      /\ length items' = length items0
      /\ (forall j n, d !! j = Some n ->
            exists nd its,
              items' !! j = Some (ERef nd)
              /\ σ' !! nd = Some (OList its)
              /\ read_items σ0 its = Some (pure_node n))
      /\ read_modules σ0 modules'
          = Some (PyDict.update mods (inline_modules (drop i d))).
Proof.
  intros Hd. pose proof (Forall2_length _ _ _ Hd) as Hlen0.
  induction k as [|k IH];
    intros i modules σ items mods Hpre Hdag Hlook Hlen Hik Hrest Hdone Hmods.
  { exists modules, σ, items. simpl. split_and!; try done.
    - intros j n Hj. destruct (Hdone j n) as (nd & its & ? & ? & ? & ?); eauto.
      apply lookup_lt_Some in Hj. lia.
    - rewrite drop_ge by lia. done. }
  assert (i < length items0) as Hi by lia.
  destruct (lookup_lt_is_Some_2 items0 i Hi) as [e He].
  destruct (Forall2_lookup_l _ _ _ _ _ Hd He) as (n & Hn & Hread).
  assert (items !! i = Some e) as He' by (by rewrite Hrest).
  assert (dag < length σ) as Hlt by (by eapply lookup_lt_Some).
  assert (length σ0 <= length σ) as Hle by (by apply prefix_length).
  destruct (read_node_inv _ _ _ Hread) as (r & its & -> & Hits & Hiter).
  destruct (read_items_inv _ _ _ Hits) as (m & tl & -> & Hm & Hrepl).
  cbn [seq for_loop]. rewrite bind_unfold.
  rewrite (format_node_run _ _ _ _ _ _ Hlook He'), (Hiter σ Hpre).
  cbn [lookup list_lookup].
  assert (forall modules1 its1 mods1,
    read_items σ0 its1 = Some (pure_node n) ->
    read_modules σ0 modules1 = Some mods1 ->
    PyDict.update mods1 (inline_modules (drop (S i) d))
      = PyDict.update mods (inline_modules (drop i d)) ->
    exists modules' (σ' : store) items',
      for_loop (format_node dag) (seq (S i) k) modules1
        (<[dag := OList (<[i := ERef (length σ)]> items)]> (σ ++ [OList its1]))
        = (Ok modules', σ')
      /\ σ0 `prefix_of` σ'
      /\ σ' !! dag = Some (OList items')
      /\ length items' = length items0
      /\ (forall j n, d !! j = Some n ->
            exists nd its,
              items' !! j = Some (ERef nd)
              /\ σ' !! nd = Some (OList its)
              /\ read_items σ0 its = Some (pure_node n))
      /\ read_modules σ0 modules'
          = Some (PyDict.update mods (inline_modules (drop i d)))) as Hstep.
  { intros modules1 its1 mods1 Hits1 Hmods1 <-.
    apply (IH (S i) modules1 _ (<[i := ERef (length σ)]> items) mods1).
    - by apply prefix_step.
    - done.
    - rewrite list_lookup_insert_eq; [done |]. rewrite length_app. lia.
    - by rewrite length_insert.
    - lia.
    - intros j Hj. rewrite list_lookup_insert_ne by lia. apply Hrest. lia.
    - intros j n' Hj Hn'. destruct (decide (j = i)) as [->|Hne].
      + assert (n' = n) as -> by congruence.
        exists (length σ), its1. split_and!.
        * rewrite list_lookup_insert_eq; [done | lia].
        * lia.
        * rewrite list_lookup_insert_ne by lia. apply lookup_alloc.
        * done.
      + destruct (Hdone j n') as (nd & its' & Hj1 & Hj2 & Hj3 & Hj4); [lia | done |].
        exists nd, its'. split_and!; try done.
        * by rewrite list_lookup_insert_ne.
        * rewrite list_lookup_insert_ne by done.
          rewrite lookup_app_l; [done | by eapply lookup_lt_Some].
    - done. }
  rewrite (drop_S _ _ _ Hn) in Hstep |- *.
  destruct (node_0 n) as [s|mm] eqn:En.
  - (* the node refers to its module by name *)
    assert (m = EStr s) as ->.
    { destruct m as [s'|l]; simpl in Hm; [congruence |].
      by destruct (σ0 !! l) as [[]|]. }
    cbn [as_module fst]. cbn iota.
    apply (Hstep modules (EStr s :: tl) mods); [| done |].
    + rewrite Hits. f_equal. symmetry. by eapply pure_node_key.
    + unfold inline_modules. cbn [omap list_omap]. by rewrite En.
  - (* the node embeds an instance *)
    destruct m as [s'|l]; simpl in Hm; [congruence |].
    destruct (σ0 !! l) as [[m0| |]|] eqn:El; try done.
    assert (m0 = mm) as -> by congruence.
    assert ((σ ++ [OList (ERef l :: tl)]) !! l = Some (OModule mm)) as El'.
    { apply lookup_app_l_Some. by eapply prefix_lookup_Some. }
    unfold as_module. rewrite El'. cbn [fst]. cbn iota.
    apply (Hstep _ (EStr (name mm) :: tl) (PyDict.set (name mm) mm mods)).
    + rewrite (Hrepl (EStr (name mm)) (Key (name mm))) by done.
      unfold pure_node. by rewrite En.
    + apply read_modules_set; [done |]. simpl. by rewrite El.
    + unfold inline_modules. cbn [omap list_omap]. rewrite En. reflexivity.
Qed.

(** On a graph of the store that reads as [d], be its sequences lists or
    tuples, [format_dag] completes, and what it returns reads as what
    [format_dag] returns on [d]. *)
Lemma format_dag_refines (dag : elem) (σ : store) (d : DAG) :
  read_dag σ dag = Some d ->
  exists dag' modules (σ' : store),
    Objects.format_dag dag σ = (Ok (dag', modules), σ')
    /\ read_dag σ' (ERef dag') = Some (format_values d).1
    /\ read_modules σ' modules = Some (format_values d).2.
Proof.
  intros Hd.
  assert (exists items0,
    iter dag σ = (Ok items0, σ)
    /\ Forall2 (fun e n => read_node σ e = Some n) items0 d)
    as (items0 & Hiter & Hd2).
  { destruct dag as [s|r]; simpl in Hd; [done |]. unfold iter.
    destruct (σ !! r) as [[m|its|its]|]; try done;
      exists its; by rewrite <- mapM_Some. }
  pose proof (Forall2_length _ _ _ Hd2) as Hlen.
  destruct (format_loop_refines σ (length σ) items0 d Hd2 (length items0) 0 []
              (σ ++ [OList items0]) items0 [])
    as (modules' & σ' & items' & Hloop & Hpre & Hdag' & Hlen' & Hnodes & Hmods);
    try done.
  { by apply prefix_app_r. }
  { apply lookup_alloc. }
  { intros j n Hj. lia. }
  exists (length σ), modules', σ'. rewrite format_dag_eq. cbn [fst snd].
  split_and!.
  - unfold Objects.format_dag, list_.
    rewrite (bind_unfold (iter dag ≫= new_list)), (bind_unfold (iter dag)), Hiter.
    change (new_list items0 σ) with (Ok (length σ), σ ++ [OList items0]). cbn iota.
    rewrite (bind_ok_l _ _ _ _ _ (len_list _ _ _ (lookup_alloc _ _))).
    rewrite bind_unfold, Hloop. reflexivity.
  - simpl. rewrite Hdag'. apply mapM_Some.
    apply Forall2_same_length_lookup_2.
    { rewrite length_fmap. lia. }
    intros j x y Hx Hy. rewrite list_lookup_fmap in Hy.
    destruct (d !! j) as [n|] eqn:Hn; [| done]. inversion Hy; subst.
    destruct (Hnodes j n Hn) as (nd & its & Hj1 & Hj2 & Hj3).
    assert (x = ERef nd) as -> by congruence. simpl. rewrite Hj2.
    by apply (read_items_mono σ).
  - by apply (read_modules_mono σ).
Qed.

(** C8: [format_dag] has no effect on the objects of the caller, be the
    graph made of lists, of tuples or of both.  The store it leaves begins
    with the store it was given, so the graph, its nodes, their key lists
    and the instances are as they were; it never assigns to an item of a
    tuple; the graph it returns is a new list whose nodes are new lists; the
    modules it returns are the caller's instances.  On every graph that is
    well formed it completes, and returns what [format_dag] on values
    returns. *)
Theorem format_dag_frame (dag : elem) (σ : store) :
  σ `prefix_of` (Objects.format_dag dag σ).2
  /\ (Objects.format_dag dag σ).1 <> Err immutable
  /\ (forall dag' modules,
        (Objects.format_dag dag σ).1 = Ok (dag', modules) ->
        length σ <= dag'
        /\ (exists nodes,
              (Objects.format_dag dag σ).2 !! dag' = Some (OList nodes)
              /\ Forall (fresh_list σ (Objects.format_dag dag σ).2) nodes)
        /\ Forall (names_instance σ) modules)
  /\ (forall d,
        read_dag σ dag = Some d ->
        exists dag' modules,
          (Objects.format_dag dag σ).1 = Ok (dag', modules)
          /\ read_dag (Objects.format_dag dag σ).2 (ERef dag')
              = Some (format_values d).1
          /\ read_modules (Objects.format_dag dag σ).2 modules
              = Some (format_values d).2).
Proof.
  destruct (format_dag_only_appends dag σ) as (Hpre & Himm & Hnew).
  split_and!; [done.. |]. intros d Hd.
  destruct (format_dag_refines dag σ d Hd) as (dag' & modules & σ' & -> & ? & ?).
  by exists dag', modules.
Qed.

End Refinement.

(** ** The theorems at work *)

(** A graph given as a tuple of tuples is normalised without an exception;
    the seven objects of the caller are still there, followed by the new
    graph and its two new nodes. *)
Lemma format_dag_tuples :
  Objects.format_dag (Objects.ERef 6) (Objects.tuple_store seven)
  = (Ok (7, [("seven", Objects.ERef 3)]),
     Objects.tuple_store seven ++
     [ Objects.OList [Objects.ERef 8; Objects.ERef 9];
       Objects.OList [Objects.EStr "enc"; Objects.ERef 0; Objects.ERef 1];
       Objects.OList [Objects.EStr "seven"; Objects.ERef 4] ]).
Proof. reflexivity. Qed.

(** On that graph the two models of [format_dag] agree. *)
Lemma format_dag_tuples_agree :
  (d ← Objects.read_dag (Objects.tuple_store seven) (Objects.ERef 6);
   Some (format_dag d))
  = (let '(r, σ) := Objects.format_dag (Objects.ERef 6) (Objects.tuple_store seven) in
     match r with
     | Ok (dag', modules) =>
         d ← Objects.read_dag σ (Objects.ERef dag');
         m ← Objects.read_modules σ modules;
         Some (d, m)
     | Err _ => None
     end).
Proof. reflexivity. Qed.

(** The run of [broken_dag]: the first node is called, the second raises
    on its key, the third is never called. *)
Lemma broken_run :
  run_dag plain digit_label None broken_layer 0 (Some false) [] scenario_world
  = (Err (KeyError "double/z"),
     World [ [("x", scalar 3)]; [("y", scalar 6)] ] [] [("double", Default)]).
Proof. reflexivity. Qed.

(** The layers of the scenarios are what the constructor returns. *)
Lemma scenario_layers_constructed :
  DAGLayer_init plain scenario_dag [("double", KwModule double)]
    = Ok scenario_layer
  /\ scenario_layer = MkDAGLayer scenario_dag ["double"] [("double", double)]
  /\ DAGLayer_init plain mixed_dag
       [ ("synth", KwModule synth); ("loss", KwModule loss);
         ("double", KwModule double) ] = Ok mixed_layer.
Proof. split_and!; reflexivity. Qed.

(** The run of a processor that has [get_losses_dict], a loss and a
    network, from [dispatch_precedence]: the processor is called as a
    processor, the loss by [get_losses_dict], the network as it is. *)
Lemma dispatch_precedence_mixed :
  [("synth", Processor); ("loss", Loss); ("double", Default)]
  = [] ++ (node_call plain mixed_layer <$> dag mixed_layer)
  /\ exists o1 mo1 w1 ins r h w2,
       (o ← init_outputs 0;
        for_loop (run_node plain digit_label None mixed_layer false [])
          [] (o, None)) scenario_world = (Ok (o1, mo1), w1)
       /\ for_each_result (fun k => nested_lookup k o1 (w_heap w1)) [] = Ok ins
       /\ entry synth ins (entry_kwargs synth []) (w_heap w1) = (Ok r, h)
       /\ (selected synth = Processor ->
           PyDict.get "return_outputs_dict" ([] : dict value) = None)
       /\ (let v := if is_dict r then r else VDict (length h) in
           run_node plain digit_label None mixed_layer false []
             (o1, mo1) (MkNode (Key "synth") [] (Some ["s"])) w1
           = (Ok (PyDict.set "synth" v o1, Some v), w2))
       /\ w_calls w2 = w_calls w1 ++ [("synth", selected synth)].
Proof.
  destruct (dispatch_precedence plain digit_label None mixed_layer 0 (Some false) []
              scenario_world
              (World [ [("x", scalar 3)]; [("s", VTensor [] [1%Z])];
                       [("l", VTensor [] [2%Z])]; [("y", scalar 6)] ] []
                 [("synth", Processor); ("loss", Loss); ("double", Default)])
              [ ("inputs", VDict 0); ("x", scalar 3); ("synth", VDict 1);
                ("loss", VDict 2); ("double", VDict 3); ("out", VDict 3) ]
              eq_refl) as (Hcalls & Hnode & _).
  split; [exact Hcalls |].
  apply (Hnode [] (MkNode (Key "synth") [] (Some ["s"]))
           [ MkNode (Key "loss") ["synth/s"] (Some ["l"]);
             MkNode (Key "double") ["inputs/x"] (Some ["y"]) ]
           "synth" synth); reflexivity.
Defined.



(** The alias in the run of the mixed graph, of three nodes, from
    [out_aliases_last]: [out] is the dictionary of the last node, [double]. *)
Lemma out_aliases_last_mixed :
  exists node key l,
    last (dag mixed_layer) = Some node
    /\ node_0 node = Key key
    /\ PyDict.get "out"
         [ ("inputs", VDict 0); ("x", scalar 3); ("synth", VDict 1);
           ("loss", VDict 2); ("double", VDict 3); ("out", VDict 3) ]
       = Some (VDict l)
    /\ PyDict.get key
         [ ("inputs", VDict 0); ("x", scalar 3); ("synth", VDict 1);
           ("loss", VDict 2); ("double", VDict 3); ("out", VDict 3) ]
       = Some (VDict l).
Proof.
  apply (out_aliases_last plain digit_label None mixed_layer 0 (Some false) []
           scenario_world
           (World [ [("x", scalar 3)]; [("s", VTensor [] [1%Z])];
                    [("l", VTensor [] [2%Z])]; [("y", scalar 6)] ] []
              [("synth", Processor); ("loss", Loss); ("double", Default)])).
  reflexivity.
Defined.


(** The node [double] of the scenario run on the input
    [{"inputs": {"x": 3}}], from [inputs_key_overrides]. *)
Lemma inputs_key_overrides_scenario :
  PyDict.get "inputs" [("inputs", VDict 1); ("double", VDict 2)] = Some (VDict 1)
  /\ forall p h,
       nested_lookup ("inputs/" +:+ p)
         [("inputs", VDict 1); ("double", VDict 2)] h =
       match lookup_path h (split_on "/" p) (VDict 1) with
       | Some x => Ok x
       | None => Err (KeyError ("inputs/" +:+ p))
       end.
Proof.
  apply (inputs_key_overrides plain digit_label None scenario_layer false [] 0
           [("inputs", VDict 1)] (VDict 1) scenario_dag shadow_world
           (World [ [("inputs", VDict 1)]; [("x", scalar 3)]; [("y", scalar 6)] ]
              [] [("double", Default)])
           [("inputs", VDict 1); ("double", VDict 2)] (Some (VDict 2))).
  - reflexivity.
  - apply NoDup_singleton.
  - reflexivity.
  - repeat constructor. discriminate.
  - reflexivity.
Defined.

(** * Further properties of the code *)

(** ** The keyword arguments of the constructor *)

Section KerasKwargs.
Import PyDict PyDictFacts.

(** Both parts of the result of [split_keras_kwargs], key by key. *)
Lemma split_keras_kwargs_get (kwargs : dict kwarg) :
  NoDup (keys kwargs) ->
  NoDup (keys (split_keras_kwargs kwargs).2)
  /\ (forall k, get k (split_keras_kwargs kwargs).1 =
        if bool_decide (k ∈ ["training"; "mask"; "name"])
           && is_not_None (get k kwargs)
        then get k kwargs else None)
  /\ (forall k, get k (split_keras_kwargs kwargs).2 =
        if bool_decide (k ∈ ["training"; "mask"; "name"])
           && is_not_None (get k kwargs)
        then None else get k kwargs).
Proof.
  intros Hd. unfold split_keras_kwargs.
  match goal with |- context [fold_left ?f _ _] => set (step := f) end.
  cbn [fold_left].
  assert (forall st key, NoDup (keys st.2) ->
    NoDup (keys (step st key).2)
    /\ (forall k, get k (step st key).1 =
          if decide (k = key) then
            (if is_not_None (get key st.2) then get key st.2 else get k st.1)
          else get k st.1)
    /\ (forall k, get k (step st key).2 =
          if decide (k = key) then
            (if is_not_None (get key st.2) then None else get k st.2)
          else get k st.2)) as Hstep.
  { intros [kk kw] key Hkw. unfold step. cbn [fst snd] in *.
    destruct (is_not_None (get key kw)) eqn:En.
    - destruct (get key kw) as [v|] eqn:Ek; [| done]. cbn [fst snd].
      split_and!; [by apply NoDup_keys_remove | |]; intros k.
      + rewrite get_set. destruct (decide (key = k)) as [->|].
        * by rewrite decide_True.
        * by rewrite decide_False.
      + rewrite get_remove by done. destruct (decide (key = k)) as [->|].
        * by rewrite decide_True.
        * by rewrite decide_False.
    - cbn [fst snd]. split_and!; [done | |]; intros k; case_decide; by subst. }
  destruct (Hstep ([], kwargs) "training" Hd) as (N1 & K1 & G1).
  destruct (Hstep _ "mask" N1) as (N2 & K2 & G2).
  destruct (Hstep _ "name" N2) as (N3 & K3 & G3).
  split_and!; [done | |]; intros k.
  - repeat (rewrite K3 || rewrite K2 || rewrite K1 || rewrite G2 || rewrite G1).
    cbn [fst snd get].
    destruct (decide (k = "training")) as [->|H1];
      [| destruct (decide (k = "mask")) as [->|H2];
         [| destruct (decide (k = "name")) as [->|H3]]].
    + cbn. by destruct (is_not_None _).
    + cbn. by destruct (is_not_None _).
    + cbn. by destruct (is_not_None _).
    + rewrite bool_decide_eq_false_2; [done |].
      rewrite !elem_of_cons, elem_of_nil. tauto.
  - repeat (rewrite G3 || rewrite G2 || rewrite G1). cbn [snd].
    destruct (decide (k = "training")) as [->|H1];
      [| destruct (decide (k = "mask")) as [->|H2];
         [| destruct (decide (k = "name")) as [->|H3]]].
    + cbn. by destruct (is_not_None _).
    + cbn. by destruct (is_not_None _).
    + cbn. by destruct (is_not_None _).
    + rewrite bool_decide_eq_false_2; [done |].
      rewrite !elem_of_cons, elem_of_nil. tauto.
Qed.

End KerasKwargs.

Section KerasKwargsProperties.
Import PyDict PyDictFacts.

Lemma is_not_None_Some (v : kwarg) :
  is_not_None (Some v) = true <-> v <> KwValue VNone.
Proof.
  destruct v as [m|[]]; simpl; split; try done; intros H; by destruct H.
Qed.

(** X1: [split_keras_kwargs] splits a dictionary of keyword arguments in
    two: the keras part holds exactly the bindings of [training], [mask]
    and [name] whose value is not [None], the other part exactly the
    remaining bindings, a keras kwarg that is [None] included. *)
Theorem split_keras_kwargs_partition (kwargs : dict kwarg) :
  NoDup (keys kwargs) ->
  (forall k v,
     get k (split_keras_kwargs kwargs).1 = Some v <->
     k ∈ ["training"; "mask"; "name"] /\ get k kwargs = Some v
     /\ v <> KwValue VNone)
  /\ (forall k v,
        get k (split_keras_kwargs kwargs).2 = Some v <->
        get k kwargs = Some v
        /\ (k ∈ ["training"; "mask"; "name"] -> v = KwValue VNone)).
Proof.
  intros Hd. destruct (split_keras_kwargs_get kwargs Hd) as (_ & K & G).
  split; intros k v.
  - rewrite K.
    destruct (bool_decide_reflect (k ∈ ["training"; "mask"; "name"])) as [Hk|Hk];
      cbn [andb].
    + destruct (get k kwargs) as [v'|] eqn:E.
      * destruct (is_not_None (Some v')) eqn:En.
        -- apply is_not_None_Some in En. split.
           ++ intros [= <-]. done.
           ++ by intros (_ & ? & _).
        -- split; [done |]. intros (_ & [= <-] & Hv).
           apply is_not_None_Some in Hv. congruence.
      * simpl. split; [done | by intros (_ & ? & _)].
    + split; [done | by intros (? & _)].
  - rewrite G.
    destruct (bool_decide_reflect (k ∈ ["training"; "mask"; "name"])) as [Hk|Hk];
      cbn [andb].
    + destruct (get k kwargs) as [v'|] eqn:E.
      * destruct (is_not_None (Some v')) eqn:En.
        -- apply is_not_None_Some in En. split; [done |].
           intros ([= <-] & Hv). by specialize (Hv Hk).
        -- split.
           ++ intros [= <-]. split; [done |]. intros _.
              destruct v' as [m|[]]; simpl in En; done.
           ++ by intros (? & _).
      * simpl. split; [done | by intros (? & _)].
    + split; [intros ->; split; [done | by intros ?] | by intros (? & _)].
Qed.

(** X2: splitting the other part once more strips nothing from it. *)
Theorem split_keras_kwargs_again (kwargs : dict kwarg) :
  NoDup (keys kwargs) ->
  split_keras_kwargs (split_keras_kwargs kwargs).2
  = ([], (split_keras_kwargs kwargs).2).
Proof.
  intros Hd. destruct (split_keras_kwargs_get kwargs Hd) as (_ & _ & G).
  set (rest := (split_keras_kwargs kwargs).2) in *.
  assert (forall key, key ∈ ["training"; "mask"; "name"] ->
                      is_not_None (get key rest) = false) as Hnn.
  { intros key Hkey. rewrite G, bool_decide_eq_true_2 by done. cbn [andb].
    by destruct (is_not_None (get key kwargs)) eqn:E. }
  unfold split_keras_kwargs. cbn [fold_left].
  rewrite (Hnn "training") by (rewrite !elem_of_cons; tauto).
  rewrite (Hnn "mask") by (rewrite !elem_of_cons; tauto).
  rewrite (Hnn "name") by (rewrite !elem_of_cons; tauto).
  reflexivity.
Qed.

(** X3: on a dictionary, [filter_by_value] returns the items whose value
    satisfies the condition, in the order they had: going through
    [dict(...)] neither drops nor moves an item. *)
Theorem filter_by_value_dict {V} (d : dict V) (cond : V -> bool) :
  NoDup (keys d) ->
  filter_by_value d cond = filter (fun e => cond e.2) d
  /\ NoDup (keys (filter_by_value d cond))
  /\ forall k,
       get k (filter_by_value d cond) =
       match get k d with
       | Some v => if cond v then Some v else None
       | None => None
       end.
Proof.
  intros Hd. unfold filter_by_value.
  rewrite of_items_NoDup by (by apply NoDup_keys_filter).
  split_and!; [done | by apply NoDup_keys_filter |].
  intros k. by apply get_filter.
Qed.

End KerasKwargsProperties.

(** ** The layer that the constructor builds *)

Section LayerProperties.
Import PyDict PyDictFacts.
Variable lib : Library.

Lemma get_of_elem {V} k (v : V) (d : list (string * V)) :
  NoDup (keys d) -> (k, v) ∈ d -> get k d = Some v.
Proof.
  unfold keys. induction d as [|[k0 v0] d IH]; intros Hd Hin; [inversion Hin |].
  inversion Hd as [|? ? Hk0 Hd']; subst. simpl.
  inversion Hin; subst.
  - by rewrite decide_True.
  - case_decide; subst; [| auto].
    destruct Hk0. apply list_elem_of_fmap. by exists (k0, v).
Qed.

Lemma for_each_result_ok {A B} (f : A -> result B) l l' :
  Forall2 (fun a b => f a = Ok b) l l' -> for_each_result f l = Ok l'.
Proof.
  induction 1 as [|a b l l' Hab _ IH]; [done |].
  cbn [for_each_result]. by rewrite Hab, IH.
Qed.

(** What the constructor returns, when it returns. *)
Lemma DAGLayer_init_ok graph kwarg_modules self :
  DAGLayer_init lib graph kwarg_modules = Ok self ->
  let modules := update (external_modules kwarg_modules) (format_dag graph).2 in
  self = MkDAGLayer (format_dag graph).1 (keys modules) modules
  /\ NoDup (keys modules)
  /\ forall k, k ∈ keys modules -> k <> "modules" /\ read_only lib k = false.
Proof.
  rewrite DAGLayer_init_eq. destruct (layer_init lib _); [done |].
  destruct (find _ _) eqn:Hfind; [done |]. intros [= <-]. split_and!; [done | |].
  - apply NoDup_keys_update, NoDup_external_modules.
  - intros k. by apply find_refused_None.
Qed.

(** X4: the [modules] getter of a constructed layer returns the registered
    instances, one for each key of the registry, in the order of
    registration, and none of its lookups fails; unless an instance is
    itself registered as [module_names], the list the getter would go
    through: it then raises. *)
Theorem modules_getter (graph : DAG) (kwarg_modules : dict kwarg)
  (self : DAGLayer) :
  DAGLayer_init lib graph kwarg_modules = Ok self ->
  modules lib self =
  match get "module_names" (attrs self) with
  | None => Ok ((fun e => AModule e.2) <$> attrs self)
  | Some _ => Err (TypeError "object is not iterable")
  end.
Proof.
  intros (-> & Hnd & Hok)%DAGLayer_init_ok.
  set (registry := update _ _) in *.
  unfold modules, lookup_attribute. cbn [attrs dag module_names].
  destruct (get "module_names" registry) eqn:Hnames; [done |].
  rewrite decide_False, decide_True by done.
  apply for_each_result_ok. unfold keys.
  apply Forall2_fmap, Forall_Forall2_diag, Forall_forall. intros [k m] Hin.
  cbn [fst snd].
  assert (k ∈ keys registry) as Hk
    by (apply list_elem_of_fmap; by exists (k, m)).
  destruct (Hok k Hk) as [Hmod _]. rewrite decide_False by done.
  cbn [attrs]. by rewrite (get_of_elem k m registry Hnd Hin).
Qed.

(** X5: normalising a normalised graph changes nothing and extracts
    nothing. *)
Theorem format_dag_idempotent (dag : DAG) :
  format_dag (format_dag dag).1 = ((format_dag dag).1, []).
Proof.
  rewrite (format_dag_eq dag). cbn [fst]. rewrite format_dag_eq.
  destruct (inline_modules_pure (pure_node <$> dag)) as [-> ->]; [| done].
  apply Forall_fmap, Forall_true. done.
Qed.

(** X6: a node that embeds an instance is, in a constructed layer, a node
    of the stored graph that names it, and the name resolves: to an
    instance of that name embedded in the graph, and to the very instance
    of the node when the names of the embedded instances are distinct.  The
    attribute [dag] is the stored graph unless an instance is registered as
    [dag]: the attribute then is that instance, and no graph. *)
Theorem inline_instance_resolves (graph : DAG) (kwarg_modules : dict kwarg)
  (self : DAGLayer) (i : nat) (node : Node) (m : module) :
  DAGLayer_init lib graph kwarg_modules = Ok self ->
  graph !! i = Some node ->
  node_0 node = Mod m ->
  exists node' m',
    dag self !! i = Some node'
    /\ node_0 node' = Key (name m)
    /\ node_1 node' = node_1 node
    /\ getattr lib self (name m) = Ok (AModule m')
    /\ name m' = name m
    /\ (NoDup (inline_modules graph).*1 -> m' = m)
    /\ getattr lib self "dag" =
         match get "dag" (attrs self) with
         | None => Ok (AGraph (dag self))
         | Some m => Ok (AModule m)
         end.
Proof.
  intros (-> & Hnd & Hok)%DAGLayer_init_ok Hi Hm.
  rewrite format_dag_eq in *. cbn [fst snd dag attrs] in *.
  assert ((name m, m) ∈ inline_modules graph) as Hin.
  { apply inline_modules_elem. split; [done |]. exists node.
    split; [by eapply list_elem_of_lookup_2 | done]. }
  destruct (get (name m) (reverse (inline_modules graph))) as [m'|] eqn:Hget.
  2:{ apply get_None_keys in Hget. destruct Hget. unfold keys.
      rewrite fmap_reverse, elem_of_reverse. apply list_elem_of_fmap.
      by exists (name m, m). }
  assert (get (name m)
            (update (external_modules kwarg_modules)
               (of_items (inline_modules graph))) = Some m') as Hreg
    by (by rewrite get_update_of_items, get_update, Hget).
  exists (pure_node node), m'. split_and!.
  - by rewrite list_lookup_fmap, Hi.
  - simpl. by rewrite Hm.
  - done.
  - apply getattr_module; [| done].
    apply Hok, get_Some_keys. eauto.
  - apply get_elem in Hget. rewrite elem_of_reverse in Hget.
    apply inline_modules_elem in Hget as [-> _]. done.
  - intros Hnd'. rewrite get_reverse_NoDup in Hget by done.
    rewrite (get_of_elem _ _ _ Hnd' Hin) in Hget. congruence.
  - unfold getattr, lookup_attribute. rewrite decide_False by done.
    cbn [attrs dag]. by destruct (get "dag" _).
Qed.

End LayerProperties.

(** ** Verbosity is a diagnostic *)

Section Blind.
Import PyDict PyDictFacts.
Variable lib : Library.
Variable default_label : nat -> string.
Variable gin_verbose : option bool.

#[local] Abbreviation call_attribute := (call_attribute lib gin_verbose).

Lemma blind_ret {A} (a : A) : log_blind (mret a).
Proof. done. Qed.

Lemma blind_raise {A} e : log_blind (raise e : M A).
Proof. done. Qed.

Lemma blind_lift {A} (r : result A) : log_blind (lift r).
Proof. done. Qed.

Lemma blind_bind {A B} (m : M A) (f : A -> M B) :
  log_blind m -> (forall a, log_blind (f a)) -> log_blind (m ≫= f).
Proof.
  intros Hm Hf w l. rewrite !bind_unfold, Hm.
  destruct (m w) as [[a|e] w1]; cbn [fst snd]; [apply Hf | done].
Qed.

Lemma blind_invoke c key f args kwargs : log_blind (invoke c key f args kwargs).
Proof. intros w l. unfold invoke. simpl. by destruct (f _ _ _). Qed.

Lemma blind_dispatch key m inputs kwargs : log_blind (dispatch key m inputs kwargs).
Proof.
  unfold dispatch.
  destruct (is_processor m); [| destruct (is_loss m)].
  - destruct (get _ _); [apply blind_raise | apply blind_invoke].
  - destruct (get_losses_dict m); [apply blind_invoke | apply blind_raise].
  - apply blind_invoke.
Qed.

Lemma blind_call_attribute self key a inputs kwargs :
  log_blind (call_attribute no_run self key a inputs kwargs).
Proof.
  assert (forall key args kwargs,
            log_blind (run_dag_method gin_verbose no_run key args kwargs)) as Hrun.
  { intros k args kw. unfold run_dag_method.
    apply blind_bind; [apply blind_lift | intros [[i v] kw']].
    apply blind_bind; [done | intros _].
    apply blind_bind; [apply blind_raise | done]. }
  destruct a as [m|d|names|items|[]|o]; unfold call_attribute;
    try apply blind_dispatch; try apply blind_raise; try apply Hrun;
    try apply blind_invoke.
  unfold call_method.
  apply blind_bind; [apply blind_lift | intros [i kw]].
  apply blind_bind; [apply blind_lift | intros a].
  destruct a as [m|d|names|items|[]|o];
    try apply blind_raise; try apply Hrun; apply blind_invoke.
Qed.

Lemma blind_to_dict x ks : log_blind (to_dict default_label x ks).
Proof. unfold to_dict. by case_decide. Qed.

Lemma blind_shaping (r : value) ks :
  log_blind (if negb (is_dict r) then to_dict default_label r ks else mret r).
Proof. destruct (negb _); [apply blind_to_dict | apply blind_ret]. Qed.

Lemma blind_init_outputs inputs : log_blind (init_outputs inputs).
Proof.
  intros w l. unfold init_outputs, deref. rewrite !bind_unfold. simpl.
  by destruct (w_heap w !! inputs).
Qed.

Lemma blind_alias_out st : log_blind (alias_out st).
Proof. destruct st as [o [mo|]]; [apply blind_ret | apply blind_raise]. Qed.

(** A computation that is blind to the log, run in a world that differs from
    [w] in its log only. *)
Lemma blind_transfer {A} (m : M A) w w2 r w3 :
  log_blind m ->
  (forall l, with_log l w2 = with_log l w) ->
  m w2 = (r, w3) ->
  forall l, m (with_log l w) = (r, with_log l w3).
Proof. intros Hm Hw E l. by rewrite <- Hw, Hm, E. Qed.

End Blind.

Section Diagnostic.
Import PyDict PyDictFacts.
Variable lib : Library.
Variable default_label : nat -> string.
Variable gin_verbose : option bool.

#[local] Abbreviation run_node_with := (run_node_with lib default_label gin_verbose).
#[local] Abbreviation run_dag := (run_dag lib default_label gin_verbose).

Lemma run_node_quiet_of_verbose self kwargs st node w st' w' :
  run_node_with no_run self (VBool true) kwargs st node w = (Ok st', w') ->
  forall l,
    run_node_with no_run self (VBool false) kwargs st node (with_log l w)
    = (Ok st', with_log l w').
Proof.
  destruct st as [outputs mo]. intros H l.
  apply run_node_stages in H
    as (key & m & inputs & r & r' & w2 & w3 & w4
        & Hkey & Hm & Hin & Hw2 & Hr & Hr' & Hw' & ->).
  rewrite Hw'.
  eapply run_node_of_stages; [done | done | done | |].
  - apply (blind_transfer _ w w2); [apply blind_call_attribute | done | done].
  - by rewrite (blind_shaping default_label), Hr'.
Qed.

Lemma for_loop_quiet_of_verbose self kwargs nodes : forall st w st' w',
  for_loop (run_node_with no_run self (VBool true) kwargs) nodes st w = (Ok st', w') ->
  forall l,
    for_loop (run_node_with no_run self (VBool false) kwargs) nodes st (with_log l w)
    = (Ok st', with_log l w').
Proof.
  induction nodes as [|node nodes IH]; intros st w st' w' H l.
  - by injection H as <- <-.
  - cbn [for_loop] in *. apply bind_ok_inv in H as (st1 & w1 & E & H).
    rewrite (bind_ok_l _ _ _ _ _ (run_node_quiet_of_verbose _ _ _ _ _ _ _ E l)).
    by apply IH.
Qed.

(** X10: verbosity decides what is logged and nothing else.  When the run
    with [verbose=True] returns, the run with [verbose=False] returns the
    same namespace and leaves the same heap and the same calls; its log is
    the one it started with. *)
Theorem verbose_is_diagnostic (self : DAGLayer)
  (inputs : loc) (kwargs : dict value) (w w' : world) (outputs : dict value) :
  run_dag self inputs (Some true) kwargs w = (Ok outputs, w') ->
  run_dag self inputs (Some false) kwargs w
    = (Ok outputs, with_log (w_log w) w').
Proof.
  intros (o0 & st & Hinit & Hd & Hloop & Hout)%run_dag_returned.
  cbn [verbose_or_default] in Hloop.
  rewrite run_dag_eq, (bind_ok_l _ _ _ _ _ Hinit), Hd.
  rewrite bind_unfold. unfold lift at 1, run_node. cbn [verbose_or_default].
  pose proof (for_loop_quiet_of_verbose _ _ _ _ _ _ _ Hloop (w_log w)) as E1.
  rewrite with_log_own in E1.
  rewrite (bind_ok_l _ _ _ _ _
             (flat_loop_returned lib default_label gin_verbose _ _ _ _ _ _ _ _ _ E1)).
  by rewrite (blind_alias_out st), Hout.
Qed.

End Diagnostic.
(** ** The order of the calls *)

Section CallOrder.
Import PyDict PyDictFacts.
Variable lib : Library.
Variable default_label : nat -> string.
Variable gin_verbose : option bool.

#[local] Abbreviation run_dag := (run_dag lib default_label gin_verbose).

(** X7: a run that returns has called the module of every node once, in
    the order of the graph, and no other. *)
Theorem calls_in_graph_order (self : DAGLayer) (inputs : loc)
  (verbose : option bool) (kwargs : dict value) (w w' : world)
  (outputs : dict value) :
  run_dag self inputs verbose kwargs w = (Ok outputs, w') ->
  (w_calls w').*1
  = (w_calls w).*1 ++ ((fun node => ref_name (node_0 node)) <$> dag self).
Proof.
  intros H. apply run_dag_calls in H. rewrite H, fmap_app. f_equal.
  rewrite <- list_fmap_compose. by apply list_fmap_ext.
Qed.

End CallOrder.

(** ** The keys of the namespace *)

Section Namespace.
Import PyDict PyDictFacts.
Variable lib : Library.
Variable default_label : nat -> string.
Variable gin_verbose : option bool.

#[local] Abbreviation run_node_with := (run_node_with lib default_label gin_verbose).
#[local] Abbreviation run_dag := (run_dag lib default_label gin_verbose).

Lemma keys_update_elem {V} k (a b : list (string * V)) :
  k ∈ keys (update a b) <-> k ∈ keys a \/ k ∈ keys b.
Proof.
  rewrite <- !get_Some_keys, get_update.
  assert (is_Some (get k (reverse b)) <-> is_Some (get k b)) as Hrev.
  { rewrite !get_Some_keys. unfold keys. by rewrite fmap_reverse, elem_of_reverse. }
  destruct (get k (reverse b)) as [v|] eqn:E; simpl.
  - split; [intros _; right; apply Hrev; eauto | eauto].
  - split; [by left | intros [H|H]; [done |]].
    apply Hrev in H. by destruct H.
Qed.

Lemma keys_set_elem {V} k key (v : V) (o : list (string * V)) :
  k ∈ keys (set key v o) <-> k = key \/ k ∈ keys o.
Proof.
  rewrite keys_set. case_decide.
  - split; [by right | intros [->|]; done].
  - rewrite elem_of_app, list_elem_of_singleton. tauto.
Qed.

(** The nodes add their names to the namespace, each bound to a
    dictionary, and remove nothing. *)
Lemma for_loop_namespace run self verbose kwargs nodes : forall o mo w o' mo' w',
  for_loop (run_node_with run self verbose kwargs) nodes (o, mo) w
    = (Ok (o', mo'), w') ->
  (forall k, k ∈ keys o' <->
             k ∈ keys o \/ k ∈ ((fun node => ref_name (node_0 node)) <$> nodes))
  /\ (forall k l, get k o = Some (VDict l) -> exists l', get k o' = Some (VDict l'))
  /\ (forall node, node ∈ nodes ->
        exists l, get (ref_name (node_0 node)) o' = Some (VDict l))
  /\ ((exists l, mo = Some (VDict l)) \/ nodes <> [] ->
      exists l', mo' = Some (VDict l')).
Proof.
  induction nodes as [|node nodes IH]; intros o mo w o' mo' w' H.
  - injection H as <- <- <-. split_and!.
    + intros k. rewrite elem_of_nil. tauto.
    + eauto.
    + intros node Hn. inversion Hn.
    + intros [?|?]; done.
  - cbn [for_loop] in H. apply bind_ok_inv in H as (st1 & w1 & E & H).
    apply run_node_with_ok in E as (key & l & Hkey & ->).
    destruct (IH _ _ _ _ _ _ H) as (Hk & Hd & Hn & Hmo). split_and!.
    4:{ intros _. apply Hmo. left. eauto. }
    + intros k. rewrite Hk, keys_set_elem, fmap_cons, elem_of_cons, Hkey. simpl.
      tauto.
    + intros k l0 Hget. destruct (decide (key = k)) as [<-|Hne].
      * apply (Hd key l). apply get_set_eq.
      * apply (Hd k l0). by rewrite get_set_ne.
    + intros node' Hin. apply elem_of_cons in Hin as [->|Hin]; [| by apply Hn].
      rewrite Hkey. simpl. apply (Hd key l). apply get_set_eq.
Qed.

(** The binding of a name survives the nodes that are not called by it. *)
Lemma for_loop_with_keeps run self verbose kwargs name nodes :
  forall outputs mo w st w',
    Forall (fun node => node_0 node <> Key name) nodes ->
    for_loop (run_node_with run self verbose kwargs) nodes (outputs, mo) w
      = (Ok st, w') ->
    get name st.1 = get name outputs.
Proof.
  induction nodes as [|node nodes IH]; intros outputs mo w st w' Hn H.
  - by inversion H.
  - inversion Hn as [|? ? Hnode Hnodes]; subst.
    cbn [for_loop] in H. inv_bind H.
    apply run_node_with_ok in E as (key & l & Hkey & ->).
    rewrite (IH _ _ _ _ _ Hnodes H). apply get_set_ne. congruence.
Qed.

(** X8: the namespace that a run returns has the keys [inputs] and [out],
    the keys of the input dictionary and the names of the nodes, and no
    other; the name of every node is bound to a dictionary. *)
Theorem namespace_keys (self : DAGLayer) (inputs : loc) (d : dict value)
  (verbose : option bool) (kwargs : dict value) (w w' : world)
  (outputs : dict value) :
  w_heap w !! inputs = Some d ->
  run_dag self inputs verbose kwargs w = (Ok outputs, w') ->
  (forall k, k ∈ keys outputs <->
             k = "inputs" \/ k ∈ keys d \/ k = "out"
             \/ k ∈ ((fun node => ref_name (node_0 node)) <$> dag self))
  /\ (forall node, node ∈ dag self ->
        exists l, get (ref_name (node_0 node)) outputs = Some (VDict l)).
Proof.
  intros Hd (o & [o1 mo1] & E0 & _ & E1 & H)%run_dag_returned.
  unfold init_outputs, deref in E0. rewrite bind_unfold, Hd in E0.
  injection E0 as <-.
  destruct (for_loop_namespace _ _ _ _ _ _ _ _ _ _ _ E1) as (Hk & Hdict & Hn & Hmo).
  destruct mo1 as [mo|]; [| discriminate]. injection H as <-.
  split.
  - intros k. rewrite keys_set_elem, Hk, keys_update_elem.
    unfold keys at 1. simpl. rewrite list_elem_of_singleton. tauto.
  - intros node Hin. destruct (Hn node Hin) as [l Hl].
    destruct (decide ("out" = ref_name (node_0 node))) as [<-|Hne].
    + destruct Hmo as [l' [= ->]].
      { right. intros Hnil. rewrite Hnil in Hin. inversion Hin. }
      exists l'. apply get_set_eq.
    + exists l. by rewrite get_set_ne.
Qed.

(** X9: the keys of the input dictionary are keys of the namespace with the
    values they have there, and [inputs] is bound to the input dictionary
    itself, but for a key that the input dictionary has, too; only [out]
    and the names of the nodes are bound otherwise. *)
Theorem inputs_at_top_level (self : DAGLayer) (inputs : loc) (d : dict value)
  (verbose : option bool) (kwargs : dict value) (w w' : world)
  (outputs : dict value) (k : string) :
  w_heap w !! inputs = Some d ->
  NoDup (keys d) ->
  run_dag self inputs verbose kwargs w = (Ok outputs, w') ->
  k <> "out" ->
  k ∉ ((fun node => ref_name (node_0 node)) <$> dag self) ->
  get k outputs =
  match get k d with
  | Some v => Some v
  | None => if decide (k = "inputs") then Some (VDict inputs) else None
  end.
Proof.
  intros Hd Hnd (o & [o1 mo1] & E0 & _ & E1 & H)%run_dag_returned Hout Hk.
  unfold init_outputs, deref in E0. rewrite bind_unfold, Hd in E0.
  injection E0 as <-.
  destruct mo1 as [mo|]; [| discriminate]. injection H as <-.
  rewrite get_set_ne by done.
  assert (Forall (fun node => node_0 node <> Key k) (dag self)) as Hnodes.
  { apply Forall_forall. intros node Hin Hnode. apply Hk.
    apply list_elem_of_fmap. exists node. by rewrite Hnode. }
  pose proof (for_loop_with_keeps _ _ _ _ _ _ _ _ _ _ _ Hnodes E1) as Hkeep.
  cbn [fst] in Hkeep. rewrite Hkeep.
  rewrite get_update, get_reverse_NoDup by done. simpl.
  destruct (get k d); [done |]. by repeat case_decide.
Qed.

End Namespace.

(** ** What a module returns or raises *)

Section ModuleResults.
Import PyDict PyDictFacts.
Variable lib : Library.
Variable default_label : nat -> string.
Variable gin_verbose : option bool.

#[local] Abbreviation run_node := (run_node lib default_label gin_verbose).
#[local] Abbreviation run_dag := (run_dag lib default_label gin_verbose).

(** X13: when the module of a node returns a dictionary, the node stores
    that very dictionary under its name, whatever its output keys are, and
    adds no dictionary to the heap. *)
Theorem dict_result_by_reference (self : DAGLayer) (verbose : bool)
  (kwargs outputs : dict value) (mo : option value) (node : Node)
  (st : dict value * option value) (w w' w1 : world)
  (key : string) (m : module) (inputs : list value) (l : loc) :
  run_node self verbose kwargs (outputs, mo) node w = (Ok st, w') ->
  node_0 node = Key key ->
  getattr lib self key = Ok (AModule m) ->
  for_each_result (fun k => nested_lookup k outputs (w_heap w)) (node_1 node)
    = Ok inputs ->
  dispatch key m inputs kwargs w = (Ok (VDict l), w1) ->
  st = (set key (VDict l) outputs, Some (VDict l))
  /\ w_heap w' = w_heap w1.
Proof.
  intros H Hkey Hm Hin Hd. unfold run_node in H.
  apply run_node_stages in H
    as (key' & m' & inputs' & r & r' & w2 & w3 & w4
        & Hkey' & Hm' & Hin' & Hw2 & Hr & Hr' & Hw' & ->).
  assert (key' = key) as -> by congruence.
  assert (m' = AModule m) as -> by congruence.
  assert (inputs' = inputs) as -> by congruence.
  cbn [call_attribute] in Hr.
  pose proof (blind_transfer _ w w2 _ _ (blind_dispatch key m inputs kwargs) Hw2 Hr
                (w_log w)) as Hr2.
  rewrite with_log_own, Hd in Hr2. injection Hr2 as <- Hw3.
  simpl in Hr'. injection Hr' as <- <-. split; [done |].
  pose proof (f_equal w_heap (Hw' [])) as E'. cbn [w_heap with_log] in E'.
  rewrite E'. by rewrite Hw3.
Qed.

Lemma run_prefix (self : DAGLayer) (inputs : loc) (verbose : option bool)
  (kwargs : dict value) (before after : DAG) (node : Node)
  (w w1 : world) (o0 outputs : dict value) (mo : option value) r w2 :
  self_dag lib self = Ok (before ++ node :: after) ->
  init_outputs inputs w = (Ok o0, w) ->
  for_loop (run_node self (verbose_or_default gin_verbose verbose) kwargs)
    before (o0, None) w = (Ok (outputs, mo), w1) ->
  run_node self (verbose_or_default gin_verbose verbose) kwargs
    (outputs, mo) node w1 = (Err r, w2) ->
  run_dag self inputs verbose kwargs w = (Err r, w2).
Proof.
  intros Hdag Hinit Hbefore Hnode.
  rewrite run_dag_eq, (bind_ok_l _ _ _ _ _ Hinit), Hdag.
  rewrite bind_unfold. unfold lift at 1.
  apply bind_err_l. rewrite for_loop_app, Hbefore.
  cbn [for_loop]. by apply bind_err_l.
Qed.

(** The names that resolve on every layer. *)
Lemma getattr_err self key e :
  getattr lib self key = Err e -> key <> "modules" ->
  e = AttributeError key
  /\ get key (attrs self) = None
  /\ inherited lib key = None
  /\ key ∉ ["dag"; "module_names"; "call"; "run_dag"; "format_dag"].
Proof.
  intros H Hmod. unfold getattr, lookup_attribute in H.
  rewrite decide_False in H by done.
  destruct (get key (attrs self)); [done |].
  repeat (case_decide; [done |]).
  destruct (inherited lib key); [done |]. injection H as <-.
  split_and!; try done. rewrite !elem_of_cons, elem_of_nil. tauto.
Qed.

(** X12: a node whose name does not resolve on the layer ends the run with
    the exception of [getattr], before any of its input keys is looked up;
    nothing is called for it or for the nodes after it.  But for the
    getter [modules], which can raise what it wants, the exception is an
    [AttributeError] on the name, and the name is then no module of the
    layer, none of [dag], [module_names], [call], [run_dag] and
    [format_dag], which resolve on every layer, and no attribute of the
    base classes. *)
Theorem unknown_module_aborts (self : DAGLayer) (inputs : loc)
  (verbose : option bool) (kwargs : dict value)
  (before after : DAG) (node : Node) (key : string) (e : exn)
  (w w1 : world) (o0 outputs : dict value) (mo : option value) :
  self_dag lib self = Ok (before ++ node :: after) ->
  node_0 node = Key key ->
  getattr lib self key = Err e ->
  init_outputs inputs w = (Ok o0, w) ->
  for_loop (run_node self (verbose_or_default gin_verbose verbose) kwargs)
    before (o0, None) w = (Ok (outputs, mo), w1) ->
  run_dag self inputs verbose kwargs w = (Err e, w1)
  /\ (key <> "modules" ->
      e = AttributeError key
      /\ get key (attrs self) = None
      /\ inherited lib key = None
      /\ key ∉ ["dag"; "module_names"; "call"; "run_dag"; "format_dag"]).
Proof.
  intros Hdag Hkey Herr Hinit Hbefore. split; [| by apply getattr_err].
  eapply run_prefix; [done.. |].
  unfold run_node, run_node_with. rewrite Hkey. apply bind_err_l.
  unfold lift. by rewrite Herr.
Qed.

Lemma diagnostic_ok (v : value) (f : nest -> log_record) (s : nest) w :
  shape recursion_limit (w_heap w) v = Ok s ->
  when lib (VBool true)
    (h ← get_heap; shapes ← lift (shape recursion_limit h v);
     logging_info (f shapes)) w
  = (Ok tt, with_log (w_log w ++ [f s]) w).
Proof.
  intros Hs. rewrite when_bool, bind_unfold. unfold get_heap at 1. cbn iota.
  rewrite bind_unfold. unfold lift at 1. by rewrite Hs.
Qed.

(** X11: an exception that the module of a node raises ends the run: the
    run raises it, returns no namespace, and calls no module after it. *)
Theorem module_error_propagates (self : DAGLayer) (inputs : loc)
  (verbose : option bool) (kwargs : dict value)
  (before after : DAG) (node : Node) (key : string) (m : module)
  (ins : list value) (e : exn)
  (w w1 w2 : world) (o0 outputs : dict value) (mo : option value) :
  self_dag lib self = Ok (before ++ node :: after) ->
  node_0 node = Key key ->
  getattr lib self key = Ok (AModule m) ->
  init_outputs inputs w = (Ok o0, w) ->
  for_loop (run_node self (verbose_or_default gin_verbose verbose) kwargs)
    before (o0, None) w = (Ok (outputs, mo), w1) ->
  for_each_result (fun k => nested_lookup k outputs (w_heap w1)) (node_1 node)
    = Ok ins ->
  (verbose_or_default gin_verbose verbose = true ->
   is_ok (shape recursion_limit (w_heap w1) (VTuple ins)) = true) ->
  dispatch key m ins kwargs w1 = (Err e, w2) ->
  exists w3,
    run_dag self inputs verbose kwargs w = (Err e, w3)
    /\ w_heap w3 = w_heap w2
    /\ w_calls w3 = w_calls w2.
Proof.
  intros Hdag Hkey Hm Hinit Hbefore Hins Hshape Hd.
  set (v := verbose_or_default gin_verbose verbose) in *.
  assert (exists l, run_node self v kwargs (outputs, mo) node w1
                    = (Err e, with_log l w2)) as [l Hnode].
  { unfold run_node, run_node_with. rewrite Hkey.
    erewrite bind_ok_l by (unfold lift; rewrite Hm; reflexivity).
    erewrite bind_ok_l by (rewrite lookups_pure, Hins; reflexivity).
    cbn [call_attribute].
    destruct v.
    - destruct (shape recursion_limit (w_heap w1) (VTuple ins)) as [s|] eqn:Es;
        [| by specialize (Hshape eq_refl)].
      erewrite bind_ok_l by (by apply diagnostic_ok).
      eexists. apply bind_err_l.
      by rewrite (blind_dispatch key m ins kwargs), Hd.
    - erewrite bind_ok_l by reflexivity.
      exists (w_log w2). rewrite with_log_own. by apply bind_err_l. }
  exists (with_log l w2). split_and!; [| done..].
  by eapply run_prefix.
Qed.

End ModuleResults.
(** ** What a run does to the heap *)

Section HeapFrame.
Import PyDict PyDictFacts.
Variable lib : Library.
Variable default_label : nat -> string.
Variable gin_verbose : option bool.

#[local] Abbreviation run_node_with := (run_node_with lib default_label gin_verbose).
#[local] Abbreviation run_dag_at := (run_dag_at lib default_label gin_verbose).
#[local] Abbreviation run_dag := (run_dag lib default_label gin_verbose).
#[local] Abbreviation call_attribute := (call_attribute lib gin_verbose).

Lemma appends_bind {A B} (m : M A) (f : A -> M B) :
  appends m -> (forall a, appends (f a)) -> appends (m ≫= f).
Proof.
  intros Hm Hf w. rewrite bind_unfold. specialize (Hm w).
  destruct (m w) as [[a|e] w1]; cbn [snd] in *; [| done].
  etrans; [exact Hm | apply Hf].
Qed.

Lemma appends_ret {A} (a : A) : appends (mret a).
Proof. intros w. done. Qed.

Lemma appends_raise {A} e : appends (raise e : M A).
Proof. intros w. done. Qed.

Lemma appends_lift {A} (r : result A) : appends (lift r).
Proof. intros w. done. Qed.

Lemma appends_lookups outputs ks :
  appends (for_each (fun key => h ← get_heap; lift (nested_lookup key outputs h)) ks).
Proof. intros w. by rewrite lookups_pure. Qed.

Lemma appends_when (verbose : value) (m : M unit) :
  appends m -> appends (when lib verbose m).
Proof.
  intros Hm w. unfold when.
  destruct (truthy lib (w_heap w) verbose) as [[]|]; [| done..].
  apply Hm.
Qed.

Lemma appends_diagnostic (verbose : value) (v : value) (f : nest -> log_record) :
  appends (when lib verbose
             (h ← get_heap;
              shapes ← lift (shape recursion_limit h v);
              logging_info (f shapes))).
Proof.
  apply appends_when.
  apply appends_bind; [by intros w | intros h].
  apply appends_bind; [apply appends_lift | intros s]. by intros w.
Qed.

Lemma appends_alloc d : appends (alloc d).
Proof. intros w. by apply prefix_app_r. Qed.

Lemma appends_to_dict x ks : appends (to_dict default_label x ks).
Proof.
  unfold to_dict. case_decide; [| apply appends_raise].
  apply appends_bind; [apply appends_alloc | intros l; apply appends_ret].
Qed.

Lemma appends_invoke_prefix c key (f : method) args kwargs :
  (forall h, h `prefix_of` (f args kwargs h).2) ->
  appends (invoke c key f args kwargs).
Proof.
  intros Hf w. unfold invoke. specialize (Hf (w_heap w)).
  by destruct (f args kwargs (w_heap w)) as [r h].
Qed.

Lemma appends_invoke c key (f : method) args kwargs :
  (forall h, (f args kwargs h).2 = h) -> appends (invoke c key f args kwargs).
Proof. intros Hf. apply appends_invoke_prefix. intros h. by rewrite Hf. Qed.

Lemma appends_dispatch key m inputs kwargs :
  heap_preserving m -> appends (dispatch key m inputs kwargs).
Proof.
  intros [Hcall Hloss]. unfold dispatch.
  destruct (is_processor m); [| destruct (is_loss m)].
  - destruct (get _ _); [apply appends_raise | by apply appends_invoke].
  - destruct (get_losses_dict m) as [f|] eqn:Ef; [| apply appends_raise].
    apply appends_invoke. intros h. by apply Hloss.
  - by apply appends_invoke.
Qed.

(** [format_dag] on a value makes one dictionary, for the modules. *)
Lemma format_dag_call_prefix args kwargs h :
  h `prefix_of` (format_dag_call lib args kwargs h).2.
Proof.
  unfold format_dag_call. destruct (bind_dag args kwargs); [| done].
  destruct (_ ≫= _); by apply prefix_app_r.
Qed.

Section Layer.
Variable self : DAGLayer.

(** The modules of the layer and the objects of the base classes leave the
    dictionaries of the heap as they are. *)
Hypothesis modules_preserve :
  forall k m, get k (attrs self) = Some m -> heap_preserving m.
Hypothesis inherited_preserve :
  forall k o, inherited lib k = Some o -> heap_preserving o.

Lemma getattr_preserving key m :
  getattr lib self key = Ok (AModule m) \/ getattr lib self key = Ok (AInherited m) ->
  heap_preserving m.
Proof.
  unfold getattr, lookup_attribute. case_decide.
  { destruct (modules lib self); intros [?|?]; done. }
  destruct (get key (attrs self)) as [m'|] eqn:Hm.
  { intros [[= <-]|?]; [by eapply modules_preserve | done]. }
  repeat (case_decide; [intros [?|?]; done |]).
  destruct (inherited lib key) as [o|] eqn:Ho; [| intros [?|?]; done].
  intros [?|[= <-]]; [done | by eapply inherited_preserve].
Qed.

Lemma appends_call_attribute run key a inputs kwargs :
  (forall inputs verbose kwargs, appends (run inputs verbose kwargs)) ->
  getattr lib self key = Ok a ->
  appends (call_attribute run self key a inputs kwargs).
Proof.
  intros Hrun Ha.
  assert (forall key args kwargs,
            appends (run_dag_method gin_verbose run key args kwargs)) as Hmethod.
  { intros k args kw. unfold run_dag_method.
    apply appends_bind; [apply appends_lift | intros [[i v] kw']].
    apply appends_bind; [by intros w | intros _].
    apply appends_bind; [apply Hrun | intros o].
    apply appends_bind; [apply appends_alloc | intros l; apply appends_ret]. }
  destruct a as [m|d|names|items|[]|o]; unfold call_attribute;
    try apply appends_raise; try apply Hmethod.
  - apply appends_dispatch, (getattr_preserving key). by left.
  - unfold call_method.
    apply appends_bind; [apply appends_lift | intros [i kw]].
    intros w. rewrite bind_unfold. unfold lift at 1.
    destruct (getattr lib self "run_dag") as [a|e] eqn:Hr; [| done].
    revert w.
    destruct a as [m|d|names|items|[]|o];
      try apply appends_raise; try apply Hmethod.
    + apply appends_invoke, (getattr_preserving "run_dag"). by left.
    + apply appends_invoke, (getattr_preserving "run_dag"). by right.
  - apply appends_invoke_prefix. intros h. apply format_dag_call_prefix.
  - apply appends_dispatch, (getattr_preserving key). by right.
Qed.

Lemma appends_run_node run verbose kwargs st node :
  (forall inputs verbose kwargs, appends (run inputs verbose kwargs)) ->
  appends (run_node_with run self verbose kwargs st node).
Proof.
  intros Hrun. unfold run_node_with. destruct st as [outputs mo].
  destruct (node_0 node) as [key|m0]; [| apply appends_raise].
  intros w. rewrite bind_unfold. unfold lift at 1.
  destruct (getattr lib self key) as [a|e] eqn:Ha; [| done].
  revert w. apply appends_bind; [apply appends_lookups | intros inputs].
  apply appends_bind; [apply appends_diagnostic | intros _].
  apply appends_bind; [by apply appends_call_attribute | intros r].
  apply appends_bind.
  { destruct (negb _); [apply appends_to_dict | apply appends_ret]. }
  intros r'. apply appends_bind; [apply appends_diagnostic | intros _].
  apply appends_ret.
Qed.

Lemma appends_for_loop run verbose kwargs nodes : forall st,
  (forall inputs verbose kwargs, appends (run inputs verbose kwargs)) ->
  appends (for_loop (run_node_with run self verbose kwargs) nodes st).
Proof.
  induction nodes as [|node nodes IH]; intros st Hrun; [apply appends_ret |].
  cbn [for_loop]. apply appends_bind; [by apply appends_run_node |].
  intros st'. by apply IH.
Qed.

Lemma appends_init_outputs_of inputs : appends (init_outputs_of lib inputs).
Proof.
  assert (forall l, appends (init_outputs l)) as Hdict.
  { intros l w. unfold init_outputs, deref. rewrite bind_unfold.
    by destruct (w_heap w !! l). }
  destruct inputs; try apply Hdict; unfold init_outputs_of;
    (apply appends_bind; [by intros w | intros h];
     apply appends_bind; [apply appends_lift | intros its; apply appends_ret]).
Qed.

(** A run adds dictionaries to the heap and changes none, at every depth. *)
Lemma appends_run_dag_at depth : forall inputs verbose kwargs,
  appends (run_dag_at depth self inputs verbose kwargs).
Proof.
  induction depth as [|depth IH]; intros inputs verbose kwargs;
    [apply appends_raise |].
  rewrite run_dag_at_S.
  apply appends_bind; [apply appends_init_outputs_of | intros o].
  apply appends_bind; [apply appends_lift | intros nodes].
  apply appends_bind; [by apply appends_for_loop | intros st].
  destruct st as [o1 [mo|]]; [apply appends_ret | apply appends_raise].
Qed.

End Layer.


End HeapFrame.

(** ** A diagnostic that fails *)

Section DiagnosticFails.
Variable lib : Library.
Variable default_label : nat -> string.
Variable gin_verbose : option bool.

#[local] Abbreviation run_node := (run_node lib default_label gin_verbose).
#[local] Abbreviation run_dag := (run_dag lib default_label gin_verbose).

Lemma diagnostic_err (v : value) (f : nest -> log_record) (e : exn) w :
  shape recursion_limit (w_heap w) v = Err e ->
  when lib (VBool true)
    (h ← get_heap; shapes ← lift (shape recursion_limit h v);
     logging_info (f shapes)) w
  = (Err e, w).
Proof.
  intros Hs. rewrite when_bool, bind_unfold. unfold get_heap at 1. cbn iota.
  rewrite bind_unfold. unfold lift at 1. by rewrite Hs.
Qed.

(** X15: with verbosity on, an input of a node of which the shapes cannot
    be taken ends the run: the exception of the diagnostic is raised before
    what the node names is called, and nothing is logged for the node. *)
Theorem diagnostic_error_aborts (self : DAGLayer) (inputs : loc)
  (verbose : option bool) (kwargs : dict value)
  (before after : DAG) (node : Node) (key : string) (a : attribute)
  (ins : list value) (e : exn)
  (w w1 : world) (o0 outputs : dict value) (mo : option value) :
  self_dag lib self = Ok (before ++ node :: after) ->
  node_0 node = Key key ->
  getattr lib self key = Ok a ->
  init_outputs inputs w = (Ok o0, w) ->
  for_loop (run_node self (verbose_or_default gin_verbose verbose) kwargs)
    before (o0, None) w = (Ok (outputs, mo), w1) ->
  for_each_result (fun k => nested_lookup k outputs (w_heap w1)) (node_1 node)
    = Ok ins ->
  verbose_or_default gin_verbose verbose = true ->
  shape recursion_limit (w_heap w1) (VTuple ins) = Err e ->
  run_dag self inputs verbose kwargs w = (Err e, w1).
Proof.
  intros Hdag Hkey Hm Hinit Hbefore Hins Hv Hs.
  eapply run_prefix; [done.. |].
  unfold run_node, run_node_with. rewrite Hkey, Hv.
  erewrite bind_ok_l by (unfold lift; rewrite Hm; reflexivity).
  erewrite bind_ok_l by (rewrite lookups_pure, Hins; reflexivity).
  apply bind_err_l. by apply diagnostic_err.
Qed.

End DiagnosticFails.
(** ** The further properties at work *)

(** The keyword arguments [sample_kwargs], split: from
    [split_keras_kwargs_partition]. *)
Lemma split_keras_kwargs_partition_sample :
  (forall k v,
     PyDict.get k (split_keras_kwargs sample_kwargs).1 = Some v <->
     k ∈ ["training"; "mask"; "name"] /\ PyDict.get k sample_kwargs = Some v
     /\ v <> KwValue VNone)
  /\ (forall k v,
        PyDict.get k (split_keras_kwargs sample_kwargs).2 = Some v <->
        PyDict.get k sample_kwargs = Some v
        /\ (k ∈ ["training"; "mask"; "name"] -> v = KwValue VNone)).
Proof.
  apply (split_keras_kwargs_partition sample_kwargs).
  apply (bool_decide_unpack _). vm_compute. exact I.
Defined.

(** From [split_keras_kwargs_again]. *)
Lemma split_keras_kwargs_again_sample :
  split_keras_kwargs (split_keras_kwargs sample_kwargs).2
  = ([], (split_keras_kwargs sample_kwargs).2).
Proof.
  apply (split_keras_kwargs_again sample_kwargs).
  apply (bool_decide_unpack _). vm_compute. exact I.
Defined.

(** The modules among [sample_kwargs]: from [filter_by_value_dict]. *)
Lemma filter_by_value_dict_sample :
  filter_by_value sample_kwargs is_module
  = filter (fun e => is_module e.2) sample_kwargs
  /\ NoDup (PyDict.keys (filter_by_value sample_kwargs is_module))
  /\ forall k,
       PyDict.get k (filter_by_value sample_kwargs is_module) =
       match PyDict.get k sample_kwargs with
       | Some v => if is_module v then Some v else None
       | None => None
       end.
Proof.
  apply (filter_by_value_dict sample_kwargs is_module).
  apply (bool_decide_unpack _). vm_compute. exact I.
Defined.

(** The modules of the layer of the mixed graph, from [modules_getter]. *)
Lemma modules_getter_mixed :
  modules plain mixed_layer = Ok [AModule synth; AModule loss; AModule double].
Proof.
  apply (modules_getter plain mixed_dag
           [ ("synth", KwModule synth); ("loss", KwModule loss);
             ("double", KwModule double) ] mixed_layer).
  reflexivity.
Defined.

(** The scenario with [double] embedded in the graph: from
    [inline_instance_resolves]. *)
Lemma inline_instance_resolves_scenario :
  exists node' m',
    dag scenario_layer !! 0 = Some node'
    /\ node_0 node' = Key (name double)
    /\ node_1 node' = ["inputs/x"]
    /\ getattr plain scenario_layer (name double) = Ok (AModule m')
    /\ name m' = name double
    /\ (NoDup (inline_modules inline_dag).*1 -> m' = double)
    /\ getattr plain scenario_layer "dag" = Ok (AGraph (dag scenario_layer)).
Proof.
  apply (inline_instance_resolves plain inline_dag [] scenario_layer 0
           (MkNode (Mod double) ["inputs/x"] (Some ["y"])) double).
  - reflexivity.
  - reflexivity.
  - reflexivity.
Defined.

(** The run of the mixed graph, from [calls_in_graph_order]. *)
Lemma calls_in_graph_order_mixed :
  [("synth", Processor); ("loss", Loss); ("double", Default)].*1
  = (w_calls scenario_world).*1
    ++ ((fun node => ref_name (node_0 node)) <$> dag mixed_layer).
Proof.
  apply (calls_in_graph_order plain digit_label None mixed_layer 0 (Some false) []
           scenario_world
           (World [ [("x", scalar 3)]; [("s", VTensor [] [1%Z])];
                    [("l", VTensor [] [2%Z])]; [("y", scalar 6)] ] []
              [("synth", Processor); ("loss", Loss); ("double", Default)])
           [ ("inputs", VDict 0); ("x", scalar 3); ("synth", VDict 1);
             ("loss", VDict 2); ("double", VDict 3); ("out", VDict 3) ]).
  reflexivity.
Defined.

(** The run of the scenario, from [namespace_keys]. *)
Lemma namespace_keys_scenario :
  (forall k,
     k ∈ PyDict.keys [ ("inputs", VDict 0); ("x", scalar 3);
                       ("double", VDict 1); ("out", VDict 1) ] <->
     k = "inputs" \/ k ∈ PyDict.keys [("x", scalar 3)] \/ k = "out"
     \/ k ∈ ((fun node => ref_name (node_0 node)) <$> dag scenario_layer))
  /\ (forall node, node ∈ dag scenario_layer ->
        exists l,
          PyDict.get (ref_name (node_0 node))
            [ ("inputs", VDict 0); ("x", scalar 3);
              ("double", VDict 1); ("out", VDict 1) ] = Some (VDict l)).
Proof.
  apply (namespace_keys plain digit_label None scenario_layer 0 [("x", scalar 3)]
           (Some false) [] scenario_world
           (World [ [("x", scalar 3)]; [("y", scalar 6)] ] [] [("double", Default)])).
  - reflexivity.
  - reflexivity.
Defined.

(** The input [x] of the scenario at top level, from
    [inputs_at_top_level]. *)
Lemma inputs_at_top_level_scenario :
  PyDict.get "x" [ ("inputs", VDict 0); ("x", scalar 3);
                   ("double", VDict 1); ("out", VDict 1) ] =
  match PyDict.get "x" [("x", scalar 3)] with
  | Some v => Some v
  | None => if decide ("x" = "inputs") then Some (VDict 0) else None
  end.
Proof.
  apply (inputs_at_top_level plain digit_label None scenario_layer 0 [("x", scalar 3)]
           (Some false) [] scenario_world
           (World [ [("x", scalar 3)]; [("y", scalar 6)] ] [] [("double", Default)])).
  - reflexivity.
  - apply NoDup_singleton.
  - reflexivity.
  - discriminate.
  - apply (bool_decide_unpack _). vm_compute. exact I.
Defined.

(** The run of the scenario, from [verbose_is_diagnostic]. *)
Lemma verbose_is_diagnostic_scenario :
  run_dag plain digit_label None scenario_layer 0 (Some false) [] scenario_world
  = (Ok [ ("inputs", VDict 0); ("x", scalar 3);
          ("double", VDict 1); ("out", VDict 1) ],
     with_log (w_log scenario_world)
       (World [ [("x", scalar 3)]; [("y", scalar 6)] ]
          [ InputRecord "double" ["inputs/x"] (Seq [Leaf []]);
            OutputRecord "double" (Map [("y", Leaf [])]) ]
          [("double", Default)])).
Proof.
  apply (verbose_is_diagnostic plain digit_label None scenario_layer 0 []).
  reflexivity.
Defined.

(** The run of [failing_dag], from [module_error_propagates]. *)
Lemma module_error_propagates_failing :
  exists w3,
    run_dag plain digit_label None failing_layer 0 (Some true) [] scenario_world
    = (Err (ValueError "failing"), w3)
    /\ w_heap w3 = [ [("x", scalar 3)]; [("s", scalar 7)] ]
    /\ w_calls w3 = [("seven", Default); ("failing", Default)].
Proof.
  apply (module_error_propagates plain digit_label None failing_layer 0 (Some true) []
           [MkNode (Key "seven") [] (Some ["s"])]
           [MkNode (Key "double") ["seven/s"] (Some ["y"])]
           (MkNode (Key "failing") ["seven/s"] (Some ["y"]))
           "failing" failing [scalar 7] (ValueError "failing")
           scenario_world
           (World [ [("x", scalar 3)]; [("s", scalar 7)] ]
              [ InputRecord "seven" [] (Seq []);
                OutputRecord "seven" (Map [("s", Leaf [])]) ]
              [("seven", Default)])
           (World [ [("x", scalar 3)]; [("s", scalar 7)] ]
              [ InputRecord "seven" [] (Seq []);
                OutputRecord "seven" (Map [("s", Leaf [])]) ]
              [("seven", Default); ("failing", Default)])
           [("inputs", VDict 0); ("x", scalar 3)]
           [("inputs", VDict 0); ("x", scalar 3); ("seven", VDict 1)]
           (Some (VDict 1))).
  - reflexivity.
  - reflexivity.
  - reflexivity.
  - reflexivity.
  - reflexivity.
  - reflexivity.
  - intros _. reflexivity.
  - reflexivity.
Defined.

(** The run of [unknown_dag], from [unknown_module_aborts]. *)
Lemma unknown_module_aborts_unknown :
  run_dag plain digit_label None unknown_layer 0 (Some false) [] scenario_world
  = (Err (AttributeError "missing"),
     World [ [("x", scalar 3)]; [("y", scalar 6)] ] [] [("double", Default)])
  /\ ("missing" <> "modules" ->
      AttributeError "missing" = AttributeError "missing"
      /\ PyDict.get "missing" (attrs unknown_layer) = None
      /\ inherited plain "missing" = None
      /\ "missing" ∉ ["dag"; "module_names"; "call"; "run_dag"; "format_dag"]).
Proof.
  apply (unknown_module_aborts plain digit_label None unknown_layer 0 (Some false) []
           [MkNode (Key "double") ["inputs/x"] (Some ["y"])]
           [MkNode (Key "seven") [] (Some ["s"])]
           (MkNode (Key "missing") ["inputs/x"] (Some ["y"]))
           "missing" (AttributeError "missing") scenario_world
           (World [ [("x", scalar 3)]; [("y", scalar 6)] ] [] [("double", Default)])
           [("inputs", VDict 0); ("x", scalar 3)]
           [("inputs", VDict 0); ("x", scalar 3); ("double", VDict 1)]
           (Some (VDict 1))).
  - reflexivity.
  - reflexivity.
  - reflexivity.
  - reflexivity.
  - reflexivity.
Defined.

(** The node [identity] applied to the input dictionary, which it returns:
    from [dict_result_by_reference]. *)
Lemma dict_result_by_reference_identity :
  ([("inputs", VDict 0); ("x", scalar 3); ("identity", VDict 0)], Some (VDict 0))
  = (PyDict.set "identity" (VDict 0) [("inputs", VDict 0); ("x", scalar 3)],
     Some (VDict 0))
  /\ w_heap (World [[("x", scalar 3)]] [] [("identity", Default)])
     = w_heap (World [[("x", scalar 3)]] [] [("identity", Default)]).
Proof.
  apply (dict_result_by_reference plain digit_label None identity_layer false []
           [("inputs", VDict 0); ("x", scalar 3)] None
           (MkNode (Key "identity") ["inputs"] (Some ["a"; "b"]))
           ([("inputs", VDict 0); ("x", scalar 3); ("identity", VDict 0)],
            Some (VDict 0))
           scenario_world
           (World [[("x", scalar 3)]] [] [("identity", Default)])
           (World [[("x", scalar 3)]] [] [("identity", Default)])
           "identity" identity [VDict 0] 0).
  - reflexivity.
  - reflexivity.
  - reflexivity.
  - reflexivity.
  - reflexivity.
Defined.


(** The run of [seven_dag] on an input without a shape, from
    [diagnostic_error_aborts]. *)
Lemma diagnostic_error_aborts_none :
  run_dag plain digit_label None seven_layer 0 (Some true) [] none_world
  = (Err (AttributeError "shape"), none_world).
Proof.
  apply (diagnostic_error_aborts plain digit_label None seven_layer 0 (Some true) []
           [] [] (MkNode (Key "seven") ["inputs/x"] (Some ["y"]))
           "seven" (AModule seven) [VNone] (AttributeError "shape")
           none_world none_world
           [("inputs", VDict 0); ("x", VNone)]
           [("inputs", VDict 0); ("x", VNone)] None).
  - reflexivity.
  - reflexivity.
  - reflexivity.
  - reflexivity.
  - reflexivity.
  - reflexivity.
  - reflexivity.
  - reflexivity.
Defined.

(** ** The copies that [format_dag] makes are shallow *)

Section Shallow.
Import Objects.

Lemma iter_mono e (σ0 σ : store) its :
  σ0 `prefix_of` σ -> iter e σ0 = (Ok its, σ0) -> iter e σ = (Ok its, σ).
Proof.
  intros Hpre. unfold iter. destruct e as [s|r]; [by intros [= <-] |].
  destruct (σ0 !! r) as [o|] eqn:E; [| discriminate].
  rewrite (prefix_lookup_Some _ _ _ _ E Hpre).
  destruct o; [discriminate | |]; by intros [= <-].
Qed.

(** One turn of the loop that completes: the store it leaves. *)
Lemma format_node_ok dag modules i (σ σ1 : store) items e modules1 :
  σ !! dag = Some (OList items) ->
  items !! i = Some e ->
  format_node dag modules i σ = (Ok modules1, σ1) ->
  exists its its1,
    iter e σ = (Ok its, σ)
    /\ is_Some (its !! 0)
    /\ drop 1 its1 = drop 1 its
    /\ σ1 = <[dag := OList (<[i := ERef (length σ)]> items)]> (σ ++ [OList its1]).
Proof.
  intros Hdag He. rewrite (format_node_run _ _ _ _ _ _ Hdag He).
  pose proof (iter_store e σ) as Hst.
  destruct (iter e σ) as [[its|err] σ_]; [| discriminate]. simpl in Hst. subst σ_.
  destruct (its !! 0) as [module|] eqn:E0; [| discriminate].
  destruct (as_module module (σ ++ [OList its])) as [[[m|]|?] ?]; cbn [fst];
    intros [= _ <-].
  - exists its, (<[0 := EStr (name m)]> its). split_and!; [done | by eexists | | done].
    by rewrite drop_insert_lt by lia.
  - exists its, its. split_and!; [done | by eexists | done..].
  - exists its, its. split_and!; [done | by eexists | done..].
Qed.

Lemma format_loop_shares (σ0 : store) dag (items0 : list elem) :
  forall k i modules (σ : store) items modules' (σ' : store),
    σ0 `prefix_of` σ ->
    length σ0 <= dag ->
    σ !! dag = Some (OList items) ->
    length items = length items0 ->
    i + k = length items0 ->
    (forall j, i <= j -> items !! j = items0 !! j) ->
    (forall j e its0, j < i -> items0 !! j = Some e -> iter e σ0 = (Ok its0, σ0) ->
       exists nd its,
         items !! j = Some (ERef nd) /\ nd <> dag
         /\ σ !! nd = Some (OList its) /\ drop 1 its = drop 1 its0
         /\ is_Some (its0 !! 0)) ->
    for_loop (format_node dag) (seq i k) modules σ = (Ok modules', σ') ->
    exists items',
      σ' !! dag = Some (OList items')
      /\ length items' = length items0
      /\ forall j e its0, items0 !! j = Some e -> iter e σ0 = (Ok its0, σ0) ->
           exists nd its,
             items' !! j = Some (ERef nd)
             /\ σ' !! nd = Some (OList its) /\ drop 1 its = drop 1 its0
             /\ is_Some (its0 !! 0).
Proof.
  induction k as [|k IH];
    intros i modules σ items modules' σ' Hpre Hdag Hlook Hlen Hik Hrest Hdone Hloop.
  { injection Hloop as _ <-. exists items. split_and!; [done.. |].
    intros j e its0 Hj Hit.
    destruct (Hdone j e its0) as (nd & its & ? & ? & ? & ? & ?); eauto 10.
    apply lookup_lt_Some in Hj. lia. }
  cbn [seq for_loop] in Hloop.
  apply bind_ok_inv in Hloop as (modules1 & σ1 & Hnode & Hloop).
  assert (i < length items0) as Hi by lia.
  destruct (lookup_lt_is_Some_2 items0 i Hi) as [e He].
  assert (items !! i = Some e) as He' by (by rewrite Hrest).
  assert (dag < length σ) as Hlt by (by eapply lookup_lt_Some).
  destruct (format_node_ok _ _ _ _ _ _ _ _ Hlook He' Hnode)
    as (its & its1 & Hiter & Hfirst & Hdrop & ->).
  refine (IH (S i) modules1 _ (<[i := ERef (length σ)]> items) modules' σ'
            _ _ _ _ _ _ _ Hloop); try done.
  - by apply prefix_step.
  - rewrite list_lookup_insert_eq; [done |]. rewrite length_app. lia.
  - by rewrite length_insert.
  - lia.
  - intros j Hj. rewrite list_lookup_insert_ne by lia. apply Hrest. lia.
  - intros j e' its0 Hj He0 Hit0. destruct (decide (j = i)) as [->|Hne].
    + assert (e' = e) as -> by congruence.
      pose proof (iter_mono _ _ _ _ Hpre Hit0) as Hit. rewrite Hiter in Hit.
      injection Hit as ->.
      exists (length σ), its1. split_and!.
      * rewrite list_lookup_insert_eq; [done | lia].
      * lia.
      * rewrite list_lookup_insert_ne by lia. apply lookup_alloc.
      * done.
      * done.
    + destruct (Hdone j e' its0) as (nd & its' & Hj1 & Hj2 & Hj3 & Hj4 & Hj5);
        [lia | done | done |].
      exists nd, its'. split_and!; try done.
      * by rewrite list_lookup_insert_ne.
      * rewrite list_lookup_insert_ne by done.
        rewrite lookup_app_l; [done | by eapply lookup_lt_Some].
Qed.

(** What a call of [format_dag] that returns has done to every node. *)
Lemma format_dag_copies (dag : elem) (σ σ' : store) (dag' : ref)
  (modules : dict elem) :
  Objects.format_dag dag σ = (Ok (dag', modules), σ') ->
  exists items0 items',
    iter dag σ = (Ok items0, σ)
    /\ σ' !! dag' = Some (OList items')
    /\ length items' = length items0
    /\ forall j e its0,
         items0 !! j = Some e -> iter e σ = (Ok its0, σ) ->
         exists nd its,
           items' !! j = Some (ERef nd)
           /\ σ' !! nd = Some (OList its)
           /\ drop 1 its = drop 1 its0
           /\ is_Some (its0 !! 0).
Proof.
  unfold Objects.format_dag, list_.
  rewrite (bind_unfold (iter dag ≫= new_list)), (bind_unfold (iter dag)).
  pose proof (iter_store dag σ) as Hst.
  destruct (iter dag σ) as [[items0|err] σ_]; [| discriminate].
  simpl in Hst. subst σ_.
  change (new_list items0 σ) with (Ok (length σ), σ ++ [OList items0]). cbn iota.
  rewrite (bind_ok_l _ _ _ _ _ (len_list _ _ _ (lookup_alloc _ _))).
  intros H. apply bind_ok_inv in H as (modules' & σ1 & Hloop & H).
  injection H as <- <- <-.
  destruct (format_loop_shares σ (length σ) items0 (length items0) 0 []
              (σ ++ [OList items0]) items0 modules' σ1)
    as (items' & Hdag' & Hlen & Hnodes); try done.
  - by apply prefix_app_r.
  - apply lookup_alloc.
  - intros j e its0 Hj. lia.
  - exists items0, items'. split_and!; done.
Qed.

(** X16: the nodes that [format_dag] returns are shallow copies: but for
    its first item, where the name stands, every new node has the items of
    the node it was copied from, so the lists of input and output keys are
    those of the caller's graph and not copies of them. *)
Theorem format_dag_shares_keys (dag : elem) (σ σ' : store) (dag' : ref)
  (modules : dict elem) :
  Objects.format_dag dag σ = (Ok (dag', modules), σ') ->
  exists items0 items',
    iter dag σ = (Ok items0, σ)
    /\ σ' !! dag' = Some (OList items')
    /\ length items' = length items0
    /\ forall j e its0,
         items0 !! j = Some e -> iter e σ = (Ok its0, σ) ->
         exists nd its,
           items' !! j = Some (ERef nd)
           /\ σ' !! nd = Some (OList its)
           /\ drop 1 its = drop 1 its0.
Proof.
  intros H.
  destruct (format_dag_copies _ _ _ _ _ H) as (items0 & items' & ? & ? & ? & Hn).
  exists items0, items'. split_and!; try done.
  intros j e its0 Hj Hit.
  destruct (Hn j e its0 Hj Hit) as (nd & its & ? & ? & ? & _). eauto.
Qed.

(** X17: a graph with a node that has no item is refused: [format_dag]
    raises and returns no graph, as [node[0]] has nothing to read. *)
Theorem format_dag_empty_node (dag : elem) (σ : store) (items0 : list elem)
  (j : nat) (e : elem) :
  iter dag σ = (Ok items0, σ) ->
  items0 !! j = Some e ->
  iter e σ = (Ok [], σ) ->
  exists err σ', Objects.format_dag dag σ = (Err err, σ').
Proof.
  intros Hdag Hj Hempty.
  destruct (Objects.format_dag dag σ) as [[[dag' modules]|err] σ'] eqn:E;
    [| by eauto].
  destruct (format_dag_copies _ _ _ _ _ E) as (items1 & items' & Hit & _ & _ & Hn).
  rewrite Hdag in Hit. injection Hit as <-.
  destruct (Hn j e [] Hj Hempty) as (nd & its & _ & _ & _ & [x Hx]).
  discriminate.
Qed.

End Shallow.

(** The graph of tuples, from [format_dag_shares_keys]. *)
Lemma format_dag_shares_keys_tuples :
  exists items0 items',
    Objects.iter (Objects.ERef 6) (Objects.tuple_store seven)
      = (Ok items0, Objects.tuple_store seven)
    /\ (Objects.tuple_store seven ++
        [ Objects.OList [Objects.ERef 8; Objects.ERef 9];
          Objects.OList [Objects.EStr "enc"; Objects.ERef 0; Objects.ERef 1];
          Objects.OList [Objects.EStr "seven"; Objects.ERef 4] ]) !! 7
       = Some (Objects.OList items')
    /\ length items' = length items0
    /\ forall j e its0,
         items0 !! j = Some e ->
         Objects.iter e (Objects.tuple_store seven)
           = (Ok its0, Objects.tuple_store seven) ->
         exists nd its,
           items' !! j = Some (Objects.ERef nd)
           /\ (Objects.tuple_store seven ++
               [ Objects.OList [Objects.ERef 8; Objects.ERef 9];
                 Objects.OList [Objects.EStr "enc"; Objects.ERef 0; Objects.ERef 1];
                 Objects.OList [Objects.EStr "seven"; Objects.ERef 4] ]) !! nd
              = Some (Objects.OList its)
           /\ drop 1 its = drop 1 its0.
Proof.
  apply (format_dag_shares_keys (Objects.ERef 6) (Objects.tuple_store seven) _ 7
           [("seven", Objects.ERef 3)]).
  reflexivity.
Defined.

(** A graph whose second node is the empty tuple, from
    [format_dag_empty_node]. *)
Lemma format_dag_empty_node_sample :
  exists err σ',
    Objects.format_dag (Objects.ERef 3)
      [ Objects.OModule seven;
        Objects.OTuple [Objects.ERef 0; Objects.EStr "x"];
        Objects.OTuple [];
        Objects.OList [Objects.ERef 1; Objects.ERef 2] ]
    = (Err err, σ').
Proof.
  apply (format_dag_empty_node (Objects.ERef 3) _
           [Objects.ERef 1; Objects.ERef 2] 1 (Objects.ERef 2));
    reflexivity.
Defined.

(** ** A node that names a method of the layer *)

Section Reentrant.
Import PyDict PyDictFacts.
Variable lib : Library.
Variable default_label : nat -> string.
Variable gin_verbose : option bool.

#[local] Abbreviation run_dag := (run_dag lib default_label gin_verbose).

(** X18: a run of a graph with a node that names the method [run_dag] or
    the method [call] of the layer never returns: the node runs the graph
    again, from within the run, and so on until an exception is raised or
    the interpreter has no room left. *)
Theorem run_within_run_never_returns (self : DAGLayer) (inputs : loc)
  (verbose : option bool) (kwargs : dict value) (w : world)
  (node : Node) (key : string) :
  node ∈ dag self ->
  node_0 node = Key key ->
  key = "run_dag" \/ key = "call" ->
  get "run_dag" (attrs self) = None ->
  get "call" (attrs self) = None ->
  exists e w', run_dag self inputs verbose kwargs w = (Err e, w').
Proof.
  intros Hin Hkey Hname Hrun Hcall.
  assert (reentrant lib self node = true) as Hre.
  { unfold reentrant, reenters, getattr, lookup_attribute. rewrite Hkey.
    destruct Hname as [-> | ->]; rewrite ?Hrun, ?Hcall; by repeat case_decide. }
  destruct (self_dag lib self) as [d|e] eqn:Hd.
  - pose proof (self_dag_ok _ _ _ Hd) as [-> _].
    apply raises_err. unfold run_dag.
    by apply (never_returns lib default_label gin_verbose self (dag self) node).
  - rewrite run_dag_eq. destruct (init_outputs inputs w) as [[o|e0] w0] eqn:Hinit.
    + rewrite (bind_ok_l _ _ _ _ _ Hinit), bind_unfold. unfold lift at 1.
      rewrite Hd. eauto.
    + rewrite (bind_err_l _ _ _ _ _ Hinit). eauto.
Qed.

End Reentrant.

(** The run of [loop_dag], from [run_within_run_never_returns]. *)
Lemma run_within_run_never_returns_loop :
  exists e w',
    run_dag plain digit_label None loop_layer 0 (Some false) [] scenario_world
    = (Err e, w').
Proof.
  apply (run_within_run_never_returns plain digit_label None loop_layer 0
           (Some false) [] scenario_world (MkNode (Key "call") ["inputs"] None)
           "call").
  - apply list_elem_of_further, list_elem_of_here.
  - reflexivity.
  - by right.
  - reflexivity.
  - reflexivity.
Defined.

(** That run is called with [verbose=False], and the runs within it are
    not: they log with the configured verbosity, until no room is left. *)
Lemma runs_within_run_log :
  (run_dag plain digit_label None loop_layer 0 (Some false) [] scenario_world).1
  = Err RecursionError
  /\ take 2 (w_log (run_dag plain digit_label None loop_layer 0 (Some false) []
                      scenario_world).2)
     = [ InputRecord "double" ["inputs/x"] (Seq [Leaf []]);
         OutputRecord "double" (Map [("y", Leaf [])]) ].
Proof. split; vm_compute; reflexivity. Qed.
